(** * String columns of cudf: a shallow embedding of
    [python/cudf/cudf/core/column/string.py]

    The file embeds the two classes of the module, [StringColumn] and its
    accessor [StringMethods], and proves properties of the size computed by
    the constructor, of the derivation of the logical [children], of the
    serialisation round trip, of the argument checks and normalisations of
    the accessor methods, and of the operator dispatch.

    Python integers are unbounded and are modelled by [Z]; int32 elements
    wrap around.  A Python exception is a value of [exn], and a call that
    may raise returns a [result].  Device work (allocations and kernel
    launches) and host calls are recorded in a trace. *)

From Stdlib Require Import ZArith String Ascii Bool Lia List.
Import ListNotations.
Local Open Scope string_scope.
Local Open Scope list_scope.
Local Open Scope Z_scope.

(* ================================================================== *)
(** * Part I: definitions *)
(* ================================================================== *)

(** ** Python values, exceptions and results *)

(** The exceptions the module raises or lets through.  [EngineError] stands
    for a failure signalled by the string engine itself, [OtherError] for
    any other exception, known by the name of its class. *)
Inductive exn : Type :=
| NotImplementedError (msg : string)
| TypeError (msg : string)
| AttributeError
| IndexError
| KeyError
| EngineError (kind : string)
| OtherError (name : string).

Inductive result (A : Type) : Type :=
| Ok (a : A)
| Raise (e : exn).

Arguments Ok {A} a.
Arguments Raise {A} e.

Definition bind {A B : Type} (r : result A) (k : A -> result B) : result B :=
  match r with
  | Ok a => k a
  | Raise e => Raise e
  end.

Declare Scope py_scope.
Delimit Scope py_scope with py.
Notation "x <- c ;; k" := (bind c (fun x => k))
  (at level 61, c at next level, right associativity) : py_scope.
Local Open Scope py_scope.

Definition is_ok {A : Type} (r : result A) : bool :=
  match r with Ok _ => true | Raise _ => false end.

(** The Python objects that reach the keyword parameters of the accessor
    methods.  [NpNan] is the singleton [np.nan]; [PyFloatNan] is any other
    float NaN object, which is not identical to it. *)
Inductive pyval : Type :=
| PyNone
| PyBool (b : bool)
| PyInt (z : Z)
| PyStr (s : string)
| NpNan
| PyFloatNan.

(** [v is True] *)
Definition py_is_True (v : pyval) : bool :=
  match v with PyBool true => true | _ => false end.

(** [v is None] *)
Definition py_is_None (v : pyval) : bool :=
  match v with PyNone => true | _ => false end.

(** [v is np.nan] *)
Definition py_is_np_nan (v : pyval) : bool :=
  match v with NpNan => true | _ => false end.

(** ** Buffers and fixed-width columns

    A [Column] is a view [(offset, size)] of a base buffer, as
    [column.build_column(data=..., size=..., offset=...)] makes it.  The base
    buffer is kept as the list of its elements at the column's dtype: bytes
    for the chars child and for masks, int32 values for the offsets child. *)

Inductive dtype : Type :=
| Int8 | Int16 | Int32 | Int64 | Float32 | Float64 | Bool8
| Datetime64 (unit_ : string)
| Object.

Definition Buffer : Type := list Z.

Record Column : Type := mkColumn {
  col_base_data : Buffer;
  col_dtype : dtype;
  col_base_mask : option Buffer;
  col_size : Z;
  col_offset : Z
}.

(** Modelled from the spec: [column.build_column] for a fixed-width dtype,
    which is not part of this module; it makes the view [(offset, size)] of
    a buffer without copying it. *)
Definition build_column (data : Buffer) (dt : dtype) (mask : option Buffer)
  (size offset : Z) : Column :=
  mkColumn data dt mask size offset.

(** Modelled from the spec: [build_column(data=buf, dtype=dt, mask=mask)],
    which is not part of this module; without an explicit size the column
    spans the whole buffer. *)
Definition build_column_of_buffer (data : Buffer) (dt : dtype)
  (mask : option Buffer) : Column :=
  mkColumn data dt mask (Z.of_nat (length data)) 0.

(** The elements a column shows: [size] elements from [offset] on. *)
Definition col_elements (c : Column) : list Z :=
  firstn (Z.to_nat (col_size c)) (skipn (Z.to_nat (col_offset c)) (col_base_data c)).

(** Modelled from the spec: [c[i]] for an integer [i], the
    [element_indexing] of the base class, which is not part of this module.
    A negative index counts from the end, an index past the last row
    raises, and so does a read outside the base buffer. *)
Definition element_indexing (c : Column) (i : Z) : result Z :=
  let i' := if i <? 0 then col_size c + i else i in
  if (i' <? 0) || (col_size c - 1 <? i') then Raise IndexError
  else match nth_error (col_base_data c) (Z.to_nat (col_offset c + i')) with
       | Some v => Ok v
       | None => Raise IndexError
       end.

(** int32 wrap-around. *)
Definition wrap32 (z : Z) : Z := (z + 2147483648) mod 4294967296 - 2147483648.

(** Modelled from the spec: [c.binary_operator("sub", scalar)] of an int32
    column, which is not part of this module; the vectorised subtraction
    gives a fresh column holding the element-wise differences. *)
Definition column_sub_scalar (c : Column) (s : Z) : Column :=
  mkColumn (map (fun x => wrap32 (x - s)) (col_elements c))
           (col_dtype c) None (col_size c) 0.

(** ** Validity masks *)

(** Modelled from the spec: the validity bit of row [i] in a mask buffer,
    bit-packed, least significant bit first, 1 = valid. *)
Definition bit_is_set (m : Buffer) (i : nat) : bool :=
  Z.testbit (nth (i / 8) m 0) (Z.of_nat (i mod 8)).

(** The byte that holds eight bits, bit [j] at position [j]. *)
Definition pack_byte (f : nat -> bool) : Z :=
  fold_right (fun j acc => Z.lor (Z.shiftl (Z.b2z (f j)) (Z.of_nat j)) acc) 0
             (seq 0 8).

(** The bit-packed buffer of a list of bits. *)
Definition pack_bits (bs : list bool) : Buffer :=
  map (fun k => pack_byte (fun j => nth (8 * k + j) bs false))
      (seq 0 ((length bs + 7) / 8)).

(** Modelled from the spec: [copy_bitmask], which is not part of this
    module; the bits of rows [offset .. offset + size) are moved to
    positions [0 .. size) of a fresh buffer. *)
Definition copy_bitmask (m : Buffer) (offset size : Z) : Buffer :=
  pack_bits (map (fun r => bit_is_set m (Z.to_nat offset + r))
                 (seq 0 (Z.to_nat size))).

(** ** The string column *)

Record StringColumn : Type := mkStringColumn {
  base_children : list Column;
  base_mask : option Buffer;
  size : Z;
  offset : Z
}.

(** [StringColumn.__init__(mask, size, offset, children)]: the size passed on
    to the base class. *)
Definition init_size (size_arg : option Z) (offset_arg : Z)
  (children_arg : list Column) : Z :=
  match size_arg with
  | Some n => n
  | None =>
      let n :=
        match children_arg with
        | [] => 0
        | c0 :: _ => if col_size c0 =? 0 then 0 else col_size c0 - 1
        end in
      n - offset_arg
  end.

Definition StringColumn_init (mask : option Buffer) (size_arg : option Z)
  (offset_arg : Z) (children_arg : list Column) : StringColumn :=
  mkStringColumn children_arg mask (init_size size_arg offset_arg children_arg)
                 offset_arg.

(** Modelled from the spec:
    [build_column(data=None, dtype="str", mask=mask, children=children)],
    which is not part of this module; for a string dtype it calls the
    constructor with the default size and offset. *)
Definition build_string_column (mask : option Buffer) (children_arg : list Column)
  : StringColumn :=
  StringColumn_init mask None 0 children_arg.

(** [len(self)] *)
Definition len_ (c : StringColumn) : Z := size c.

(** Modelled from the spec: [self.nullable] of the base class: the column
    has a mask. *)
Definition nullable (c : StringColumn) : bool :=
  match base_mask c with Some _ => true | None => false end.

(** Modelled from the spec: [self.mask] of the base class: the base mask
    itself when the column starts at row 0, a realigned copy otherwise. *)
Definition mask (c : StringColumn) : option Buffer :=
  match base_mask c with
  | None => None
  | Some m => if offset c =? 0 then Some m
              else Some (copy_bitmask m (offset c) (size c))
  end.

(** Modelled from the spec: row [r] of a column with mask [m] is null when
    its bit is clear; a column without a mask has no nulls. *)
Definition mask_row_is_null (m : option Buffer) (r : nat) : bool :=
  match m with
  | None => false
  | Some b => negb (bit_is_set b r)
  end.

(** Row [r] of the column is null. *)
Definition row_is_null (c : StringColumn) (r : nat) : bool :=
  mask_row_is_null (mask c) r.

(** The number of null rows among the first [n]. *)
Definition count_nulls (m : option Buffer) (n : Z) : Z :=
  Z.of_nat (length (filter (mask_row_is_null m) (seq 0 (Z.to_nat n)))).

(** Modelled from the spec: [self.null_count] of the base class: the
    number of null rows of the column. *)
Definition null_count (c : StringColumn) : Z := count_nulls (mask c) (size c).

(** Modelled from the spec: [self.has_nulls] of the base class. *)
Definition has_nulls (c : StringColumn) : bool := negb (null_count c =? 0).

(** [StringColumn.children]: the logical [(offsets, chars)] pair. *)
Definition children (c : StringColumn) : result (list Column) :=
  match base_children c with
  | [] => Ok []
  | offsets_base :: rest =>
      if (offset c =? 0) && (col_size offsets_base =? size c + 1)
      then Ok (base_children c)
      else
        match rest with
        | [] => Raise IndexError
        | chars_base :: _ =>
            let offsets_column :=
              build_column (col_base_data offsets_base) (col_dtype offsets_base)
                           (col_base_mask offsets_base) (size c + 1) (offset c) in
            chars_offset <- element_indexing offsets_column 0 ;;
            let offsets_column := column_sub_scalar offsets_column (wrap32 chars_offset) in
            chars_size <- element_indexing offsets_column (size c) ;;
            let chars_column :=
              build_column (col_base_data chars_base) (col_dtype chars_base)
                           (col_base_mask chars_base) chars_size chars_offset in
            Ok [offsets_column; chars_column]
        end
  end.

(** [l[lo : hi]] *)
Definition slice (l : list Z) (lo hi : Z) : list Z :=
  firstn (Z.to_nat hi - Z.to_nat lo) (skipn (Z.to_nat lo) l).

(** The bytes of row [r] as an [(offsets, chars)] pair delimits them:
    [chars[offsets[r] : offsets[r + 1]]]. *)
Definition string_at (offsets chars : Column) (r : Z) : list Z :=
  slice (col_elements chars)
        (nth (Z.to_nat r) (col_elements offsets) 0)
        (nth (Z.to_nat (r + 1)) (col_elements offsets) 0).

(** The same through the whole base buffers, as the engine reads a column
    that carries an offset. *)
Definition base_string_at (offsets_base chars_base : Column) (r : Z) : list Z :=
  slice (col_base_data chars_base)
        (nth (Z.to_nat r) (col_base_data offsets_base) 0)
        (nth (Z.to_nat (r + 1)) (col_base_data offsets_base) 0).

(** ** Host strings and engine rows *)

(** Bytes as a host string, and back. *)
Definition string_of_bytes (bs : list Z) : string :=
  fold_right (fun b s => String (ascii_of_N (Z.to_N b)) s) EmptyString bs.

Fixpoint bytes_of_string (s : string) : list Z :=
  match s with
  | EmptyString => []
  | String a s' => Z.of_N (N_of_ascii a) :: bytes_of_string s'
  end.

(** The rows an engine object holds: [None] is a null row. *)
Definition rows : Type := list (option string).

(** [StringColumn.nvstrings]: the engine object built from the logical
    children and the mask ([nvstrings.from_offsets]); an empty column needs
    no children. *)
Definition nvstrings (c : StringColumn) : result rows :=
  if size c =? 0 then Ok []
  else
    ch <- children c ;;
    match ch with
    | offsets_column :: chars_column :: _ =>
        Ok (map (fun r =>
                   if nullable c && row_is_null c r then None
                   else Some (string_of_bytes
                                (string_at offsets_column chars_column (Z.of_nat r))))
                (seq 0 (Z.to_nat (size c))))
    | _ => Raise IndexError
    end.

(** ** The external engine

    The kernels the module calls but does not implement are the fields of
    this interface: the per-row length, the pattern matcher (containment and
    the length of a match at the head of a text), the host-side guess of a
    datetime format, and the per-row parsers of the casts, which give no
    value for a text they cannot interpret. *)
Class Engine : Type := {
  nvs_len : string -> Z;
  nvs_contains : string -> bool -> string -> bool;
  regex_match_at : string -> string -> option nat;
  guess_datetime_format : string -> option string;
  parse_timestamp : string -> string -> string -> option Z;
  parse_numeric : dtype -> string -> option Z
}.

(** ** Device work and host calls, recorded *)

Inductive event : Type :=
| EvDeviceArray (n : Z) (dt : dtype)
| EvKernel (name : string)
| EvGuessFormat (row : string).

Definition Dev (A : Type) : Type := (list event * result A)%type.

Definition dev_ret {A : Type} (a : A) : Dev A := ([], Ok a).

Definition dev_raise {A : Type} (e : exn) : Dev A := ([], Raise e).

Definition emit (ev : event) : Dev unit := ([ev], Ok tt).

Definition lift {A : Type} (r : result A) : Dev A := ([], r).

Definition dev_bind {A B : Type} (m : Dev A) (k : A -> Dev B) : Dev B :=
  match m with
  | (t, Ok a) => let (t', r) := k a in (t ++ t', r)
  | (t, Raise e) => (t, Raise e)
  end.

Notation "x <~ c ;; k" := (dev_bind c (fun x => k))
  (at level 61, c at next level, right associativity) : py_scope.

Definition trace_of {A : Type} (m : Dev A) : list event := fst m.

Definition outcome {A : Type} (m : Dev A) : result A := snd m.

(** [rmm.device_array(n, dtype)] filled by a kernel through its pointer:
    the array keeps its [n] elements whatever the kernel produced. *)
Definition kernel_fill (n : Z) (vals : list Z) : Buffer :=
  map (fun i => nth i vals 0) (seq 0 (Z.to_nat n)).

(** ** The accessor [StringMethods] *)

(** What the calls of [_return_or_inplace] into the owner of the column do.
    The owner classes are not part of this module: each call returns, or
    raises the exception the owner records for it.  The calls are
    [parent._mimic_inplace(new_col, inplace=...)],
    [parent._constructor_expanddim(table, index=parent.index)],
    [Series(new_col, index=parent.index, name=parent.name)] and
    [as_index(new_col, name=parent.index)], each with the reads of the
    attributes of the parent it needs. *)
Record owner : Type := mkOwner {
  mimic_inplace : bool -> option exn;
  constructor_expanddim : option exn;
  make_series : option exn;
  as_index : option exn
}.

(** The parent of an accessor: [None], or an object of one of the classes
    [_return_or_inplace] tells apart, with what its calls do. *)
Inductive parent : Type :=
| PNone
| PSeries (o : owner)
| PIndex (o : owner)
| PDataFrame (o : owner)
| PMultiIndex (o : owner)
| POther (o : owner).

(** An owner all of whose calls return. *)
Definition returning : owner := mkOwner (fun _ => None) None None None.

(** The owner behind a parent, when there is a parent. *)
Definition owner_of (p : parent) : option owner :=
  match p with
  | PNone => None
  | PSeries o | PIndex o | PDataFrame o | PMultiIndex o | POther o => Some o
  end.

(** The exceptions the calls into an owner can raise. *)
Definition owner_raises (o : owner) (e : exn) : Prop :=
  (exists inplace, mimic_inplace o inplace = Some e) \/
  constructor_expanddim o = Some e \/
  make_series o = Some e \/
  as_index o = Some e.

Record StringMethods : Type := mkStringMethods {
  _column : StringColumn;
  _parent : parent
}.

(** [StringColumn.str(parent=None)] *)
Definition str (c : StringColumn) : StringMethods := mkStringMethods c PNone.

(** The keyword arguments [_return_or_inplace] looks at. *)
Record kwargs : Type := mkKwargs {
  kw_inplace : bool;
  kw_expand : option bool
}.

Definition no_kwargs : kwargs := mkKwargs false None.

(** What [_return_or_inplace] hands back: the owner updated in place, an
    expanded frame, a Series, an Index, the bare column, or the copy made
    by another owner. *)
Inductive returned (A : Type) : Type :=
| RInplace (a : A)
| RExpanded (a : A)
| RSeries (a : A)
| RIndex (a : A)
| RBare (a : A)
| RMimic (a : A).

Arguments RInplace {A} a.
Arguments RExpanded {A} a.
Arguments RSeries {A} a.
Arguments RIndex {A} a.
Arguments RBare {A} a.
Arguments RMimic {A} a.

Definition payload {A : Type} (r : returned A) : A :=
  match r with
  | RInplace a | RExpanded a | RSeries a | RIndex a | RBare a | RMimic a => a
  end.

(** A call into the owner: it raises what the owner raises, and gives [r]
    when the owner returns. *)
Definition owner_call {A : Type} (raised : option exn) (r : returned A)
  : result (returned A) :=
  match raised with
  | Some e => Raise e
  | None => Ok r
  end.

(** [StringMethods._return_or_inplace(new_col, kwargs)]; an attribute of
    an absent parent raises [AttributeError]. *)
Definition _return_or_inplace {A : Type} (sm : StringMethods) (new_col : A)
  (kw : kwargs) : result (returned A) :=
  if kw_inplace kw then
    match _parent sm with
    | PNone => Raise AttributeError
    | PSeries o | PIndex o | PDataFrame o | PMultiIndex o | POther o =>
        owner_call (mimic_inplace o true) (RInplace new_col)
    end
  else
    let expand := match kw_expand kw with Some b => b | None => false end in
    match _parent sm with
    | PDataFrame o | PMultiIndex o =>
        owner_call (constructor_expanddim o) (RExpanded new_col)
    | PSeries o =>
        if expand then owner_call (constructor_expanddim o) (RExpanded new_col)
        else owner_call (make_series o) (RSeries new_col)
    | PIndex o =>
        if expand then owner_call (constructor_expanddim o) (RExpanded new_col)
        else owner_call (as_index o) (RIndex new_col)
    | PNone => if expand then Raise AttributeError else Ok (RBare new_col)
    | POther o =>
        if expand then owner_call (constructor_expanddim o) (RExpanded new_col)
        else owner_call (mimic_inplace o false) (RMimic new_col)
    end.

(** [kwargs.setdefault("expand", expand)] *)
Definition setdefault_expand (kw : kwargs) (expand : bool) : kwargs :=
  match kw_expand kw with
  | Some _ => kw
  | None => mkKwargs (kw_inplace kw) (Some expand)
  end.

(** The null placeholder a kernel leaves in a fixed-width output. *)
Definition row_value (f : string -> Z) (r : option string) : Z :=
  match r with Some s => f s | None => 0 end.

(** [StringMethods.len] *)
Definition len `{Engine} (sm : StringMethods) (kw : kwargs) : Dev (returned Column) :=
  _ <~ emit (EvDeviceArray (len_ (_column sm)) Int32) ;;
  nvs <~ lift (nvstrings (_column sm)) ;;
  _ <~ emit (EvKernel "len") ;;
  let out_dev_arr := kernel_fill (len_ (_column sm)) (map (row_value nvs_len) nvs) in
  let mask := if has_nulls (_column sm) then mask (_column sm) else None in
  lift (_return_or_inplace sm (build_column_of_buffer out_dev_arr Int32 mask) kw).

(** [StringMethods.contains(pat, case, flags, na, regex, kwargs)] *)
Definition contains `{Engine} (sm : StringMethods) (pat : string)
  (case : pyval) (flags : Z) (na : pyval) (regex : bool) (kw : kwargs)
  : Dev (returned Column) :=
  if negb (py_is_True case) then
    dev_raise (NotImplementedError "`case` parameter is not yet supported")
  else if negb (flags =? 0) then
    dev_raise (NotImplementedError "`flags` parameter is not yet supported")
  else if negb (py_is_np_nan na) then
    dev_raise (NotImplementedError "`na` parameter is not yet supported")
  else
    _ <~ emit (EvDeviceArray (len_ (_column sm)) Bool8) ;;
    nvs <~ lift (nvstrings (_column sm)) ;;
    _ <~ emit (EvKernel "contains") ;;
    let out_dev_arr :=
      kernel_fill (len_ (_column sm))
        (map (row_value (fun s => Z.b2z (nvs_contains pat regex s))) nvs) in
    let mask := if has_nulls (_column sm) then mask (_column sm) else None in
    lift (_return_or_inplace sm (build_column_of_buffer out_dev_arr Bool8 mask) kw).

(** ** Engine kernels that return string rows *)

(** A literal pattern matches at the head of a text when it is a prefix of
    it. *)
Definition literal_match_at (pat s : string) : option nat :=
  if String.prefix pat s then Some (String.length pat) else None.

(** The matcher of a pattern: the engine's for a regular expression, the
    prefix test for a literal. *)
Definition match_at `{Engine} (pat : string) (regex : bool) : string -> option nat :=
  if regex then regex_match_at pat else literal_match_at pat.

(** Modelled from the spec: the scan of a row by [nvstrings.replace], which
    is not part of this module.  A row is scanned from its first byte; up
    to [n] matches are replaced when [n > 0], every match when [n < 0]; a
    row without a match is copied.  The scan returns the new row and the
    positions of the matches it replaced. *)
Fixpoint replace_scan (m : string -> option nat) (repl : string) (skip : nat)
  (n : Z) (pos : nat) (s : string) {struct s} : string * list nat :=
  match s with
  | EmptyString => (EmptyString, [])
  | String ch s' =>
      match skip with
      | S k => replace_scan m repl k n (S pos) s'
      | O =>
          if n =? 0 then
            let (out, at_) := replace_scan m repl 0 n (S pos) s' in (String ch out, at_)
          else
            match m s with
            | Some (S k) =>
                let (out, at_) := replace_scan m repl k (n - 1) (S pos) s' in
                (String.append repl out, pos :: at_)
            | _ =>
                let (out, at_) := replace_scan m repl 0 n (S pos) s' in
                (String ch out, at_)
            end
      end
  end.

(** The new row. *)
Definition replace_row (m : string -> option nat) (repl : string) (n : Z)
  (s : string) : string :=
  fst (replace_scan m repl 0 n 0 s).

(** The positions in the row where a match was replaced. *)
Definition replaced_at (m : string -> option nat) (repl : string) (n : Z)
  (s : string) : list nat :=
  snd (replace_scan m repl 0 n 0 s).

(** The positions of the matches of a row, from its first byte on, a match
    starting where the previous one ended at the earliest. *)
Fixpoint match_positions (m : string -> option nat) (skip pos : nat) (s : string)
  {struct s} : list nat :=
  match s with
  | EmptyString => []
  | String ch s' =>
      match skip with
      | S k => match_positions m k (S pos) s'
      | O =>
          match m s with
          | Some (S k) => pos :: match_positions m k (S pos) s'
          | _ => match_positions m 0 (S pos) s'
          end
      end
  end.

(** Modelled from the spec: [nvstrings.replace(pat, repl, n, regex)], which
    is not part of this module; every non-null row is scanned, a null row
    stays null. *)
Definition nvstrings_replace `{Engine} (nvs : rows) (pat repl : string) (n : Z)
  (regex : bool) : rows :=
  map (option_map (replace_row (match_at pat regex) repl n)) nvs.

(** Modelled from the spec: the delimiter [nvstrings.split] works with; an
    absent or empty delimiter stands for a single space. *)
Definition effective_delimiter (delimiter : option string) : string :=
  match delimiter with
  | None => " "
  | Some EmptyString => " "
  | Some d => d
  end.

(** One more character at the head of the token in progress. *)
Definition cons_char (ch : ascii) (tokens : list string) : list string :=
  match tokens with
  | [] => [String ch EmptyString]
  | t :: ts => String ch t :: ts
  end.

(** Modelled from the spec: the scan of a row by [nvstrings.split], which is
    not part of this module.  The row is cut at the occurrences of the
    literal delimiter, from its first byte on: at the first [n] of them when
    [n > 0], at every one when [n < 0]. *)
Fixpoint split_scan (delim : string) (skip : nat) (n : Z) (s : string)
  {struct s} : list string :=
  match s with
  | EmptyString => [EmptyString]
  | String ch s' =>
      match skip with
      | S k => split_scan delim k n s'
      | O =>
          if (n =? 0) || negb (String.prefix delim s)
          then cons_char ch (split_scan delim 0 n s')
          else EmptyString :: split_scan delim (String.length delim - 1) (n - 1) s'
      end
  end.

(** The tokens of a row. *)
Definition split_row (delimiter : option string) (n : Z) (s : string) : list string :=
  split_scan (effective_delimiter delimiter) 0 n s.

(** The largest number of tokens of a non-null row. *)
Definition table_width (tokens : list (option (list string))) : nat :=
  fold_right (fun r w => match r with
                         | Some ts => Nat.max (List.length ts) w
                         | None => w
                         end) 0%nat tokens.

(** Modelled from the spec: [nvstrings.split(delimiter, n)], which is not
    part of this module.  The result is a table with one column per token
    position, as wide as the longest row; short rows and null rows are
    padded with nulls. *)
Definition nvstrings_split (nvs : rows) (delimiter : option string) (n : Z)
  : list rows :=
  let tokens := map (option_map (split_row delimiter n)) nvs in
  map (fun j => map (fun r => match r with
                              | Some ts => nth_error ts j
                              | None => None
                              end) tokens)
      (seq 0 (table_width tokens)).

(** A null row replaced by [na_rep], when there is one. *)
Definition fill_na (na_rep : option string) (r : option string) : option string :=
  match r with Some s => Some s | None => na_rep end.

(** The non-null elements, in order. *)
Fixpoint keep_some {A : Type} (l : list (option A)) : list A :=
  match l with
  | [] => []
  | Some a :: l' => a :: keep_some l'
  | None :: l' => keep_some l'
  end.

(** Two rows joined with the separator; a null on either side gives a
    null. *)
Definition cat_rows (sep : string) (a b : option string) : option string :=
  match a, b with
  | Some x, Some y => Some (String.append x (String.append sep y))
  | _, _ => None
  end.

(** Modelled from the spec: [nvstrings.cat(others, sep, na_rep)], which is
    not part of this module.  Without [others] the rows are joined into one
    string, nulls dropped or replaced by [na_rep]; with [others] the rows
    are joined pairwise with [sep] between them, a null on either side
    giving a null unless [na_rep] replaces it; the row counts must agree. *)
Definition nvstrings_cat (nvs : rows) (others : option rows) (sep na_rep : option string)
  : result rows :=
  let sep' := match sep with Some s => s | None => EmptyString end in
  match others with
  | None => Ok [Some (String.concat sep' (keep_some (map (fill_na na_rep) nvs)))]
  | Some o =>
      if (List.length nvs =? List.length o)%nat
      then Ok (map (fun p => cat_rows sep' (fill_na na_rep (fst p)) (fill_na na_rep (snd p)))
                   (combine nvs o))
      else Raise (EngineError "ShapeMismatch")
  end.

(** [StringMethods.replace(pat, repl, n, case, flags, regex, kwargs)] *)
Definition replace `{Engine} (sm : StringMethods) (pat repl : string) (n : Z)
  (case : pyval) (flags : Z) (regex : bool) (kw : kwargs) : Dev (returned rows) :=
  if negb (py_is_None case) then
    dev_raise (NotImplementedError "`case` parameter is not yet supported")
  else if negb (flags =? 0) then
    dev_raise (NotImplementedError "`flags` parameter is not yet supported")
  else
    let n := if n =? 0 then -1 else n in
    nvs <~ lift (nvstrings (_column sm)) ;;
    _ <~ emit (EvKernel "replace") ;;
    lift (_return_or_inplace sm (nvstrings_replace nvs pat repl n regex) kw).

(** [StringMethods.split(pat, n, expand, kwargs)] *)
Definition split (sm : StringMethods) (pat : option string) (n : Z)
  (expand : pyval) (kw : kwargs) : Dev (returned (list rows)) :=
  if negb (py_is_True expand) then
    dev_raise (NotImplementedError "`expand` parameter is not supported")
  else
    let n := if n =? 0 then -1 else n in
    let kw := setdefault_expand kw true in
    nvs <~ lift (nvstrings (_column sm)) ;;
    _ <~ emit (EvKernel "split") ;;
    lift (_return_or_inplace sm (nvstrings_split nvs pat n) kw).

(** What [cat] returns: the wrapped rows, or the single joined string. *)
Inductive cat_out : Type :=
| CatReturned (r : returned rows)
| CatScalar (s : option string).

(** [StringMethods.cat(others, sep, na_rep, kwargs)] for [others] absent or
    a [StringColumn], the two cases this module's own callers use. *)
Definition cat (sm : StringMethods) (others : option StringColumn)
  (sep na_rep : option string) (kw : kwargs) : Dev cat_out :=
  others_nvs <~ lift (match others with
                      | Some oc => o <- nvstrings oc ;; Ok (Some o)
                      | None => Ok None
                      end) ;;
  nvs <~ lift (nvstrings (_column sm)) ;;
  _ <~ emit (EvKernel "cat") ;;
  data <~ lift (nvstrings_cat nvs others_nvs sep na_rep) ;;
  out <~ lift (_return_or_inplace sm data kw) ;;
  match out with
  | RInplace _ => dev_raise (TypeError "object of type 'NoneType' has no len()")
  | _ =>
      match payload out, others with
      | [r], None => dev_ret (CatScalar r)
      | _, _ => dev_ret (CatReturned out)
      end
  end.

(** ** Casts *)

(** The conversion functions of [cudf._libxx.string_casting] that the table
    [_str_to_numeric_typecast_functions] names. *)
Inductive castfn : Type :=
| stoi8 | stoi16 | stoi | stol | stof | stod | to_booleans | timestamp2int.

(** [_str_to_numeric_typecast_functions[dtype]]; the entry for
    [datetime64[D]] is commented out in the source. *)
Definition _str_to_numeric_typecast_functions (dt : dtype) : result castfn :=
  match dt with
  | Int8 => Ok stoi8
  | Int16 => Ok stoi16
  | Int32 => Ok stoi
  | Int64 => Ok stol
  | Float32 => Ok stof
  | Float64 => Ok stod
  | Bool8 => Ok to_booleans
  | Datetime64 u =>
      if String.eqb u "s" || String.eqb u "ms" || String.eqb u "us" || String.eqb u "ns"
      then Ok timestamp2int else Raise KeyError
  | Object => Raise KeyError
  end.

(** The time unit of a datetime dtype. *)
Definition datetime_unit (dt : dtype) : string :=
  match dt with Datetime64 u => u | _ => EmptyString end.

(** Modelled from the spec: the values a conversion gives for the rows, a
    null row keeping the placeholder 0; there are none as soon as one row
    that is not null cannot be interpreted. *)
Fixpoint parse_rows (f : string -> option Z) (nvs : rows) : option (list Z) :=
  match nvs with
  | [] => Some []
  | None :: rest => option_map (cons 0) (parse_rows f rest)
  | Some s :: rest =>
      match f s, parse_rows f rest with
      | Some v, Some vs => Some (v :: vs)
      | _, _ => None
      end
  end.

(** Modelled from the spec: the conversion kernels of
    [cudf._libxx.string_casting], which are not part of this module.  One
    kernel launch converts every row with the same arguments; a row that
    cannot be interpreted fails the whole conversion with [ParseFailure]
    and no column is returned, and so does a datetime conversion of a
    non-empty column without a format.  The keyword [format] is [None] when
    it was not passed, [Some None] when it was passed as [None]. *)
Definition run_cast `{Engine} (fn : castfn) (c : StringColumn)
  (format : option (option string)) (dt : dtype) : Dev Column :=
  nvs <~ lift (nvstrings c) ;;
  let out_mask := if has_nulls c then mask c else None in
  match fn with
  | timestamp2int =>
      match nvs, format with
      | [], _ => dev_ret (build_column_of_buffer [] dt None)
      | _ :: _, Some (Some fmt) =>
          _ <~ emit (EvKernel "timestamp2int") ;;
          match parse_rows (parse_timestamp fmt (datetime_unit dt)) nvs with
          | Some vals => dev_ret (build_column_of_buffer vals dt out_mask)
          | None => dev_raise (EngineError "ParseFailure")
          end
      | _ :: _, _ => dev_raise (EngineError "ParseFailure")
      end
  | _ =>
      _ <~ emit (EvKernel "string_to_numeric") ;;
      match parse_rows (parse_numeric dt) nvs with
      | Some vals => dev_ret (build_column_of_buffer vals dt out_mask)
      | None => dev_raise (EngineError "ParseFailure")
      end
  end.

(** [np.dtype(dtype).type is np.datetime64] *)
Definition is_datetime (dt : dtype) : bool :=
  match dt with Datetime64 _ => true | _ => false end.

(** [StringColumn.as_numerical_column(dtype, kwargs)], with the keyword
    [format] of [kwargs]. *)
Definition as_numerical_column `{Engine} (c : StringColumn) (dt : dtype)
  (format : option (option string)) : Dev Column :=
  format <~
    (if is_datetime dt then
       match format with
       | None =>
           if len_ c >? 0 then
             nvs <~ lift (nvstrings c) ;;
             match keep_some nvs with
             | [] => dev_raise IndexError
             | first :: _ =>
                 _ <~ emit (EvGuessFormat first) ;;
                 dev_ret (Some (guess_datetime_format first))
             end
           else dev_ret None
       | Some f => dev_ret (Some f)
       end
     else dev_ret format) ;;
  fn <~ lift (_str_to_numeric_typecast_functions dt) ;;
  run_cast fn c format dt.

(** [StringColumn.as_datetime_column(dtype, kwargs)] *)
Definition as_datetime_column `{Engine} (c : StringColumn) (dt : dtype)
  (format : option (option string)) : Dev Column :=
  as_numerical_column c dt format.

(** ** Serialisation *)

(** The header of a child column and the header of a string column. *)
Record ColumnHeader : Type := mkColumnHeader {
  ch_dtype : dtype;
  ch_frame_count : Z
}.

Record Header : Type := mkHeader {
  h_null_count : Z;
  h_subheaders : list ColumnHeader;
  h_frame_count : Z
}.

(** Modelled from the spec: the [serialize] of a child column, which is not
    part of this module.  A child gives a header and its data frame,
    followed by its mask frame when it has one. *)
Definition column_serialize (c : Column) : ColumnHeader * list Buffer :=
  let frames := col_elements c :: match col_base_mask c with
                                  | Some m => [m]
                                  | None => []
                                  end in
  (mkColumnHeader (col_dtype c) (Z.of_nat (List.length frames)), frames).

(** Modelled from the spec: the [deserialize] of a child column, which is
    not part of this module.  The column is rebuilt over the data frame,
    with the second frame as its mask when the header counts two. *)
Definition column_deserialize (h : ColumnHeader) (frames : list Buffer)
  : result Column :=
  match frames with
  | [] => Raise IndexError
  | data :: more =>
      if ch_frame_count h >? 1 then
        match more with
        | m :: _ => Ok (build_column_of_buffer data (ch_dtype h) (Some m))
        | [] => Raise IndexError
        end
      else Ok (build_column_of_buffer data (ch_dtype h) None)
  end.

(** The loop of [serialize] over the children. *)
Fixpoint serialize_children (items : list Column) : list ColumnHeader * list Buffer :=
  match items with
  | [] => ([], [])
  | item :: items' =>
      let (sheader, sframes) := column_serialize item in
      let (sub_headers, frames) := serialize_children items' in
      (sheader :: sub_headers, sframes ++ frames)
  end.

(** [StringColumn.serialize()] *)
Definition serialize (c : StringColumn) : result (Header * list Buffer) :=
  ch <- children c ;;
  let (sub_headers, frames) := serialize_children ch in
  let frames := if null_count c >? 0
                then frames ++ match mask c with Some m => [m] | None => [] end
                else frames in
  Ok (mkHeader (null_count c) sub_headers (Z.of_nat (List.length frames)), frames).

(** The loop of [deserialize] over [zip(subheaders, buffers[:2])]. *)
Fixpoint deserialize_children (hb : list (ColumnHeader * Buffer)) : result (list Column) :=
  match hb with
  | [] => Ok []
  | (h, b) :: hb' =>
      child <- column_deserialize h [b] ;;
      rest <- deserialize_children hb' ;;
      Ok (child :: rest)
  end.

(** [StringColumn.deserialize(header, frames)] *)
Definition deserialize (header : Header) (frames : list Buffer) : result StringColumn :=
  let buffers := frames in
  nbuf <- (if h_null_count header >? 0 then
             match nth_error buffers 2 with
             | Some b => Ok (Some b)
             | None => Raise IndexError
             end
           else Ok None) ;;
  children <- deserialize_children (combine (h_subheaders header) (firstn 2 buffers)) ;;
  Ok (build_string_column nbuf children).

(** ** Membership and operators *)

(** Modelled from the spec: [True in col] for the boolean column that
    [contains] returns; a null row is not a member. *)
Definition column_contains_true (col : Column) : bool :=
  existsb (fun r => negb (mask_row_is_null (col_base_mask col) r)
                    && (nth r (col_elements col) 0 =? 1))
          (seq 0 (Z.to_nat (col_size col))).

(** [StringColumn.__contains__(item)] *)
Definition __contains__ `{Engine} (c : StringColumn) (item : string) : Dev bool :=
  found <~ contains (str c) (String.append "^" (String.append item "$"))
                    (PyBool true) 0 NpNan true no_kwargs ;;
  dev_ret (column_contains_true (payload found)).

(** An operand of a binary operator: a string column, or an object of
    another type, known by the name of its type and by what
    [obj.str().cat(others=col)] does. *)
Inductive operand : Type :=
| OStringColumn (c : StringColumn)
| OForeign (type_name : string) (str_cat : StringColumn -> Dev cat_out).

(** [type(o)], as it prints. *)
Definition type_of (o : operand) : string :=
  match o with
  | OStringColumn _ => "<class 'cudf.core.column.string.StringColumn'>"
  | OForeign t _ => t
  end.

(** A Python scalar (an int, a str, [None]) as an operand: it has no [str]
    attribute. *)
Definition scalar_operand (type_name : string) : operand :=
  OForeign type_name (fun _ => dev_raise AttributeError).

(** A hexadecimal digit, in lower case. *)
Definition hex_digit (n : nat) : ascii :=
  nth n (list_ascii_of_string "0123456789abcdef") "0"%char.

(** [str.isprintable] of a character below 256: the ASCII characters from
    the space to the tilde, and the Latin-1 characters after the no-break
    space other than the soft hyphen. *)
Definition py_printable (n : nat) : bool :=
  ((32 <=? n) && (n <? 127) || (161 <=? n) && negb (n =? 173))%nat.

(** What [repr] writes for one character of a [str], inside the quote
    [quote]. *)
Definition repr_char (quote ch : ascii) : string :=
  let n := nat_of_ascii ch in
  if (Ascii.eqb ch quote || Ascii.eqb ch "\")%bool then String "\" (String ch EmptyString)
  else if (n =? 9)%nat then "\t"
  else if (n =? 10)%nat then "\n"
  else if (n =? 13)%nat then "\r"
  else if py_printable n then String ch EmptyString
  else String "\" (String "x" (String (hex_digit (n / 16))
                                 (String (hex_digit (n mod 16)) EmptyString))).

(** [ch in s] *)
Definition has_char (ch : ascii) (s : string) : bool :=
  existsb (Ascii.eqb ch) (list_ascii_of_string s).

(** [repr(s)] of a [str] whose characters are below 256: in single quotes,
    or in double quotes when the text has a single quote and no double
    quote. *)
Definition py_repr (s : string) : string :=
  let double := ascii_of_nat 34 in
  let quote := if (has_char "'" s && negb (has_char double s))%bool
               then double else "'"%char in
  String quote
    (String.append (String.concat EmptyString
                      (map (repr_char quote) (list_ascii_of_string s)))
                   (String quote EmptyString)).

(** The message of the [TypeError]:
    ["{!r} operator not supported between {} and {}"] filled in. *)
Definition unsupported_operator (binop : string) (self_type rhs_type : string) : string :=
  String.append (py_repr binop)
    (String.append " operator not supported between "
       (String.append self_type (String.append " and " rhs_type))).

(** [StringColumn.binary_operator(binop, rhs, reflect)] *)
Definition binary_operator (self : StringColumn) (binop : string) (rhs : operand)
  (reflect : bool) : Dev cat_out :=
  let lhs := OStringColumn self in
  let (lhs, rhs) := if reflect then (rhs, lhs) else (lhs, rhs) in
  match rhs with
  | OStringColumn rc =>
      if String.eqb binop "add" then
        match lhs with
        | OStringColumn lc => cat (str lc) (Some rc) None None no_kwargs
        | OForeign _ str_cat => str_cat rc
        end
      else dev_raise (TypeError (unsupported_operator binop
                                   (type_of (OStringColumn self)) (type_of rhs)))
  | OForeign _ _ =>
      dev_raise (TypeError (unsupported_operator binop
                              (type_of (OStringColumn self)) (type_of rhs)))
  end.

(** The pair the windowing path of [children] computes, as functions of
    the column and its base children. *)
Definition derived_offsets (c : StringColumn) (offsets_base : Column) : Column :=
  column_sub_scalar
    (build_column (col_base_data offsets_base) (col_dtype offsets_base)
                  (col_base_mask offsets_base) (size c + 1) (offset c))
    (nth (Z.to_nat (offset c)) (col_base_data offsets_base) 0).

Definition derived_chars (c : StringColumn) (offsets_base chars_base : Column) : Column :=
  build_column (col_base_data chars_base) (col_dtype chars_base)
               (col_base_mask chars_base)
               (nth (Z.to_nat (offset c + size c)) (col_base_data offsets_base) 0
                - nth (Z.to_nat (offset c)) (col_base_data offsets_base) 0)
               (nth (Z.to_nat (offset c)) (col_base_data offsets_base) 0).

(** ** The data model: well-formed string columns

    A child of a string column is an unsliced, non-nullable column over its
    whole buffer.  The base offsets are non-negative, non-decreasing and
    stay within the chars buffer; the window [(offset, size)] lies within
    the base rows; a column without children has no rows. *)

Definition unsliced (c : Column) : Prop :=
  col_offset c = 0 /\
  col_size c = Z.of_nat (List.length (col_base_data c)) /\
  col_base_mask c = None.

Fixpoint offsets_within (lo : Z) (l : list Z) (hi : Z) : bool :=
  match l with
  | [] => lo <=? hi
  | x :: l' => (lo <=? x) && offsets_within x l' hi
  end.

Definition well_formed (c : StringColumn) : Prop :=
  0 <= size c /\ 0 <= offset c /\
  match base_children c with
  | [] => size c = 0
  | [offsets_base; chars_base] =>
      unsliced offsets_base /\ unsliced chars_base /\
      offset c + size c + 1 <= col_size offsets_base /\
      offsets_within 0 (col_base_data offsets_base)
                     (Z.of_nat (List.length (col_base_data chars_base))) = true /\
      Z.of_nat (List.length (col_base_data chars_base)) < 2147483648
  | _ => False
  end.

(** The base children are canonical when the first base offset is 0 and the
    last one is the number of bytes in the chars buffer (the comment in
    [__init__]: the last element of offsets is the number of bytes in the
    data buffer). *)
Definition canonical_base (c : StringColumn) : Prop :=
  match base_children c with
  | offsets_base :: chars_base :: _ =>
      nth 0 (col_base_data offsets_base) 0 = 0 /\
      last (col_base_data offsets_base) 0
      = Z.of_nat (List.length (col_base_data chars_base))
  | _ => True
  end.

(** The condition of the fast path of [children]. *)
Definition aligned (c : StringColumn) : bool :=
  match base_children c with
  | offsets_base :: _ => (offset c =? 0) && (col_size offsets_base =? size c + 1)
  | [] => false
  end.

(** ** A reference engine *)

(** Modelled from the spec: the pattern engine, which is not part of this
    module, on the fragment of patterns made of literal characters, [.]
    for any character and a trailing [$].  The result is the length of the
    match of the pattern at the head of the text. *)
Fixpoint regex_here (pat s : string) {struct pat} : option nat :=
  match pat with
  | EmptyString => Some 0%nat
  | String p pat' =>
      if Ascii.eqb p "$" && match pat' with EmptyString => true | _ => false end
      then match s with EmptyString => Some 0%nat | _ => None end
      else
        match s with
        | EmptyString => None
        | String ch s' =>
            if Ascii.eqb p "." || Ascii.eqb p ch
            then option_map S (regex_here pat' s')
            else None
        end
  end.

(** A match of the pattern somewhere in the text. *)
Fixpoint regex_search (pat s : string) {struct s} : bool :=
  match regex_here pat s with
  | Some _ => true
  | None => match s with
            | EmptyString => false
            | String _ s' => regex_search pat s'
            end
  end.

(** An occurrence of the literal pattern somewhere in the text. *)
Fixpoint literal_search (pat s : string) {struct s} : bool :=
  String.prefix pat s ||
  match s with
  | EmptyString => false
  | String _ s' => literal_search pat s'
  end.

(** Modelled from the spec: the containment kernel of the engine; a
    leading [^] anchors the pattern at the start of the row. *)
Definition reference_contains (pat : string) (regex : bool) (s : string) : bool :=
  if regex then
    match pat with
    | String "^" pat' => match regex_here pat' s with Some _ => true | None => false end
    | _ => regex_search pat s
    end
  else literal_search pat s.

(** A stand-in for the host-side guess of a datetime format: a row that
    starts with a digit is taken for an ISO date. *)
Definition reference_guess (row : string) : option string :=
  match row with
  | String d _ => if (Ascii.leb "0" d && Ascii.leb d "9")%bool
                  then Some "%Y-%m-%d" else None
  | EmptyString => None
  end.

(** A stand-in for the parsers: a row that starts with a digit is
    interpreted, as the number of its bytes; any other row is not. *)
Definition reference_parse (row : string) : option Z :=
  match row with
  | String d _ => if (Ascii.leb "0" d && Ascii.leb d "9")%bool
                  then Some (Z.of_nat (String.length row)) else None
  | EmptyString => None
  end.

(** The engine the examples run on; its lengths count bytes. *)
#[global] Instance reference_engine : Engine := {|
  nvs_len := fun s => Z.of_nat (String.length s);
  nvs_contains := reference_contains;
  regex_match_at := regex_here;
  guess_datetime_format := reference_guess;
  parse_timestamp := fun _ _ => reference_parse;
  parse_numeric := fun _ => reference_parse
|}.

(** ** Example columns *)

(** The bytes of "applepie". *)
Definition example_chars : Buffer := [97; 112; 112; 108; 101; 112; 105; 101].

(** Three base rows, "apple", a null and "pie": the mask byte 5 has the
    bits of rows 0 and 2 set. *)
Definition example_children : list Column :=
  [build_column_of_buffer [0; 5; 5; 8] Int32 None;
   build_column_of_buffer example_chars Int8 None].

Definition example_column : StringColumn :=
  mkStringColumn example_children (Some [5]) 3 0.

(** The rows 1 and 2 of the same base: a slice. *)
Definition example_slice : StringColumn :=
  mkStringColumn example_children (Some [5]) 2 1.

(** A single non-null row "abc". *)
Definition abc_column : StringColumn :=
  mkStringColumn [build_column_of_buffer [0; 3] Int32 None;
                  build_column_of_buffer [97; 98; 99] Int8 None] None 1 0.

(** A single non-null row "aaaa". *)
Definition aaaa_column : StringColumn :=
  mkStringColumn [build_column_of_buffer [0; 4] Int32 None;
                  build_column_of_buffer [97; 97; 97; 97] Int8 None] None 1 0.

(** ** Predicates and examples used by the properties *)

(** The output [out] has the rows of [c], carries the mask of [c] itself
    when [c] has nulls and no mask otherwise, and is null exactly where
    [c] is. *)
Definition propagates_nulls (c : StringColumn) (out : Column) : Prop :=
  col_size out = size c /\
  col_base_mask out = (if has_nulls c then mask c else None) /\
  col_offset out = 0 /\
  forall r : nat, (r < Z.to_nat (size c))%nat ->
    mask_row_is_null (col_base_mask out) r = row_is_null c r.

(** The elements of the logical children. *)
Definition children_elements (c : StringColumn) : result (list (list Z)) :=
  ch <- children c ;; Ok (map col_elements ch).

(** The column [deserialize] builds from the frames of a column with
    children [offsets] and [chars]. *)
Definition rebuilt (c : StringColumn) (offsets chars : Column) : StringColumn :=
  build_string_column
    (if null_count c >? 0 then mask c else None)
    [build_column_of_buffer (col_elements offsets) (col_dtype offsets) None;
     build_column_of_buffer (col_elements chars) (col_dtype chars) None].

(** An all-null column of two rows and a column without rows. *)
Definition all_null_column : StringColumn :=
  mkStringColumn [build_column_of_buffer [0; 0; 0] Int32 None;
                  build_column_of_buffer [] Int8 None] (Some [0]) 2 0.

Definition zero_row_column : StringColumn := mkStringColumn [] None 0 0.

(** Two rows, "2020-01-02" and "2021-03-04". *)
Definition date_column : StringColumn :=
  mkStringColumn
    [build_column_of_buffer [0; 10; 20] Int32 None;
     build_column_of_buffer (bytes_of_string "2020-01-022021-03-04") Int8 None]
    None 2 0.


(** Two rows, "ple" and "pie", over the bytes of "applepie": the base
    offsets start at 2, and the window is the whole of them. *)
Definition shifted_column : StringColumn :=
  mkStringColumn
    [build_column_of_buffer [2; 5; 8] Int32 None;
     build_column_of_buffer example_chars Int8 None]
    None 2 0.

(** Two rows, "app" and "le", over the bytes of "applepie": the base
    offsets end at 5, before the end of the bytes. *)
Definition short_column : StringColumn :=
  mkStringColumn
    [build_column_of_buffer [0; 3; 5] Int32 None;
     build_column_of_buffer example_chars Int8 None]
    None 2 0.


(** [isinstance(o, StringColumn)] *)
Definition is_string_column (o : operand) : bool :=
  match o with OStringColumn _ => true | OForeign _ _ => false end.

(** The rows [cat] returns for two columns of engine rows [a] and [b]. *)
Definition concatenated (a b : rows) : rows :=
  map (fun p => cat_rows EmptyString (fst p) (snd p)) (combine a b).

(** An item is plain when none of its characters is special in a pattern. *)
Definition is_meta (ch : ascii) : bool :=
  existsb (Ascii.eqb ch)
    ["."; "^"; "$"; "*"; "+"; "?"; "("; ")"; "["; "]"; "{"; "}"; "|"; "\"]%char.

Fixpoint plain (item : string) : bool :=
  match item with
  | EmptyString => true
  | String ch item' => negb (is_meta ch) && plain item'
  end.

(** ** The remaining accessor methods *)

(** The kernels of the engine object and of [cudf._libxx.strings] that the
    remaining accessor methods call but this module does not implement. *)
Class StringKernels : Type := {
  nvs_lower : rows -> rows;
  nvs_extract : string -> rows -> list rows;
  cpp_is_decimal : StringColumn -> result Column;
  cpp_is_alnum : StringColumn -> result Column;
  cpp_is_alpha : StringColumn -> result Column;
  cpp_is_digit : StringColumn -> result Column;
  cpp_is_numeric : StringColumn -> result Column;
  cpp_slice_replace : StringColumn -> Z -> Z -> string -> result StringColumn;
  cpp_string_insert : StringColumn -> Z -> string -> result StringColumn;
  cpp_wrap : StringColumn -> Z -> result StringColumn;
  utf8_decode : list Z -> result string
}.

(** [StringMethods.join(sep)] *)
Definition join (sm : StringMethods) (sep : string) : Dev (returned rows) :=
  dev_raise (NotImplementedError "Columns of arrays / lists are not yet supported").

(** What [extract] hands to [_return_or_inplace]: the single column of a
    single capture group, or the table of the columns of the groups. *)
Inductive extracted : Type :=
| OneGroup (column : rows)
| Groups (table : list rows).

(** [StringMethods.extract(pat, flags, expand, kwargs)]; [expand] is [True]
    or [False]. *)
Definition extract `{StringKernels} (sm : StringMethods) (pat : string)
  (flags : Z) (expand : bool) (kw : kwargs) : Dev (returned extracted) :=
  if negb (flags =? 0) then
    dev_raise (NotImplementedError "`flags` parameter is not yet supported")
  else
    nvs <~ lift (nvstrings (_column sm)) ;;
    _ <~ emit (EvKernel "extract") ;;
    let out := nvs_extract pat nvs in
    match out, expand with
    | [column], false => lift (_return_or_inplace sm (OneGroup column) kw)
    | _, _ => lift (_return_or_inplace sm (Groups out) (setdefault_expand kw expand))
    end.

(** [StringMethods.lower(kwargs)] *)
Definition lower `{StringKernels} (sm : StringMethods) (kw : kwargs)
  : Dev (returned rows) :=
  nvs <~ lift (nvstrings (_column sm)) ;;
  _ <~ emit (EvKernel "lower") ;;
  lift (_return_or_inplace sm (nvs_lower nvs) kw).

(** [StringMethods.isdecimal(kwargs)]: the keyword arguments are not passed
    on to [_return_or_inplace]. *)
Definition isdecimal `{StringKernels} (sm : StringMethods) (kw : kwargs)
  : result (returned Column) :=
  out <- cpp_is_decimal (_column sm) ;; _return_or_inplace sm out no_kwargs.

(** [StringMethods.isalnum(kwargs)] *)
Definition isalnum `{StringKernels} (sm : StringMethods) (kw : kwargs)
  : result (returned Column) :=
  out <- cpp_is_alnum (_column sm) ;; _return_or_inplace sm out no_kwargs.

(** [StringMethods.isalpha(kwargs)] *)
Definition isalpha `{StringKernels} (sm : StringMethods) (kw : kwargs)
  : result (returned Column) :=
  out <- cpp_is_alpha (_column sm) ;; _return_or_inplace sm out no_kwargs.

(** [StringMethods.isdigit(kwargs)] *)
Definition isdigit `{StringKernels} (sm : StringMethods) (kw : kwargs)
  : result (returned Column) :=
  out <- cpp_is_digit (_column sm) ;; _return_or_inplace sm out no_kwargs.

(** [StringMethods.isnumeric(kwargs)] *)
Definition isnumeric `{StringKernels} (sm : StringMethods) (kw : kwargs)
  : result (returned Column) :=
  out <- cpp_is_numeric (_column sm) ;; _return_or_inplace sm out no_kwargs.

(** [StringMethods.slice_replace(start, stop, repl, kwargs)]; an argument
    that is [None] is absent. *)
Definition slice_replace `{StringKernels} (sm : StringMethods)
  (start stop : option Z) (repl : option string) (kw : kwargs)
  : result (returned StringColumn) :=
  let start := match start with None => 0 | Some z => z end in
  let stop := match stop with None => -1 | Some z => z end in
  let repl := match repl with None => EmptyString | Some s => s end in
  out <- cpp_slice_replace (_column sm) start stop repl ;;
  _return_or_inplace sm out kw.

(** [StringMethods.insert(start, repl, kwargs)] *)
Definition insert `{StringKernels} (sm : StringMethods) (start : Z)
  (repl : option string) (kw : kwargs) : result (returned StringColumn) :=
  let repl := match repl with None => EmptyString | Some s => s end in
  out <- cpp_string_insert (_column sm) start repl ;;
  _return_or_inplace sm out kw.

(** *** [wrap] *)

(** Python truthiness, [bool(v)]. *)
Definition py_truthy (v : pyval) : bool :=
  match v with
  | PyNone => false
  | PyBool b => b
  | PyInt z => negb (z =? 0)
  | PyStr s => negb (String.eqb s EmptyString)
  | NpNan => true
  | PyFloatNan => true
  end.

(** [type(v).__name__] *)
Definition type_name (v : pyval) : string :=
  match v with
  | PyNone => "NoneType"
  | PyBool _ => "bool"
  | PyInt _ => "int"
  | PyStr _ => "str"
  | NpNan => "float"
  | PyFloatNan => "float"
  end.

(** [pd.api.types.is_integer(v)], with the integer when it is one: a
    boolean is not an integer. *)
Definition py_integer (v : pyval) : option Z :=
  match v with PyInt z => Some z | _ => None end.

(** The keyword arguments [wrap] looks at, each absent or given, and those
    of [_return_or_inplace]. *)
Record wrap_kwargs : Type := mkWrapKwargs {
  kw_expand_tabs : option pyval;
  kw_replace_whitespace : option pyval;
  kw_drop_whitespace : option pyval;
  kw_break_long_words : option pyval;
  kw_break_on_hyphens : option pyval;
  kw_rest : kwargs
}.

(** [kwargs.get(key, default)] *)
Definition kw_get (v : option pyval) (default : pyval) : pyval :=
  match v with Some x => x | None => default end.

(** What [wrap] does besides returning: warnings, and the launch of the
    kernel. *)
Inductive wrap_event : Type :=
| Warned (msg : string)
| WrapLaunched.

Definition Wrap (A : Type) : Type := (list wrap_event * result A)%type.

(** [StringMethods.wrap(width, kwargs)] *)
Definition wrap `{StringKernels} (sm : StringMethods) (width : pyval)
  (kw : wrap_kwargs) : Wrap (returned StringColumn) :=
  match py_integer width with
  | None =>
      ([], Raise (TypeError (String.append "width must be of integer type, not "
                                           (type_name width))))
  | Some w =>
      let expand_tabs := kw_get (kw_expand_tabs kw) PyNone in
      if py_is_True expand_tabs then
        ([], Raise (NotImplementedError "`expand_tabs=True` is not supported"))
      else
        let t1 := if py_is_None expand_tabs
                  then [Warned "wrap current implementation defaults to `expand_tabs`=False"]
                  else [] in
        let replace_whitespace := kw_get (kw_replace_whitespace kw) (PyBool true) in
        if negb (py_truthy replace_whitespace) then
          (t1, Raise (NotImplementedError "`replace_whitespace=False` is not supported"))
        else
          let drop_whitespace := kw_get (kw_drop_whitespace kw) (PyBool true) in
          if negb (py_truthy drop_whitespace) then
            (t1, Raise (NotImplementedError "`drop_whitespace=False` is not supported"))
          else
            let break_long_words := kw_get (kw_break_long_words kw) PyNone in
            if py_is_True break_long_words then
              (t1, Raise (NotImplementedError "`break_long_words=True` is not supported"))
            else
              let t2 := if py_is_None break_long_words
                        then [Warned "wrap current implementation defaults to                     `break_long_words`=False"]
                        else [] in
              let break_on_hyphens := kw_get (kw_break_on_hyphens kw) PyNone in
              if py_is_True break_long_words then
                (t1 ++ t2,
                 Raise (NotImplementedError "`break_on_hyphens=True` is not supported"))
              else
                let t3 := if py_is_None break_on_hyphens
                          then [Warned "wrap current implementation defaults to                     `break_on_hyphens`=False"]
                          else [] in
                (t1 ++ t2 ++ t3 ++ [WrapLaunched],
                 out <- cpp_wrap (_column sm) w ;; _return_or_inplace sm out (kw_rest kw))
  end.

(** ** The remaining methods of the column *)

(** [StringColumn._nbytes] *)
Definition _nbytes (c : StringColumn) : result Z :=
  if size c =? 0 then Ok 0
  else
    ch <- children c ;;
    match nth_error ch 1 with
    | Some chars_column => Ok (col_size chars_column)
    | None => Raise IndexError
    end.

(** [StringColumn.sum(dtype)] *)
Definition sum `{StringKernels} (c : StringColumn) : result string :=
  if len_ c =? 0 then Ok EmptyString
  else
    ch <- children c ;;
    match nth_error ch 1 with
    | Some chars_column => utf8_decode (col_elements chars_column)
    | None => Raise IndexError
    end.

(** What [to_arrow] builds: [pa.NullArray.from_buffers] or
    [pa.StringArray.from_buffers], with the arguments of the call. *)
Inductive ArrowArray : Type :=
| NullArray (length null_count : Z)
| StringArray (length : Z) (obuf sbuf : Buffer) (nbuf : option Buffer) (null_count : Z).

(** [StringColumn.to_arrow()] *)
Definition to_arrow (c : StringColumn) : result ArrowArray :=
  bufs <- (if len_ c =? 0 then Ok ([], [], None)
           else
             ch <- children c ;;
             match ch with
             | offsets_column :: chars_column :: _ =>
                 let nbuf := if null_count c >? 0 then mask c else None in
                 Ok (col_elements chars_column, col_elements offsets_column, nbuf)
             | _ => Raise IndexError
             end) ;;
  let '(sbuf, obuf, nbuf) := bufs in
  if null_count c =? len_ c
  then Ok (NullArray (len_ c) (null_count c))
  else Ok (StringArray (len_ c) obuf sbuf nbuf (null_count c)).

(** The rows an Arrow array holds: a null array holds nulls; row [r] of a
    string array is null when the validity bit of [r] is clear, and holds
    the bytes [sbuf[obuf[r] : obuf[r + 1]]] otherwise. *)
Definition arrow_rows (a : ArrowArray) : rows :=
  match a with
  | NullArray n _ => repeat None (Z.to_nat n)
  | StringArray n obuf sbuf nbuf _ =>
      map (fun r => if mask_row_is_null nbuf r then None
                    else Some (string_of_bytes
                                 (slice sbuf (nth r obuf 0) (nth (S r) obuf 0))))
          (seq 0 (Z.to_nat n))
  end.

(** *** The column object and its caches *)

(** The setters of the base class that the column overrides or calls: each
    gives the fields of the column after the call, or raises and leaves
    them as they were. *)
Class BaseColumn : Type := {
  base_set_base_mask : StringColumn -> option Buffer -> result StringColumn;
  base_set_base_children : StringColumn -> list Column -> result StringColumn;
  base_set_mask : StringColumn -> option Buffer -> result StringColumn;
  base_mimic_inplace : StringColumn -> StringColumn -> bool -> StringColumn
}.

(** The category library: a category object made from engine rows, and its
    values. *)
Class CategoryLib : Type := {
  category : Type;
  from_strings : rows -> category;
  category_values : category -> Buffer
}.

(** A column object: the fields of the base class and the three cached
    attributes [_nvstrings], [_nvcategory] and [_indices]. *)
Record ColumnObject `{CategoryLib} : Type := mkColumnObject {
  fields : StringColumn;
  _nvstrings : option rows;
  _nvcategory : option category;
  _indices : option Buffer
}.

Arguments mkColumnObject {_} _ _ _ _.

(** The object [__init__] leaves: the caches are empty. *)
Definition obj_init `{CategoryLib} (mask : option Buffer) (size_arg : option Z)
  (offset_arg : Z) (children_arg : list Column) : ColumnObject :=
  mkColumnObject (StringColumn_init mask size_arg offset_arg children_arg)
                 None None None.

(** [StringColumn.set_base_mask(value)] *)
Definition set_base_mask `{CategoryLib} `{BaseColumn} (o : ColumnObject)
  (value : option Buffer) : result unit * ColumnObject :=
  match base_set_base_mask (fields o) value with
  | Raise e => (Raise e, o)
  | Ok f => (Ok tt, mkColumnObject f None None None)
  end.

(** [StringColumn.set_base_children(value)] *)
Definition set_base_children `{CategoryLib} `{BaseColumn} (o : ColumnObject)
  (value : list Column) : result unit * ColumnObject :=
  match base_set_base_children (fields o) value with
  | Raise e => (Raise e, o)
  | Ok f => (Ok tt, mkColumnObject f None None None)
  end.

(** [StringColumn._set_mask(value)]: the caches are dropped first. *)
Definition _set_mask `{CategoryLib} `{BaseColumn} (o : ColumnObject)
  (value : option Buffer) : result unit * ColumnObject :=
  match base_set_mask (fields o) value with
  | Raise e => (Raise e, mkColumnObject (fields o) None None None)
  | Ok f => (Ok tt, mkColumnObject f None None None)
  end.

(** The property [StringColumn.nvstrings], as a getter on the object: the
    engine object is built once and kept. *)
Definition get_nvstrings `{CategoryLib} (o : ColumnObject) : result rows * ColumnObject :=
  match _nvstrings o with
  | Some nvs => (Ok nvs, o)
  | None =>
      match nvstrings (fields o) with
      | Ok nvs => (Ok nvs, mkColumnObject (fields o) (Some nvs) (_nvcategory o) (_indices o))
      | Raise e => (Raise e, o)
      end
  end.

(** The property [StringColumn.nvcategory] *)
Definition get_nvcategory `{CategoryLib} (o : ColumnObject)
  : result category * ColumnObject :=
  match _nvcategory o with
  | Some k => (Ok k, o)
  | None =>
      match get_nvstrings o with
      | (Ok nvs, o') =>
          let k := from_strings nvs in
          (Ok k, mkColumnObject (fields o') (_nvstrings o') (Some k) (_indices o'))
      | (Raise e, o') => (Raise e, o')
      end
  end.

(** The setter of [StringColumn.nvcategory] *)
Definition set_nvcategory `{CategoryLib} (o : ColumnObject) (nvc : category)
  : ColumnObject :=
  mkColumnObject (fields o) (_nvstrings o) (Some nvc) (_indices o).

(** The property [StringColumn.indices] *)
Definition get_indices `{CategoryLib} (o : ColumnObject) : result Buffer * ColumnObject :=
  match _indices o with
  | Some i => (Ok i, o)
  | None =>
      match get_nvcategory o with
      | (Ok k, o') =>
          let out_dev_arr := category_values k in
          (Ok out_dev_arr,
           mkColumnObject (fields o') (_nvstrings o') (_nvcategory o') (Some out_dev_arr))
      | (Raise e, o') => (Raise e, o')
      end
  end.

(** [StringColumn._mimic_inplace(other_col, inplace)]: the object after the
    call. *)
Definition _mimic_inplace `{CategoryLib} `{BaseColumn} (o other_col : ColumnObject)
  (inplace : bool) : ColumnObject :=
  let fields' := base_mimic_inplace (fields o) (fields other_col) inplace in
  if inplace
  then mkColumnObject fields' (_nvstrings other_col) (_nvcategory other_col)
                      (_indices other_col)
  else mkColumnObject fields' (_nvstrings o) (_nvcategory o) (_indices o).

(** The calls that change a column object or fill its caches. *)
Inductive call `{CategoryLib} : Type :=
| CallSetBaseMask (value : option Buffer)
| CallSetBaseChildren (value : list Column)
| CallSetMask (value : option Buffer)
| CallNvstrings
| CallNvcategory
| CallSetNvcategory (nvc : category)
| CallIndices
| CallMimicInplace (other_col : ColumnObject) (inplace : bool).

(** The object after a call, whether the call returned or raised. *)
Definition after `{CategoryLib} `{BaseColumn} (o : ColumnObject) (k : call)
  : ColumnObject :=
  match k with
  | CallSetBaseMask v => snd (set_base_mask o v)
  | CallSetBaseChildren v => snd (set_base_children o v)
  | CallSetMask v => snd (_set_mask o v)
  | CallNvstrings => snd (get_nvstrings o)
  | CallNvcategory => snd (get_nvcategory o)
  | CallSetNvcategory nvc => set_nvcategory o nvc
  | CallIndices => snd (get_indices o)
  | CallMimicInplace other_col inplace => _mimic_inplace o other_col inplace
  end.

(** The object after a sequence of calls. *)
Definition after_all `{CategoryLib} `{BaseColumn} (o : ColumnObject) (ks : list call)
  : ColumnObject :=
  fold_left after ks o.

(** The cached engine object, when there is one, is the engine object of
    the fields as they are now. *)
Definition nvstrings_coherent `{CategoryLib} (o : ColumnObject) : Prop :=
  forall nvs, _nvstrings o = Some nvs -> nvstrings (fields o) = Ok nvs.

(** Every cached attribute, when there is one, is what the property would
    compute from the fields as they are now. *)
Definition caches_coherent `{CategoryLib} (o : ColumnObject) : Prop :=
  nvstrings_coherent o /\
  (forall k, _nvcategory o = Some k ->
     exists nvs, nvstrings (fields o) = Ok nvs /\ k = from_strings nvs) /\
  (forall i, _indices o = Some i ->
     exists nvs, nvstrings (fields o) = Ok nvs /\
                 i = category_values (from_strings nvs)).

(** The call is not the setter of [nvcategory]. *)
Definition keeps_category `{CategoryLib} (k : call) : bool :=
  match k with CallSetNvcategory _ => false | _ => true end.

(** ** Stand-ins for the examples *)

(** Kernels that leave the column as it is, answer 0 for every row and
    decode bytes one by one. *)
#[global] Instance reference_kernels : StringKernels := {|
  nvs_lower := fun nvs => nvs;
  nvs_extract := fun _ nvs => [nvs];
  cpp_is_decimal := fun c => Ok (build_column_of_buffer (kernel_fill (size c) []) Bool8 None);
  cpp_is_alnum := fun c => Ok (build_column_of_buffer (kernel_fill (size c) []) Bool8 None);
  cpp_is_alpha := fun c => Ok (build_column_of_buffer (kernel_fill (size c) []) Bool8 None);
  cpp_is_digit := fun c => Ok (build_column_of_buffer (kernel_fill (size c) []) Bool8 None);
  cpp_is_numeric := fun c => Ok (build_column_of_buffer (kernel_fill (size c) []) Bool8 None);
  cpp_slice_replace := fun c _ _ _ => Ok c;
  cpp_string_insert := fun c _ _ => Ok c;
  cpp_wrap := fun c _ => Ok c;
  utf8_decode := fun bs => Ok (string_of_bytes bs)
|}.

(** A base class whose setters store what they are given. *)
#[global] Instance reference_base : BaseColumn := {|
  base_set_base_mask := fun c v => Ok (mkStringColumn (base_children c) v (size c) (offset c));
  base_set_base_children := fun c v => Ok (mkStringColumn v (base_mask c) (size c) (offset c));
  base_set_mask := fun c v => Ok (mkStringColumn (base_children c) v (size c) 0);
  base_mimic_inplace := fun self other inplace => if inplace then other else self
|}.

(** A category library that keeps the rows and numbers them. *)
#[global] Instance reference_categories : CategoryLib := {|
  category := rows;
  from_strings := fun nvs => nvs;
  category_values := fun k => map Z.of_nat (seq 0 (List.length k))
|}.

(* ================================================================== *)
(** * Part II: properties *)
(* ================================================================== *)

(** ** The size computed by the constructor *)

(** The constructor called with [size=None] on no children and offset 1
    computes the size -1. *)
Example init_size_no_children_offset_1 :
  size (StringColumn_init None None 1 []) = -1.
Proof. reflexivity. Qed.

(** With [size=None], an empty offsets child gives the size 0 at offset 0
    (the branch [children[0].size == 0]), not -1. *)
Example init_size_empty_offsets_child :
  size (StringColumn_init None None 0
          [build_column_of_buffer [] Int32 None; build_column_of_buffer [] Int8 None]) = 0.
Proof. reflexivity. Qed.

(** C6, as stated, fails: without an explicit size the constructor does not
    give [base_offsets.size - 1 - offset] to every column with children (an
    empty offsets child at offset 0 gives 0, not -1), and does not give the
    size 0 to every column without children (offset 1 gives -1). *)
Lemma C6_size_claim_fails :
  ~ (forall (m : option Buffer) (off : Z) (ch : list Column),
        (ch = [] -> size (StringColumn_init m None off ch) = 0) /\
        (forall ob cb, ch = [ob; cb] ->
           size (StringColumn_init m None off ch) = col_size ob - 1 - off)).
Proof.
  intros H.
  destruct (H None 0 [build_column_of_buffer [] Int32 None;
                      build_column_of_buffer [] Int8 None]) as [_ Hpresent].
  specialize (Hpresent _ _ eq_refl).
  cbn in Hpresent. discriminate.
Qed.

(** C6, amended: without an explicit size the constructor computes
    [n - offset], where [n] is [base_offsets.size - 1] when the offsets
    child is present and not empty, and 0 when the children are absent or
    the offsets child is empty.  So the size is
    [base_offsets.size - 1 - offset] for a non-empty offsets child, and 0
    for absent children at offset 0. *)
Theorem C6_size_without_explicit_size :
  forall (m : option Buffer) (off : Z) (ch : list Column),
    (forall ob rest, ch = ob :: rest -> col_size ob <> 0 ->
       size (StringColumn_init m None off ch) = col_size ob - 1 - off) /\
    (forall ob rest, ch = ob :: rest -> col_size ob = 0 ->
       size (StringColumn_init m None off ch) = 0 - off) /\
    (ch = [] -> size (StringColumn_init m None off ch) = 0 - off) /\
    (ch = [] -> off = 0 -> size (StringColumn_init m None off ch) = 0).
Proof.
  intros m off ch. unfold StringColumn_init, init_size. cbn [size].
  repeat split.
  - intros ob rest -> Hne.
    destruct (col_size ob =? 0) eqn:E; [apply Z.eqb_eq in E; contradiction | lia].
  - intros ob rest -> He. rewrite He. reflexivity.
  - intros ->. reflexivity.
  - intros -> ->. reflexivity.
Qed.

Lemma C6_size_without_explicit_size_witness :
  size (StringColumn_init (Some [5]) None 1 example_children) = 4 - 1 - 1 /\
  size (StringColumn_init None None 0 []) = 0.
Proof.
  destruct (C6_size_without_explicit_size (Some [5]) 1 example_children)
    as (Hpresent & _ & _ & _).
  destruct (C6_size_without_explicit_size None 0 []) as (_ & _ & _ & Habsent).
  split.
  - apply (Hpresent _ _ eq_refl). cbn. discriminate.
  - apply Habsent; reflexivity.
Defined.

(** ** Lists, windows and offsets *)

Lemma last_is_nth (l : list Z) (d : Z) :
  last l d = nth (List.length l - 1) l d.
Proof.
  induction l as [|x l IH]; [reflexivity|].
  destruct l as [|y l]; [reflexivity|].
  change (last (x :: y :: l) d) with (last (y :: l) d).
  rewrite IH. cbn [List.length].
  replace (S (S (List.length l)) - 1)%nat with (S (S (List.length l) - 1)) by lia.
  reflexivity.
Qed.

Lemma offsets_within_bounds (l : list Z) :
  forall lo hi, offsets_within lo l hi = true ->
  forall i j : nat, (i <= j < List.length l)%nat ->
    lo <= nth i l 0 /\ nth i l 0 <= nth j l 0 /\ nth j l 0 <= hi.
Proof.
  induction l as [|x l IH]; intros lo hi H i j Hij; cbn in *; [lia|].
  apply andb_true_iff in H. destruct H as [Hx Hl]. apply Z.leb_le in Hx.
  destruct j as [|j].
  - assert (i = 0%nat) by lia. subst i.
    destruct l as [|y l].
    + cbn in Hl. apply Z.leb_le in Hl. lia.
    + destruct (IH _ _ Hl 0%nat 0%nat) as (? & ? & ?); [cbn; lia|].
      cbn in Hl. apply andb_true_iff in Hl. destruct Hl as [Hy _].
      apply Z.leb_le in Hy. cbn in *. lia.
  - destruct i as [|i].
    + destruct (IH _ _ Hl 0%nat j) as (? & ? & ?); [lia|]. lia.
    + destruct (IH _ _ Hl i j) as (? & ? & ?); [lia|]. lia.
Qed.

Lemma wrap32_small (z : Z) : -2147483648 <= z < 2147483648 -> wrap32 z = z.
Proof. intros H. unfold wrap32. rewrite Z.mod_small; lia. Qed.

Lemma slice_of_window (l : list Z) (d len a b : Z) :
  0 <= d -> d <= a -> a <= b -> b <= d + len ->
  slice (firstn (Z.to_nat len) (skipn (Z.to_nat d) l)) (a - d) (b - d) = slice l a b.
Proof.
  intros Hd Ha Hb Hlen. unfold slice.
  rewrite skipn_firstn_comm, skipn_skipn, firstn_firstn.
  replace (Z.to_nat (a - d) + Z.to_nat d)%nat with (Z.to_nat a) by lia.
  f_equal. lia.
Qed.

Lemma col_elements_unsliced (c : Column) : unsliced c -> col_elements c = col_base_data c.
Proof.
  intros (Ho & Hs & _). unfold col_elements. rewrite Ho, Hs, Nat2Z.id.
  cbn. apply firstn_all.
Qed.

Lemma col_elements_of_buffer (data : Buffer) (dt : dtype) (m : option Buffer) :
  col_elements (build_column_of_buffer data dt m) = data.
Proof.
  unfold col_elements, build_column_of_buffer. cbn. rewrite Nat2Z.id. apply firstn_all.
Qed.

Lemma element_indexing_in_range (c : Column) (i : Z) :
  0 <= i < col_size c -> 0 <= col_offset c ->
  col_offset c + i < Z.of_nat (List.length (col_base_data c)) ->
  element_indexing c i = Ok (nth (Z.to_nat (col_offset c + i)) (col_base_data c) 0).
Proof.
  intros Hi Ho Hlen. unfold element_indexing.
  destruct (i <? 0) eqn:E1; [apply Z.ltb_lt in E1; lia|].
  rewrite E1. cbn [orb].
  destruct (col_size c - 1 <? i) eqn:E2; [apply Z.ltb_lt in E2; lia|].
  rewrite (nth_error_nth' _ 0); [reflexivity | lia].
Qed.

(** ** The logical children *)

Section Children.

Variables (c : StringColumn) (ob cb : Column).
Hypothesis Hwf : well_formed c.
Hypothesis Hch : base_children c = [ob; cb].

Let data := col_base_data ob.
Let chars := col_base_data cb.
Let delta := nth (Z.to_nat (offset c)) data 0.
Let chars_size := nth (Z.to_nat (offset c + size c)) data 0 - delta.

(** The window of the base offsets, before the shift. *)
Let offsets_window : Column :=
  build_column data (col_dtype ob) (col_base_mask ob) (size c + 1) (offset c).


Lemma wf_facts :
  0 <= size c /\ 0 <= offset c /\ unsliced ob /\ unsliced cb /\
  offset c + size c + 1 <= Z.of_nat (List.length data) /\
  offsets_within 0 data (Z.of_nat (List.length chars)) = true /\
  Z.of_nat (List.length chars) < 2147483648.
Proof.
  destruct Hwf as (Hs & Ho & H). rewrite Hch in H.
  destruct H as (Huo & Huc & Hwin & Hin & Hlt).
  pose proof Huo as (Hoo & Hos & Hom).
  unfold data, chars.
  repeat match goal with |- _ /\ _ => split end; try assumption.
  rewrite <- Hos. exact Hwin.
Qed.

Lemma offsets_in_window (i j : Z) :
  offset c <= i -> i <= j -> j <= offset c + size c ->
  0 <= nth (Z.to_nat i) data 0 /\
  nth (Z.to_nat i) data 0 <= nth (Z.to_nat j) data 0 /\
  nth (Z.to_nat j) data 0 <= Z.of_nat (List.length chars).
Proof.
  intros Hi Hij Hj.
  destruct wf_facts as (Hs & Ho & _ & _ & Hwin & Hin & _).
  apply (offsets_within_bounds _ _ _ Hin). lia.
Qed.

Lemma delta_bounds : 0 <= delta <= Z.of_nat (List.length chars).
Proof.
  destruct wf_facts as (Hs & Ho & _).
  pose proof (offsets_in_window (offset c) (offset c)) as Hwin_0.
  unfold delta. lia.
Qed.

Lemma offsets_window_elements :
  col_elements offsets_window
  = firstn (Z.to_nat (size c + 1)) (skipn (Z.to_nat (offset c)) data).
Proof. reflexivity. Qed.

Lemma offsets_window_length :
  List.length (col_elements offsets_window) = Z.to_nat (size c + 1).
Proof.
  destruct wf_facts as (Hs & Ho & _ & _ & Hwin & _).
  rewrite offsets_window_elements, length_firstn, length_skipn. lia.
Qed.

Lemma derived_offsets_elements :
  col_elements (derived_offsets c ob)
  = map (fun x => wrap32 (x - delta)) (col_elements offsets_window).
Proof.
  change (derived_offsets c ob) with (column_sub_scalar offsets_window delta).
  unfold column_sub_scalar, col_elements at 1.
  cbn [col_size col_offset col_base_data].
  change (Z.to_nat 0) with 0%nat. cbn [skipn].
  change (col_size offsets_window) with (size c + 1).
  rewrite <- offsets_window_length,
          <- (length_map (fun x => wrap32 (x - delta)) (col_elements offsets_window)).
  apply firstn_all.
Qed.

(** Element [r] of the derived offsets is the base offset of row
    [offset + r], less the first offset of the window. *)
Lemma derived_offsets_nth (r : Z) :
  0 <= r <= size c ->
  nth (Z.to_nat r) (col_elements (derived_offsets c ob)) 0
  = nth (Z.to_nat (offset c + r)) data 0 - delta.
Proof.
  intros Hr.
  destruct wf_facts as (Hs & Ho & _ & _ & Hwin & _ & Hlt).
  rewrite derived_offsets_elements.
  rewrite (nth_indep _ 0 (wrap32 (0 - delta)))
    by (rewrite length_map, offsets_window_length; lia).
  rewrite (map_nth (fun x => wrap32 (x - delta))).
  rewrite offsets_window_elements, nth_firstn, nth_skipn.
  destruct (Nat.ltb_spec (Z.to_nat r) (Z.to_nat (size c + 1))); [|lia].
  replace (Z.to_nat (offset c) + Z.to_nat r)%nat with (Z.to_nat (offset c + r)) by lia.
  pose proof (offsets_in_window (offset c) (offset c + r)) as Hwin_r.
  apply wrap32_small. unfold delta. lia.
Qed.

Lemma derived_offsets_indexing (r : Z) :
  0 <= r <= size c ->
  element_indexing (derived_offsets c ob) r
  = Ok (nth (Z.to_nat (offset c + r)) data 0 - delta).
Proof.
  intros Hr.
  rewrite element_indexing_in_range.
  - f_equal. rewrite <- (derived_offsets_nth r Hr), derived_offsets_elements.
    reflexivity.
  - cbn. lia.
  - cbn. lia.
  - change (derived_offsets c ob) with (column_sub_scalar offsets_window delta).
    cbn [col_offset col_base_data column_sub_scalar].
    rewrite length_map, offsets_window_length. lia.
Qed.

Lemma derived_chars_elements :
  col_elements (derived_chars c ob cb)
  = firstn (Z.to_nat chars_size) (skipn (Z.to_nat delta) chars).
Proof. reflexivity. Qed.

Lemma chars_size_bounds : 0 <= chars_size /\ delta + chars_size <= Z.of_nat (List.length chars).
Proof.
  destruct wf_facts as (Hs & Ho & _).
  pose proof (offsets_in_window (offset c) (offset c + size c)) as Hwin_s.
  unfold chars_size, delta. lia.
Qed.

Lemma derived_chars_length :
  Z.of_nat (List.length (col_elements (derived_chars c ob cb))) = chars_size.
Proof.
  destruct chars_size_bounds. destruct delta_bounds.
  rewrite derived_chars_elements, length_firstn, length_skipn. lia.
Qed.

(** The windowing path of [children] returns the derived pair. *)
Lemma children_windowed :
  aligned c = false -> children c = Ok [derived_offsets c ob; derived_chars c ob cb].
Proof.
  intros Hal. unfold aligned in Hal. unfold children. rewrite Hch in *. rewrite Hal.
  destruct wf_facts as (Hs & Ho & _ & _ & Hwin & _ & Hlt).
  destruct delta_bounds as [Hd0 Hd1].
  fold data. fold chars. fold offsets_window.
  rewrite (element_indexing_in_range offsets_window 0); cbn; try lia.
  rewrite Z.add_0_r. fold delta. cbn [bind].
  rewrite (wrap32_small delta) by lia.
  change (column_sub_scalar offsets_window delta) with (derived_offsets c ob).
  rewrite (derived_offsets_indexing (size c)) by lia.
  reflexivity.
Qed.

(** The fast path returns the base children themselves. *)
Lemma children_aligned :
  aligned c = true -> children c = Ok (base_children c).
Proof.
  intros Hal. unfold aligned in Hal. unfold children. rewrite Hch in *. rewrite Hal.
  reflexivity.
Qed.

(** Row [r] of the derived pair holds the bytes of base row [offset + r]. *)
Lemma derived_string_at (r : Z) :
  0 <= r < size c ->
  string_at (derived_offsets c ob) (derived_chars c ob cb) r = base_string_at ob cb (offset c + r).
Proof.
  intros Hr.
  destruct wf_facts as (Hs & Ho & _).
  destruct delta_bounds as [Hd0 Hd1]. destruct chars_size_bounds as [Hc0 Hc1].
  unfold string_at, base_string_at.
  rewrite !derived_offsets_nth by lia.
  rewrite derived_chars_elements.
  fold data. fold chars.
  replace (offset c + (r + 1)) with (offset c + r + 1) by lia.
  pose proof (offsets_in_window (offset c) (offset c + r)) as H1.
  pose proof (offsets_in_window (offset c + r) (offset c + r + 1)) as H2.
  pose proof (offsets_in_window (offset c + r + 1) (offset c + size c)) as H3.
  pose proof delta_bounds as Hdb.
  apply slice_of_window; unfold chars_size, delta in *; lia.
Qed.

End Children.

(** On the windowing path the derived pair starts at 0, ends at the length
    of its chars window and shows the rows of the window, whatever the
    first and last base offsets are. *)
Lemma children_windowed_view (c : StringColumn) (ob cb : Column) :
  well_formed c -> base_children c = [ob; cb] -> aligned c = false ->
  exists offsets chars,
    children c = Ok [offsets; chars] /\
    element_indexing offsets 0 = Ok 0 /\
    element_indexing offsets (size c) = Ok (Z.of_nat (List.length (col_elements chars))) /\
    col_size chars = Z.of_nat (List.length (col_elements chars)) /\
    col_base_data chars = col_base_data cb /\
    (forall r, 0 <= r < size c ->
       string_at offsets chars r = base_string_at ob cb (offset c + r)).
Proof.
  intros Hwf Hch Hal.
  pose proof (wf_facts c ob cb Hwf Hch) as (Hs & Ho & _).
  exists (derived_offsets c ob), (derived_chars c ob cb).
  rewrite (children_windowed c ob cb Hwf Hch Hal).
  pose proof (derived_chars_length c ob cb Hwf Hch) as Hlen.
  repeat match goal with |- _ /\ _ => split end; try reflexivity.
  - rewrite (derived_offsets_indexing c ob cb Hwf Hch) by lia.
    f_equal. rewrite Z.add_0_r. lia.
  - rewrite (derived_offsets_indexing c ob cb Hwf Hch) by lia.
    rewrite Hlen. reflexivity.
  - rewrite Hlen. reflexivity.
  - intros r Hr. apply (derived_string_at c ob cb Hwf Hch r Hr).
Qed.

(** C2, as stated, fails: when the window is the whole of the base rows,
    [children] returns the base children as they are.  Over base offsets
    that start at 2 the first offset of the pair is 2, not 0; over base
    offsets that end before the end of the bytes the last offset of the pair
    is less than the length of the chars. *)
Lemma C2_children_claim_fails :
  ~ (forall (c : StringColumn) (ob cb : Column),
       well_formed c -> base_children c = [ob; cb] ->
       exists offsets chars,
         children c = Ok [offsets; chars] /\
         element_indexing offsets 0 = Ok 0) /\
  ~ (forall (c : StringColumn) (ob cb : Column),
       well_formed c -> base_children c = [ob; cb] ->
       exists offsets chars,
         children c = Ok [offsets; chars] /\
         element_indexing offsets (size c)
         = Ok (Z.of_nat (List.length (col_elements chars)))).
Proof.
  split; intros Hclaim.
  - destruct (Hclaim shifted_column
                (build_column_of_buffer [2; 5; 8] Int32 None)
                (build_column_of_buffer example_chars Int8 None))
      as (offsets & chars & Hok & Hfirst).
    + unfold well_formed, unsliced. cbn.
      repeat match goal with |- _ /\ _ => split end; try reflexivity; lia.
    + reflexivity.
    + cbn in Hok. injection Hok as <- <-. cbn in Hfirst. discriminate.
  - destruct (Hclaim short_column
                (build_column_of_buffer [0; 3; 5] Int32 None)
                (build_column_of_buffer example_chars Int8 None))
      as (offsets & chars & Hok & Hlast).
    + unfold well_formed, unsliced. cbn.
      repeat match goal with |- _ /\ _ => split end; try reflexivity; lia.
    + reflexivity.
    + cbn in Hok. injection Hok as <- <-. cbn in Hlast. discriminate.
Qed.

(** C2, amended: for a well-formed column the derived pair
    [(offsets, chars)] has a chars column that is a view of the base chars
    buffer, row [r] of the pair holds the bytes of base row [offset + r] for
    every [r] in [0, size), and the pair is the base children themselves
    when [offset = 0] and [base_offsets.size = size + 1].  In every other
    case [offsets[0] = 0] and [offsets[size]] is the length of the chars
    window; when the base children are returned as they are, this holds
    exactly when the base offsets are canonical, that is, start at 0 and end
    at the number of bytes of the chars buffer. *)
Theorem C2_children_view (c : StringColumn) (ob cb : Column) :
  well_formed c -> base_children c = [ob; cb] ->
  exists offsets chars,
    children c = Ok [offsets; chars] /\
    col_size chars = Z.of_nat (List.length (col_elements chars)) /\
    col_base_data chars = col_base_data cb /\
    (forall r, 0 <= r < size c ->
       string_at offsets chars r = base_string_at ob cb (offset c + r)) /\
    (offset c = 0 -> col_size ob = size c + 1 -> [offsets; chars] = base_children c) /\
    (offset c <> 0 \/ col_size ob <> size c + 1 ->
       element_indexing offsets 0 = Ok 0 /\
       element_indexing offsets (size c)
       = Ok (Z.of_nat (List.length (col_elements chars)))) /\
    (offset c = 0 -> col_size ob = size c + 1 ->
       (element_indexing offsets 0 = Ok 0 /\
        element_indexing offsets (size c)
        = Ok (Z.of_nat (List.length (col_elements chars))))
       <-> canonical_base c).
Proof.
  intros Hwf Hch.
  pose proof (wf_facts c ob cb Hwf Hch)
    as (Hs & Ho & Huo & Huc & Hwin & Hin & Hlt).
  destruct (aligned c) eqn:Hal.
  - (* fast path *)
    exists ob, cb.
    rewrite (children_aligned c ob cb Hch Hal), Hch.
    unfold aligned in Hal. rewrite Hch in Hal.
    apply andb_true_iff in Hal. destruct Hal as [Hoff Hsz].
    apply Z.eqb_eq in Hoff, Hsz.
    pose proof Huo as (Hoo & Hos & _). pose proof Huc as (Hco & Hcs & _).
    rewrite (col_elements_unsliced cb Huc).
    assert (H0 : element_indexing ob 0 = Ok (nth 0 (col_base_data ob) 0)).
    { rewrite element_indexing_in_range; rewrite ?Hoo; try lia. reflexivity. }
    assert (Hn : element_indexing ob (size c) = Ok (last (col_base_data ob) 0)).
    { rewrite element_indexing_in_range; rewrite ?Hoo; try lia.
      rewrite last_is_nth. do 2 f_equal. lia. }
    repeat match goal with |- _ /\ _ => split end; try reflexivity.
    + exact Hcs.
    + intros r Hr. unfold string_at, base_string_at.
      rewrite (col_elements_unsliced ob Huo), (col_elements_unsliced cb Huc), Hoff.
      reflexivity.
    + intros [Hne | Hne]; contradiction.
    + intros _ _. unfold canonical_base. rewrite Hch, H0, Hn. split.
      * intros [Hfirst Hlast]. injection Hfirst as Hfirst. injection Hlast as Hlast.
        split; assumption.
      * intros [Hfirst Hlast]. rewrite Hfirst, Hlast. split; reflexivity.
  - (* windowing path *)
    destruct (children_windowed_view c ob cb Hwf Hch Hal)
      as (o & ch & Hok & H0 & Hlast & Hsz & Hdata & Hrows).
    exists o, ch.
    assert (Hnot : offset c = 0 -> col_size ob = size c + 1 -> False).
    { intros Hoff Hsize. unfold aligned in Hal. rewrite Hch in Hal.
      rewrite Hoff, Hsize, !Z.eqb_refl in Hal. discriminate. }
    repeat match goal with |- _ /\ _ => split end; try assumption.
    + intros Hoff Hsize. destruct (Hnot Hoff Hsize).
    + intros _. split; assumption.
    + intros Hoff Hsize. destruct (Hnot Hoff Hsize).
Qed.

Lemma C2_children_view_witness :
  exists offsets chars,
    children example_slice = Ok [offsets; chars] /\
    col_size chars = Z.of_nat (List.length (col_elements chars)) /\
    col_base_data chars = example_chars /\
    (forall r, 0 <= r < 2 ->
       string_at offsets chars r
       = base_string_at (build_column_of_buffer [0; 5; 5; 8] Int32 None)
                        (build_column_of_buffer example_chars Int8 None) (1 + r)) /\
    (1 = 0 -> 4 = 2 + 1 -> [offsets; chars] = example_children) /\
    (1 <> 0 \/ 4 <> 2 + 1 ->
       element_indexing offsets 0 = Ok 0 /\
       element_indexing offsets 2 = Ok (Z.of_nat (List.length (col_elements chars)))) /\
    (1 = 0 -> 4 = 2 + 1 ->
       (element_indexing offsets 0 = Ok 0 /\
        element_indexing offsets 2 = Ok (Z.of_nat (List.length (col_elements chars))))
       <-> canonical_base example_slice).
Proof.
  apply (C2_children_view example_slice
           (build_column_of_buffer [0; 5; 5; 8] Int32 None)
           (build_column_of_buffer example_chars Int8 None)).
  - unfold well_formed, unsliced. cbn.
    repeat match goal with |- _ /\ _ => split end; try reflexivity; lia.
  - reflexivity.
Defined.

(** ** Null masks and engine rows *)

Ltac wf_by_computation :=
  unfold well_formed, unsliced; cbn;
  repeat match goal with |- _ /\ _ => split end; try reflexivity; lia.

Lemma children_ok (c : StringColumn) (ob cb : Column) :
  well_formed c -> base_children c = [ob; cb] ->
  exists offsets chars, children c = Ok [offsets; chars].
Proof.
  intros Hwf Hch. destruct (aligned c) eqn:Hal.
  - exists ob, cb. rewrite (children_aligned c ob cb Hch Hal). f_equal. exact Hch.
  - exists (derived_offsets c ob), (derived_chars c ob cb).
    apply (children_windowed c ob cb Hwf Hch Hal).
Qed.

(** The engine object of a well-formed column exists and has one row per
    row of the column. *)
Lemma nvstrings_ok (c : StringColumn) :
  well_formed c ->
  exists nvs, nvstrings c = Ok nvs /\ List.length nvs = Z.to_nat (size c).
Proof.
  intros Hwf. unfold nvstrings.
  destruct (size c =? 0) eqn:Hz.
  - apply Z.eqb_eq in Hz. exists []. rewrite Hz. split; reflexivity.
  - apply Z.eqb_neq in Hz.
    pose proof Hwf as (Hs & Ho & H).
    destruct (base_children c) as [|ob [|cb [|x rest]]] eqn:Hch; try contradiction.
    destruct (children_ok c ob cb Hwf Hch) as (o & ch & Hok).
    rewrite Hok. cbn [bind]. eexists. split; [reflexivity|].
    rewrite length_map, length_seq. reflexivity.
Qed.

Lemma count_nulls_zero (m : option Buffer) (n : Z) (r : nat) :
  count_nulls m n = 0 -> (r < Z.to_nat n)%nat -> mask_row_is_null m r = false.
Proof.
  unfold count_nulls. intros Hc Hr.
  destruct (mask_row_is_null m r) eqn:E; [|reflexivity].
  assert (Hin : In r (filter (mask_row_is_null m) (seq 0 (Z.to_nat n)))).
  { apply filter_In. split; [apply in_seq; lia | exact E]. }
  destruct (filter (mask_row_is_null m) (seq 0 (Z.to_nat n))); [contradiction|].
  cbn in Hc. lia.
Qed.

Lemma has_nulls_false (c : StringColumn) (r : nat) :
  has_nulls c = false -> (r < Z.to_nat (size c))%nat -> row_is_null c r = false.
Proof.
  unfold has_nulls, null_count, row_is_null. intros H Hr.
  apply negb_false_iff, Z.eqb_eq in H.
  exact (count_nulls_zero _ _ _ H Hr).
Qed.

Lemma kernel_fill_length (n : Z) (vals : list Z) :
  List.length (kernel_fill n vals) = Z.to_nat n.
Proof. unfold kernel_fill. rewrite length_map, length_seq. reflexivity. Qed.

(** ** The trace monad *)

Lemma outcome_bind_emit {A : Type} (ev : event) (k : unit -> Dev A) :
  outcome (dev_bind (emit ev) k) = outcome (k tt).
Proof. unfold outcome, dev_bind, emit. destruct (k tt). reflexivity. Qed.

Lemma outcome_bind_lift_ok {A B : Type} (a : A) (k : A -> Dev B) :
  outcome (dev_bind (lift (Ok a)) k) = outcome (k a).
Proof. unfold outcome, dev_bind, lift. destruct (k a). reflexivity. Qed.

Lemma outcome_lift {A : Type} (r : result A) : outcome (lift r) = r.
Proof. reflexivity. Qed.

(** ** Null propagation of [len] and [contains] *)

Lemma built_output_propagates (c : StringColumn) (vals : list Z) (dt : dtype) :
  0 <= size c ->
  propagates_nulls c
    (build_column_of_buffer (kernel_fill (len_ c) vals) dt
       (if has_nulls c then mask c else None)).
Proof.
  intros Hs. unfold propagates_nulls, build_column_of_buffer. cbn.
  rewrite kernel_fill_length. unfold len_.
  repeat match goal with |- _ /\ _ => split end; try reflexivity; try lia.
  intros r Hr. destruct (has_nulls c) eqn:Hn.
  - reflexivity.
  - rewrite (has_nulls_false c r Hn Hr). reflexivity.
Qed.

(** C3: on a well-formed column, [len] and [contains] (with its default
    options) return what [_return_or_inplace] makes of an output column
    that has the row count of the input, the input's own mask when the
    input has nulls and no mask otherwise, and a null at every row where
    the input has one. *)
Theorem C3_len_contains_propagate_nulls `{Engine} (sm : StringMethods) (kw : kwargs) :
  well_formed (_column sm) ->
  (exists out, outcome (len sm kw) = _return_or_inplace sm out kw /\
               propagates_nulls (_column sm) out) /\
  (forall pat regex,
     exists out,
       outcome (contains sm pat (PyBool true) 0 NpNan regex kw)
       = _return_or_inplace sm out kw /\
       propagates_nulls (_column sm) out).
Proof.
  intros Hwf.
  destruct (nvstrings_ok _ Hwf) as (nvs & Hnvs & Hlen).
  pose proof Hwf as (Hs & _).
  split.
  - eexists. split.
    + unfold len. rewrite outcome_bind_emit, Hnvs, outcome_bind_lift_ok,
        outcome_bind_emit, outcome_lift. reflexivity.
    + apply built_output_propagates. exact Hs.
  - intros pat regex. eexists. split.
    + unfold contains. cbn [py_is_True py_is_np_nan negb Z.eqb].
      rewrite outcome_bind_emit, Hnvs, outcome_bind_lift_ok,
        outcome_bind_emit, outcome_lift. reflexivity.
    + apply built_output_propagates. exact Hs.
Qed.

Lemma C3_len_contains_propagate_nulls_witness :
  (exists out, outcome (len (str example_slice) no_kwargs)
               = _return_or_inplace (str example_slice) out no_kwargs /\
               propagates_nulls example_slice out) /\
  (forall pat regex,
     exists out,
       outcome (contains (str example_slice) pat (PyBool true) 0 NpNan regex no_kwargs)
       = _return_or_inplace (str example_slice) out no_kwargs /\
       propagates_nulls example_slice out).
Proof.
  apply (C3_len_contains_propagate_nulls (str example_slice) no_kwargs).
  wf_by_computation.
Defined.

(** ** Bit-packed masks *)

Lemma pack_byte_testbit (f : nat -> bool) (j : nat) :
  (j < 8)%nat -> Z.testbit (pack_byte f) (Z.of_nat j) = f j.
Proof.
  intros Hj. unfold pack_byte. cbn [seq fold_right].
  do 8 (destruct j as [|j]; [
    destruct (f 0%nat), (f 1%nat), (f 2%nat), (f 3%nat),
             (f 4%nat), (f 5%nat), (f 6%nat), (f 7%nat); reflexivity |]).
  lia.
Qed.

Lemma pack_bits_bit (bs : list bool) (i : nat) :
  (i < List.length bs)%nat -> bit_is_set (pack_bits bs) i = nth i bs false.
Proof.
  intros Hi. unfold bit_is_set, pack_bits.
  set (g := fun k => pack_byte (fun j => nth (8 * k + j) bs false)).
  assert (Hk : (i / 8 < (List.length bs + 7) / 8)%nat).
  { apply Nat.Div0.div_lt_upper_bound.
    pose proof (Nat.div_mod_eq (List.length bs + 7) 8).
    pose proof (Nat.mod_upper_bound (List.length bs + 7) 8).
    pose proof (Nat.div_mod_eq i 8). lia. }
  rewrite (nth_indep _ 0 (g 0%nat)) by (rewrite length_map, length_seq; exact Hk).
  rewrite (map_nth g), seq_nth by exact Hk.
  cbn [Nat.add]. unfold g.
  rewrite pack_byte_testbit by (apply Nat.mod_upper_bound; lia).
  f_equal. symmetry. apply Nat.div_mod_eq.
Qed.

(** The mask a column shows is aligned with its rows: row [r] is null when
    the bit of base row [offset + r] is clear. *)
Lemma row_is_null_base_bit (c : StringColumn) (m : Buffer) (r : nat) :
  base_mask c = Some m -> 0 <= offset c -> (r < Z.to_nat (size c))%nat ->
  row_is_null c r = negb (bit_is_set m (Z.to_nat (offset c) + r)).
Proof.
  intros Hm Ho Hr. unfold row_is_null, mask. rewrite Hm.
  destruct (offset c =? 0) eqn:E.
  - apply Z.eqb_eq in E. rewrite E. reflexivity.
  - cbn [mask_row_is_null]. f_equal. unfold copy_bitmask.
    rewrite pack_bits_bit by (rewrite length_map, length_seq; exact Hr).
    rewrite (nth_indep _ false (bit_is_set m (Z.to_nat (offset c) + 0)))
      by (rewrite length_map, length_seq; exact Hr).
    rewrite (map_nth (fun r => bit_is_set m (Z.to_nat (offset c) + r))).
    rewrite seq_nth by exact Hr. reflexivity.
Qed.

(** ** Serialisation round trip *)

(** Both paths of [children] give two non-nullable columns, the first of
    [size + 1] elements. *)
Lemma children_shape (c : StringColumn) (ob cb : Column) :
  well_formed c -> base_children c = [ob; cb] ->
  exists offsets chars,
    children c = Ok [offsets; chars] /\
    col_base_mask offsets = None /\ col_base_mask chars = None /\
    Z.of_nat (List.length (col_elements offsets)) = size c + 1.
Proof.
  intros Hwf Hch.
  pose proof (wf_facts c ob cb Hwf Hch) as (Hs & Ho & Huo & Huc & Hwin & _).
  destruct (aligned c) eqn:Hal.
  - exists ob, cb. rewrite (children_aligned c ob cb Hch Hal), Hch.
    unfold aligned in Hal. rewrite Hch in Hal.
    apply andb_true_iff in Hal. destruct Hal as [_ Hsz]. apply Z.eqb_eq in Hsz.
    pose proof Huo as (_ & Hos & Hom). pose proof Huc as (_ & _ & Hcm).
    rewrite (col_elements_unsliced ob Huo).
    repeat match goal with |- _ /\ _ => split end; try assumption; try reflexivity.
    lia.
  - exists (derived_offsets c ob), (derived_chars c ob cb).
    rewrite (children_windowed c ob cb Hwf Hch Hal).
    pose proof Huc as (_ & _ & Hcm).
    repeat match goal with |- _ /\ _ => split end; try reflexivity.
    + exact Hcm.
    + rewrite (derived_offsets_elements c ob cb Hwf Hch), length_map,
        (offsets_window_length c ob cb Hwf Hch). lia.
Qed.

Lemma string_at_elements (o1 c1 o2 c2 : Column) (r : Z) :
  col_elements o1 = col_elements o2 -> col_elements c1 = col_elements c2 ->
  string_at o1 c1 r = string_at o2 c2 r.
Proof. intros Ho Hc. unfold string_at. rewrite Ho, Hc. reflexivity. Qed.

Lemma count_nulls_none (n : Z) : count_nulls None n = 0.
Proof.
  unfold count_nulls. induction (seq 0 (Z.to_nat n)) as [|x l IH]; [reflexivity|].
  cbn. exact IH.
Qed.

Lemma count_nulls_nonneg (m : option Buffer) (n : Z) : 0 <= count_nulls m n.
Proof. unfold count_nulls. lia. Qed.

Lemma deserialize_serialize (c : StringColumn) (ob cb : Column) :
  well_formed c -> base_children c = [ob; cb] ->
  exists offsets chars header frames,
    children c = Ok [offsets; chars] /\
    serialize c = Ok (header, frames) /\
    deserialize header frames = Ok (rebuilt c offsets chars) /\
    Z.of_nat (List.length (col_elements offsets)) = size c + 1.
Proof.
  intros Hwf Hch.
  destruct (children_shape c ob cb Hwf Hch) as (o & ch & Hok & Hom & Hcm & Hlen).
  exists o, ch. unfold serialize. rewrite Hok. cbn [bind serialize_children].
  unfold column_serialize. rewrite Hom, Hcm. cbn [List.length app Z.of_nat Pos.of_succ_nat].
  eexists. eexists. split; [reflexivity|]. split; [reflexivity|]. split; [|exact Hlen].
  unfold deserialize, rebuilt. cbn [h_null_count h_subheaders].
  destruct (null_count c >? 0) eqn:Hn.
  - destruct (mask c) as [m|] eqn:Hm.
    + reflexivity.
    + unfold null_count in Hn. rewrite Hm, count_nulls_none in Hn. discriminate.
  - reflexivity.
Qed.

Lemma rebuilt_size (c : StringColumn) (o ch : Column) :
  Z.of_nat (List.length (col_elements o)) = size c + 1 -> 0 <= size c ->
  size (rebuilt c o ch) = size c.
Proof.
  intros Hlen Hs. unfold rebuilt, build_string_column, StringColumn_init, init_size.
  cbn [size col_size build_column_of_buffer].
  rewrite Hlen. destruct (size c + 1 =? 0) eqn:E; [apply Z.eqb_eq in E; lia | lia].
Qed.

Lemma rebuilt_children (c : StringColumn) (o ch : Column) :
  Z.of_nat (List.length (col_elements o)) = size c + 1 -> 0 <= size c ->
  children (rebuilt c o ch) = Ok (base_children (rebuilt c o ch)).
Proof.
  intros Hlen Hs. unfold children.
  rewrite (rebuilt_size c o ch Hlen Hs).
  unfold rebuilt, build_string_column, StringColumn_init.
  cbn [base_children offset col_size build_column_of_buffer].
  rewrite Hlen, !Z.eqb_refl. reflexivity.
Qed.

Lemma rebuilt_row_is_null (c : StringColumn) (o ch : Column) (r : nat) :
  (r < Z.to_nat (size c))%nat ->
  row_is_null (rebuilt c o ch) r = row_is_null c r.
Proof.
  intros Hr. unfold row_is_null at 1, mask at 1, rebuilt, build_string_column,
    StringColumn_init. cbn [base_mask offset Z.eqb].
  destruct (null_count c >? 0) eqn:Hn.
  - unfold row_is_null. destruct (mask c); reflexivity.
  - assert (Hz : null_count c = 0).
    { pose proof (count_nulls_nonneg (mask c) (size c)). unfold null_count in *.
      rewrite Z.gtb_ltb in Hn. apply Z.ltb_ge in Hn. lia. }
    symmetry. apply has_nulls_false; [|exact Hr].
    unfold has_nulls. rewrite Hz. reflexivity.
Qed.

Lemma rebuilt_null_count (c : StringColumn) (o ch : Column) :
  Z.of_nat (List.length (col_elements o)) = size c + 1 -> 0 <= size c ->
  null_count (rebuilt c o ch) = null_count c.
Proof.
  intros Hlen Hs. unfold null_count at 1. rewrite (rebuilt_size c o ch Hlen Hs).
  unfold mask at 1, rebuilt, build_string_column, StringColumn_init.
  cbn [base_mask offset Z.eqb].
  destruct (null_count c >? 0) eqn:Hn.
  - unfold null_count. destruct (mask c); reflexivity.
  - pose proof (count_nulls_nonneg (mask c) (size c)). unfold null_count in *.
    rewrite Z.gtb_ltb in Hn. apply Z.ltb_ge in Hn. rewrite count_nulls_none. lia.
Qed.

Lemma nullable_and_null (c : StringColumn) (r : nat) :
  nullable c && row_is_null c r = row_is_null c r.
Proof.
  unfold nullable, row_is_null, mask. destruct (base_mask c); reflexivity.
Qed.

Lemma rebuilt_nvstrings (c : StringColumn) (o ch : Column) :
  children c = Ok [o; ch] ->
  Z.of_nat (List.length (col_elements o)) = size c + 1 -> 0 <= size c ->
  nvstrings (rebuilt c o ch) = nvstrings c.
Proof.
  intros Hok Hlen Hs. unfold nvstrings.
  rewrite (rebuilt_children c o ch Hlen Hs), (rebuilt_size c o ch Hlen Hs), Hok.
  destruct (size c =? 0); [reflexivity|].
  cbn [bind rebuilt build_string_column StringColumn_init base_children].
  f_equal. apply map_ext_in. intros r Hr. apply in_seq in Hr.
  rewrite !nullable_and_null.
  change (mkStringColumn _ _ _ _) with (rebuilt c o ch).
  rewrite rebuilt_row_is_null by lia.
  destruct (row_is_null c r); [reflexivity|].
  do 2 f_equal. apply string_at_elements; apply col_elements_of_buffer.
Qed.

(** ** The round trip preserves the data model *)

Lemma offsets_within_intro (l : list Z) :
  forall lo hi, lo <= hi ->
    (forall i j : nat, (i <= j < List.length l)%nat ->
       lo <= nth i l 0 /\ nth i l 0 <= nth j l 0 /\ nth j l 0 <= hi) ->
    offsets_within lo l hi = true.
Proof.
  induction l as [|x l IH]; intros lo hi Hle H; cbn [offsets_within].
  - apply Z.leb_le. exact Hle.
  - destruct (H 0%nat 0%nat) as (H0 & _ & H1); [cbn; lia|]. cbn in H0, H1.
    apply andb_true_iff. split; [apply Z.leb_le; exact H0|].
    apply IH; [exact H1|].
    intros i j Hij.
    destruct (H (S i) (S j)) as (_ & Ha & Hb); [cbn; lia|].
    destruct (H 0%nat (S i)) as (_ & Hc & _); [cbn; lia|].
    cbn in Ha, Hb, Hc. lia.
Qed.

(** The logical children of a well-formed column are themselves canonical
    offsets over their chars. *)
Lemma children_offsets_within (c : StringColumn) (ob cb : Column) :
  well_formed c -> base_children c = [ob; cb] ->
  exists offsets chars,
    children c = Ok [offsets; chars] /\
    offsets_within 0 (col_elements offsets)
                   (Z.of_nat (List.length (col_elements chars))) = true /\
    Z.of_nat (List.length (col_elements chars)) < 2147483648.
Proof.
  intros Hwf Hch.
  pose proof (wf_facts c ob cb Hwf Hch) as (Hs & Ho & Huo & Huc & Hwin & Hin & Hlt).
  destruct (aligned c) eqn:Hal.
  - exists ob, cb. rewrite (children_aligned c ob cb Hch Hal), Hch.
    rewrite (col_elements_unsliced ob Huo), (col_elements_unsliced cb Huc).
    repeat match goal with |- _ /\ _ => split end; [reflexivity | exact Hin | exact Hlt].
  - exists (derived_offsets c ob), (derived_chars c ob cb).
    rewrite (children_windowed c ob cb Hwf Hch Hal).
    pose proof (derived_chars_length c ob cb Hwf Hch) as Hlen. cbv zeta in Hlen.
    pose proof (chars_size_bounds c ob cb Hwf Hch) as [Hc0 Hc1]. cbv zeta in Hc0, Hc1.
    pose proof (delta_bounds c ob cb Hwf Hch) as [Hd0 Hd1]. cbv zeta in Hd0, Hd1.
    repeat match goal with |- _ /\ _ => split end; [reflexivity | | lia].
    rewrite Hlen. apply offsets_within_intro; [exact Hc0|].
    intros i j Hij.
    assert (Hn : List.length (col_elements (derived_offsets c ob)) = Z.to_nat (size c + 1)).
    { rewrite (derived_offsets_elements c ob cb Hwf Hch), length_map.
      apply (offsets_window_length c ob cb Hwf Hch). }
    rewrite Hn in Hij.
    pose proof (derived_offsets_nth c ob cb Hwf Hch (Z.of_nat i)) as Hi.
    pose proof (derived_offsets_nth c ob cb Hwf Hch (Z.of_nat j)) as Hj.
    cbv zeta in Hi, Hj. rewrite Nat2Z.id in Hi, Hj.
    rewrite Hi, Hj by lia.
    pose proof (offsets_in_window c ob cb Hwf Hch (offset c) (offset c + Z.of_nat i)) as B1.
    pose proof (offsets_in_window c ob cb Hwf Hch (offset c + Z.of_nat i)
                  (offset c + Z.of_nat j)) as B2.
    pose proof (offsets_in_window c ob cb Hwf Hch (offset c + Z.of_nat j)
                  (offset c + size c)) as B3.
    cbv zeta in B1, B2, B3. lia.
Qed.

Lemma rebuilt_well_formed (c : StringColumn) (ob cb o ch : Column) :
  well_formed c -> base_children c = [ob; cb] -> children c = Ok [o; ch] ->
  well_formed (rebuilt c o ch).
Proof.
  intros Hwf Hch Hok.
  destruct (children_shape c ob cb Hwf Hch) as (o' & ch' & Hok' & _ & _ & Hlen).
  destruct (children_offsets_within c ob cb Hwf Hch) as (o'' & ch'' & Hok'' & Hin & Hlt).
  rewrite Hok in Hok', Hok''. injection Hok' as <- <-. injection Hok'' as <- <-.
  pose proof Hwf as (Hs & _).
  unfold well_formed. rewrite (rebuilt_size c o ch Hlen Hs).
  unfold rebuilt, build_string_column, StringColumn_init, unsliced.
  cbn [offset base_children col_offset col_size col_base_data col_base_mask
       build_column_of_buffer].
  repeat match goal with |- _ /\ _ => split end; try reflexivity; try lia; assumption.
Qed.

(** C1: for a well-formed column [c], [serialize] succeeds, [deserialize]
    of its header and frames succeeds, and the column it returns is
    well-formed and has the row count of [c], its null count, a null at the
    same rows, children with the same elements, and the same rows byte for
    byte.  Columns without
    rows and columns whose rows are all null are well-formed columns. *)
Theorem C1_serialize_roundtrip (c : StringColumn) :
  well_formed c ->
  exists header frames c',
    serialize c = Ok (header, frames) /\
    deserialize header frames = Ok c' /\
    well_formed c' /\
    size c' = size c /\
    null_count c' = null_count c /\
    (forall r : nat, (r < Z.to_nat (size c))%nat -> row_is_null c' r = row_is_null c r) /\
    children_elements c' = children_elements c /\
    nvstrings c' = nvstrings c.
Proof.
  intros Hwf. pose proof Hwf as (Hs & Ho & H).
  destruct (base_children c) as [|ob [|cb [|x rest]]] eqn:Hch; try contradiction.
  - (* no children: no rows *)
    assert (Hn : null_count c = 0).
    { unfold null_count, count_nulls. rewrite H. reflexivity. }
    unfold serialize, children. rewrite Hch, Hn. cbn.
    eexists. eexists. eexists. split; [reflexivity|].
    unfold deserialize. cbn.
    split; [reflexivity|].
    split; [wf_by_computation|].
    unfold build_string_column, StringColumn_init, null_count, count_nulls,
      children_elements, nvstrings, children. cbn. rewrite Hch, H. cbn.
    repeat match goal with |- _ /\ _ => split end; try reflexivity.
    intros r Hr. lia.
  - destruct (deserialize_serialize c ob cb Hwf Hch)
      as (o & ch & header & frames & Hok & Hser & Hde & Hlen).
    exists header, frames, (rebuilt c o ch).
    repeat match goal with |- _ /\ _ => split end.
    + exact Hser.
    + exact Hde.
    + apply (rebuilt_well_formed c ob cb o ch Hwf Hch Hok).
    + apply rebuilt_size; assumption.
    + apply rebuilt_null_count; assumption.
    + intros r Hr. apply rebuilt_row_is_null. exact Hr.
    + unfold children_elements.
      rewrite (rebuilt_children c o ch Hlen Hs), Hok. cbn.
      rewrite !col_elements_of_buffer. reflexivity.
    + apply rebuilt_nvstrings; assumption.
Qed.

Lemma C1_serialize_roundtrip_witness :
  (exists header frames c',
     serialize example_slice = Ok (header, frames) /\
     deserialize header frames = Ok c' /\
     well_formed c' /\
     size c' = 2 /\
     null_count c' = 1 /\
     (forall r : nat, (r < 2)%nat -> row_is_null c' r = row_is_null example_slice r) /\
     children_elements c' = Ok [[0; 0; 3]; [112; 105; 101]] /\
     nvstrings c' = Ok [None; Some "pie"]) /\
  (exists header frames c',
     serialize all_null_column = Ok (header, frames) /\
     deserialize header frames = Ok c' /\
     well_formed c' /\
     size c' = 2 /\ null_count c' = 2 /\
     (forall r : nat, (r < 2)%nat -> row_is_null c' r = row_is_null all_null_column r) /\
     children_elements c' = children_elements all_null_column /\
     nvstrings c' = Ok [None; None]) /\
  (exists header frames c',
     serialize zero_row_column = Ok (header, frames) /\
     deserialize header frames = Ok c' /\
     well_formed c' /\
     size c' = 0 /\ null_count c' = 0 /\
     (forall r : nat, (r < 0)%nat -> row_is_null c' r = row_is_null zero_row_column r) /\
     children_elements c' = Ok [] /\
     nvstrings c' = Ok []).
Proof.
  split; [|split].
  - apply (C1_serialize_roundtrip example_slice). wf_by_computation.
  - apply (C1_serialize_roundtrip all_null_column). wf_by_computation.
  - apply (C1_serialize_roundtrip zero_row_column). wf_by_computation.
Defined.

(** ** Unsupported options of [contains] *)

(** C5: [contains] called with [case] other than [True], with [flags]
    other than 0 or with [na] other than [np.nan] raises
    [NotImplementedError], and the trace of device work is empty: no output
    array was allocated and no kernel ran. *)
Theorem C5_contains_unsupported_option `{Engine} (sm : StringMethods) (pat : string)
  (case : pyval) (flags : Z) (na : pyval) (regex : bool) (kw : kwargs) :
  py_is_True case = false \/ flags <> 0 \/ py_is_np_nan na = false ->
  exists msg,
    contains sm pat case flags na regex kw = ([], Raise (NotImplementedError msg)).
Proof.
  intros Hopt. unfold contains.
  destruct (py_is_True case) eqn:Hc; cbn [negb].
  - destruct (flags =? 0) eqn:Hf; cbn [negb].
    + destruct (py_is_np_nan na) eqn:Hn; cbn [negb].
      * apply Z.eqb_eq in Hf. destruct Hopt as [Hopt | [Hopt | Hopt]];
          [discriminate | contradiction | discriminate].
      * eexists. reflexivity.
    + eexists. reflexivity.
  - eexists. reflexivity.
Qed.

Lemma C5_contains_unsupported_option_witness :
  (exists msg, contains (str example_column) "^a" (PyBool false) 0 NpNan true no_kwargs
               = ([], Raise (NotImplementedError msg))) /\
  (exists msg, contains (str example_column) "^a" (PyBool true) 2 NpNan true no_kwargs
               = ([], Raise (NotImplementedError msg))) /\
  (exists msg, contains (str example_column) "^a" (PyBool true) 0 (PyBool false) true no_kwargs
               = ([], Raise (NotImplementedError msg))).
Proof.
  split; [|split].
  - apply (C5_contains_unsupported_option (str example_column) "^a"
             (PyBool false) 0 NpNan true no_kwargs). left. reflexivity.
  - apply (C5_contains_unsupported_option (str example_column) "^a"
             (PyBool true) 2 NpNan true no_kwargs). right. left. lia.
  - apply (C5_contains_unsupported_option (str example_column) "^a"
             (PyBool true) 0 (PyBool false) true no_kwargs). right. right. reflexivity.
Defined.

(** With the default options the call reaches the device: the output array
    is allocated first. *)
Lemma contains_default_allocates `{Engine} (sm : StringMethods) (pat : string)
  (regex : bool) (kw : kwargs) :
  exists rest,
    trace_of (contains sm pat (PyBool true) 0 NpNan regex kw)
    = EvDeviceArray (len_ (_column sm)) Bool8 :: rest.
Proof.
  unfold contains. cbn [py_is_True py_is_np_nan negb Z.eqb].
  unfold dev_bind at 1. cbn [emit].
  match goal with |- context [let (t', r) := ?k in _] => destruct k as [t' r] end.
  exists t'. reflexivity.
Qed.

(** ** Replacement counts *)

Section ReplaceScan.

Variables (m : string -> option nat) (repl : string).

Lemma replaced_unlimited (s : string) :
  forall skip n pos, n < 0 ->
    snd (replace_scan m repl skip n pos s) = match_positions m skip pos s.
Proof.
  induction s as [|ch s IH]; intros skip n pos Hn; [reflexivity|].
  cbn [replace_scan match_positions].
  destruct skip as [|k]; [|apply IH; exact Hn].
  destruct (n =? 0) eqn:E; [apply Z.eqb_eq in E; lia|].
  destruct (m (String ch s)) as [[|k]|].
  - specialize (IH 0%nat n (S pos) Hn).
    destruct (replace_scan m repl 0 n (S pos) s). exact IH.
  - specialize (IH k (n - 1) (S pos) ltac:(lia)).
    destruct (replace_scan m repl k (n - 1) (S pos) s). cbn in *. f_equal. exact IH.
  - specialize (IH 0%nat n (S pos) Hn).
    destruct (replace_scan m repl 0 n (S pos) s). exact IH.
Qed.

Lemma replaced_capped (s : string) :
  forall skip n pos, 0 <= n ->
    snd (replace_scan m repl skip n pos s)
    = firstn (Z.to_nat n) (match_positions m skip pos s).
Proof.
  induction s as [|ch s IH]; intros skip n pos Hn.
  - cbn. rewrite firstn_nil. reflexivity.
  - cbn [replace_scan match_positions].
    destruct skip as [|k]; [|apply IH; exact Hn].
    destruct (n =? 0) eqn:E.
    + apply Z.eqb_eq in E. subst n.
      specialize (IH 0%nat 0 (S pos) Hn).
      destruct (replace_scan m repl 0 0 (S pos) s). cbn in *.
      rewrite IH. reflexivity.
    + apply Z.eqb_neq in E.
      destruct (m (String ch s)) as [[|k]|].
      * specialize (IH 0%nat n (S pos) Hn).
        destruct (replace_scan m repl 0 n (S pos) s). exact IH.
      * specialize (IH k (n - 1) (S pos) ltac:(lia)).
        destruct (replace_scan m repl k (n - 1) (S pos) s). cbn [snd] in *.
        replace (Z.to_nat n) with (S (Z.to_nat (n - 1))) by lia.
        cbn [firstn]. f_equal. exact IH.
      * specialize (IH 0%nat n (S pos) Hn).
        destruct (replace_scan m repl 0 n (S pos) s). exact IH.
Qed.

(** A row in which nothing is replaced is copied. *)
Lemma replace_scan_copies (s : string) :
  forall n pos, snd (replace_scan m repl 0 n pos s) = [] ->
    fst (replace_scan m repl 0 n pos s) = s.
Proof.
  induction s as [|ch s IH]; intros n pos H; [reflexivity|].
  cbn [replace_scan] in *.
  destruct (n =? 0).
  - specialize (IH n (S pos)).
    destruct (replace_scan m repl 0 n (S pos) s). cbn in *. f_equal. auto.
  - destruct (m (String ch s)) as [[|k]|].
    + specialize (IH n (S pos)).
      destruct (replace_scan m repl 0 n (S pos) s). cbn in *. f_equal. auto.
    + destruct (replace_scan m repl k (n - 1) (S pos) s). cbn in H. discriminate.
    + specialize (IH n (S pos)).
      destruct (replace_scan m repl 0 n (S pos) s). cbn in *. f_equal. auto.
Qed.

End ReplaceScan.

(** C4: [replace] with [n = 0] is [replace] with [n = -1]; the kernel is
    launched with [-1] in place of 0 and with any other [n] unchanged; with
    [n < 0] the kernel replaces every match of a row, and with [n > 0] it
    replaces the first [n] matches of the row and no other. *)
Theorem C4_replace_count `{Engine} (sm : StringMethods) (pat repl : string)
  (regex : bool) (kw : kwargs) :
  replace sm pat repl 0 PyNone 0 regex kw = replace sm pat repl (-1) PyNone 0 regex kw /\
  (forall n nvs, nvstrings (_column sm) = Ok nvs ->
     outcome (replace sm pat repl n PyNone 0 regex kw)
     = _return_or_inplace sm
         (nvstrings_replace nvs pat repl (if n =? 0 then -1 else n) regex) kw) /\
  (forall n s, n < 0 ->
     replaced_at (match_at pat regex) repl n s
     = match_positions (match_at pat regex) 0 0 s) /\
  (forall n s, 0 < n ->
     replaced_at (match_at pat regex) repl n s
     = firstn (Z.to_nat n) (match_positions (match_at pat regex) 0 0 s)).
Proof.
  repeat match goal with |- _ /\ _ => split end.
  - reflexivity.
  - intros n nvs Hnvs. unfold replace. cbn [py_is_None negb Z.eqb].
    rewrite Hnvs, outcome_bind_lift_ok, outcome_bind_emit, outcome_lift.
    reflexivity.
  - intros n s Hn. apply replaced_unlimited. exact Hn.
  - intros n s Hn. apply replaced_capped. lia.
Qed.

Lemma C4_replace_count_witness :
  outcome (replace (str aaaa_column) "a" "b" 2 PyNone 0 true no_kwargs)
  = Ok (RBare [Some "bbaa"]) /\
  outcome (replace (str aaaa_column) "a" "b" 0 PyNone 0 true no_kwargs)
  = Ok (RBare [Some "bbbb"]) /\
  replaced_at (match_at "a" true) "b" (-3) "aaaa" = [0; 1; 2; 3]%nat /\
  replaced_at (match_at "a" true) "b" 2 "aaaa" = [0; 1]%nat.
Proof.
  destruct (C4_replace_count (str aaaa_column) "a" "b" true no_kwargs)
    as (_ & Hkernel & Hall & Hcap).
  repeat match goal with |- _ /\ _ => split end.
  - rewrite (Hkernel 2 [Some "aaaa"] eq_refl). reflexivity.
  - rewrite (Hkernel 0 [Some "aaaa"] eq_refl). reflexivity.
  - rewrite (Hall (-3) "aaaa"); [reflexivity | lia].
  - rewrite (Hcap 2 "aaaa"); [reflexivity | lia].
Defined.

(** ** Splits *)

Section SplitScan.

Variables (a : ascii) (d : string).
Let delim := String a d.

Lemma cons_char_length (ch : ascii) (ts : list string) :
  ts <> [] -> List.length (cons_char ch ts) = List.length ts.
Proof. destruct ts; [contradiction | reflexivity]. Qed.

Lemma split_scan_nonempty (s : string) :
  forall skip n, split_scan delim skip n s <> [].
Proof.
  induction s as [|ch s IH]; intros skip n; cbn [split_scan]; [discriminate|].
  destruct skip as [|k]; [|apply IH].
  destruct ((n =? 0) || negb (String.prefix delim (String ch s))).
  - specialize (IH 0%nat n). destruct (split_scan delim 0 n s);
      [contradiction | discriminate].
  - discriminate.
Qed.

Lemma literal_match_delim (s : string) :
  literal_match_at delim s
  = if String.prefix delim s then Some (S (String.length d)) else None.
Proof. reflexivity. Qed.

(** Without a cap, a row is split at every occurrence of the delimiter. *)
Lemma split_scan_unlimited (s : string) :
  forall skip n pos, n < 0 ->
    List.length (split_scan delim skip n s)
    = S (List.length (match_positions (literal_match_at delim) skip pos s)).
Proof.
  induction s as [|ch s IH]; intros skip n pos Hn; [reflexivity|].
  cbn [split_scan match_positions].
  destruct skip as [|k]; [|apply IH; exact Hn].
  rewrite literal_match_delim.
  destruct (n =? 0) eqn:E; [apply Z.eqb_eq in E; lia|]. cbn [orb].
  destruct (String.prefix delim (String ch s)); cbn [negb].
  - cbn [List.length]. f_equal.
    replace (String.length delim - 1)%nat with (String.length d)
      by (unfold delim; cbn; lia).
    apply IH. lia.
  - rewrite cons_char_length by apply split_scan_nonempty. apply IH. exact Hn.
Qed.

(** With a cap [n], a row is split at the first [n] occurrences. *)
Lemma split_scan_capped (s : string) :
  forall skip n pos, 0 <= n ->
    List.length (split_scan delim skip n s)
    = S (List.length (firstn (Z.to_nat n)
                        (match_positions (literal_match_at delim) skip pos s))).
Proof.
  induction s as [|ch s IH]; intros skip n pos Hn.
  - cbn. rewrite firstn_nil. reflexivity.
  - cbn [split_scan match_positions].
    destruct skip as [|k]; [|apply IH; exact Hn].
    rewrite literal_match_delim.
    destruct (n =? 0) eqn:E; cbn [orb].
    + apply Z.eqb_eq in E. subst n.
      rewrite cons_char_length by apply split_scan_nonempty.
      rewrite (IH 0%nat 0 (S pos)) by lia. reflexivity.
    + apply Z.eqb_neq in E.
      destruct (String.prefix delim (String ch s)); cbn [negb].
      * replace (Z.to_nat n) with (S (Z.to_nat (n - 1))) by lia.
        cbn [List.length firstn]. f_equal.
        replace (String.length delim - 1)%nat with (String.length d)
          by (unfold delim; cbn; lia).
        apply IH. lia.
      * rewrite cons_char_length by apply split_scan_nonempty. apply IH. exact Hn.
Qed.

End SplitScan.

Lemma effective_delimiter_nonempty (delimiter : option string) :
  exists a d, effective_delimiter delimiter = String a d.
Proof.
  destruct delimiter as [[|a d]|]; cbn; eauto.
Qed.

(** C7: [split] with [n = 0] is [split] with [n = -1]; the kernel is
    launched with [-1] in place of 0, and with [-1] it splits a row at every
    occurrence of the delimiter; [split] without a delimiter is [split] on
    a single space. *)
Theorem C7_split_normalisation (sm : StringMethods) (pat : option string) (kw : kwargs) :
  split sm pat 0 (PyBool true) kw = split sm pat (-1) (PyBool true) kw /\
  (forall n nvs, nvstrings (_column sm) = Ok nvs ->
     outcome (split sm pat n (PyBool true) kw)
     = _return_or_inplace sm (nvstrings_split nvs pat (if n =? 0 then -1 else n))
                          (setdefault_expand kw true)) /\
  (forall s,
     List.length (split_row pat (-1) s)
     = S (List.length (match_positions (literal_match_at (effective_delimiter pat)) 0 0 s))) /\
  (forall n, split sm None n (PyBool true) kw = split sm (Some " ") n (PyBool true) kw).
Proof.
  repeat match goal with |- _ /\ _ => split end.
  - reflexivity.
  - intros n nvs Hnvs. unfold split. cbn [py_is_True negb].
    rewrite Hnvs, outcome_bind_lift_ok, outcome_bind_emit, outcome_lift.
    reflexivity.
  - intros s. unfold split_row.
    destruct (effective_delimiter_nonempty pat) as (a & d & ->).
    apply split_scan_unlimited. lia.
  - reflexivity.
Qed.

Lemma C7_split_normalisation_witness :
  outcome (split (mkStringMethods example_column (PSeries returning)) None 0 (PyBool true)
             no_kwargs)
  = Ok (RExpanded [[Some "apple"; None; Some "pie"]]) /\
  outcome (split (mkStringMethods example_column (PSeries returning)) (Some "p") 0
             (PyBool true) no_kwargs)
  = Ok (RExpanded [[Some "a"; None; Some ""]; [Some ""; None; Some "ie"];
                   [Some "le"; None; None]]).
Proof.
  destruct (C7_split_normalisation (mkStringMethods example_column (PSeries returning)) None no_kwargs)
    as (_ & Hnone & _).
  destruct (C7_split_normalisation (mkStringMethods example_column (PSeries returning)) (Some "p")
              no_kwargs) as (_ & Hp & _).
  split.
  - rewrite (Hnone 0 [Some "apple"; None; Some "pie"] eq_refl). reflexivity.
  - rewrite (Hp 0 [Some "apple"; None; Some "pie"] eq_refl). reflexivity.
Defined.

(** ** Datetime casts *)





(** ** Operators *)

(** C10, as stated, fails: with the operator "add", reflected, and a Python
    int as the other operand, the call raises [AttributeError], not
    [TypeError]. *)
Lemma C10_type_error_claim_fails :
  ~ (forall (self : StringColumn) (binop : string) (rhs : operand) (reflect : bool),
       is_string_column rhs = false \/ binop <> "add" ->
       exists msg, outcome (binary_operator self binop rhs reflect) = Raise (TypeError msg)).
Proof.
  intros Hclaim.
  destruct (Hclaim abc_column "add" (scalar_operand "<class 'int'>") true) as [msg Hmsg].
  - left. reflexivity.
  - cbn in Hmsg. discriminate.
Qed.

Lemma fill_na_none (r : option string) : fill_na None r = r.
Proof. destruct r; reflexivity. Qed.

Lemma cat_with_others (lc rc : StringColumn) (a b : rows) :
  nvstrings lc = Ok a -> nvstrings rc = Ok b ->
  outcome (cat (str lc) (Some rc) None None no_kwargs)
  = if (List.length a =? List.length b)%nat
    then Ok (CatReturned (RBare (concatenated a b)))
    else Raise (EngineError "ShapeMismatch").
Proof.
  intros Ha Hb. unfold cat. rewrite Hb. cbn [bind].
  rewrite outcome_bind_lift_ok. cbn [_column str]. rewrite Ha.
  rewrite outcome_bind_lift_ok, outcome_bind_emit.
  unfold nvstrings_cat, concatenated.
  destruct (List.length a =? List.length b)%nat.
  - rewrite outcome_bind_lift_ok. cbn [_return_or_inplace kw_inplace no_kwargs str _parent
      kw_expand]. rewrite outcome_bind_lift_ok. cbn [payload].
    rewrite (map_ext _ (fun p => cat_rows EmptyString (fst p) (snd p)))
      by (intros p; rewrite !fill_na_none; reflexivity).
    destruct (map _ (combine a b)) as [|x [|y l]]; reflexivity.
  - reflexivity.
Qed.

(** C10, amended: not reflected, [binary_operator] is [cat] of the column
    with [others=rhs], the row-wise concatenation, when the operator is
    "add" and the right-hand side is a string column, and raises
    [TypeError] without any device work for every other operator or
    right-hand side.  Reflected, the operands are swapped first: an operator
    other than "add" raises [TypeError], and "add" with a string column is
    [cat] of that column with [others=self]. *)
Theorem C10_binary_operator_dispatch (self : StringColumn) (binop : string) (rhs : operand) :
  (forall rc, rhs = OStringColumn rc -> binop = "add" ->
     binary_operator self binop rhs false = cat (str self) (Some rc) None None no_kwargs) /\
  (forall rc a b, rhs = OStringColumn rc -> binop = "add" ->
     nvstrings self = Ok a -> nvstrings rc = Ok b -> List.length a = List.length b ->
     outcome (binary_operator self binop rhs false)
     = Ok (CatReturned (RBare (concatenated a b)))) /\
  (is_string_column rhs = false \/ binop <> "add" ->
     exists msg, binary_operator self binop rhs false = ([], Raise (TypeError msg))) /\
  (binop <> "add" ->
     exists msg, binary_operator self binop rhs true = ([], Raise (TypeError msg))) /\
  (forall rc, rhs = OStringColumn rc -> binop = "add" ->
     binary_operator self binop rhs true = cat (str rc) (Some self) None None no_kwargs).
Proof.
  repeat match goal with |- _ /\ _ => split end.
  - intros rc -> ->. reflexivity.
  - intros rc a b -> -> Ha Hb Hlen. cbn [binary_operator String.eqb Ascii.eqb Bool.eqb].
    change (binary_operator self "add" (OStringColumn rc) false)
      with (cat (str self) (Some rc) None None no_kwargs).
    rewrite (cat_with_others self rc a b Ha Hb), Hlen, Nat.eqb_refl. reflexivity.
  - intros Hother. unfold binary_operator.
    destruct rhs as [rc | t f].
    + destruct Hother as [Hs | Hop]; [discriminate|].
      destruct (String.eqb binop "add") eqn:E.
      * apply String.eqb_eq in E. contradiction.
      * eexists. reflexivity.
    + eexists. reflexivity.
  - intros Hop. unfold binary_operator.
    destruct (String.eqb binop "add") eqn:E.
    + apply String.eqb_eq in E. contradiction.
    + eexists. reflexivity.
  - intros rc -> ->. reflexivity.
Qed.

Lemma C10_binary_operator_dispatch_witness :
  outcome (binary_operator abc_column "add" (OStringColumn aaaa_column) false)
  = Ok (CatReturned (RBare [Some "abcaaaa"])) /\
  (exists msg, binary_operator abc_column "sub" (OStringColumn aaaa_column) false
               = ([], Raise (TypeError msg))) /\
  (exists msg, binary_operator abc_column "add" (scalar_operand "<class 'int'>") false
               = ([], Raise (TypeError msg))) /\
  (exists msg, binary_operator abc_column "sub" (scalar_operand "<class 'int'>") true
               = ([], Raise (TypeError msg))) /\
  binary_operator abc_column "add" (OStringColumn aaaa_column) true
  = cat (str aaaa_column) (Some abc_column) None None no_kwargs.
Proof.
  repeat match goal with |- _ /\ _ => split end.
  - destruct (C10_binary_operator_dispatch abc_column "add" (OStringColumn aaaa_column))
      as (_ & Hrows & _).
    apply (Hrows aaaa_column [Some "abc"] [Some "aaaa"]); reflexivity.
  - destruct (C10_binary_operator_dispatch abc_column "sub" (OStringColumn aaaa_column))
      as (_ & _ & Herr & _).
    apply Herr. right. discriminate.
  - destruct (C10_binary_operator_dispatch abc_column "add" (scalar_operand "<class 'int'>"))
      as (_ & _ & Herr & _).
    apply Herr. left. reflexivity.
  - destruct (C10_binary_operator_dispatch abc_column "sub" (scalar_operand "<class 'int'>"))
      as (_ & _ & _ & Herr & _).
    apply Herr. discriminate.
  - destruct (C10_binary_operator_dispatch abc_column "add" (OStringColumn aaaa_column))
      as (_ & _ & _ & _ & Hrefl).
    apply (Hrefl aaaa_column); reflexivity.
Defined.

(** ** Membership *)

(** C9 at the item "a.c": the column holds the single row "abc", no row
    equals the item, and yet the membership test answers [True], because the
    item is spliced into the pattern unescaped and its [.] matches the
    [b]. *)
Theorem C9_membership_wildcard_item :
  nvstrings abc_column = Ok [Some "abc"] /\
  ~ In (Some "a.c") [Some "abc"] /\
  outcome (@__contains__ reference_engine abc_column "a.c") = Ok true.
Proof.
  repeat match goal with |- _ /\ _ => split end.
  - reflexivity.
  - intros [H | []]. discriminate.
  - reflexivity.
Qed.

Lemma append_not_empty (s : string) (a : ascii) :
  match String.append s (String a EmptyString) with
  | EmptyString => true
  | _ => false
  end = false.
Proof. destruct s; reflexivity. Qed.

(** A plain item followed by [$] matches a text exactly when the text is
    the item. *)
Lemma regex_here_plain (item : string) :
  plain item = true ->
  forall s, (exists k, regex_here (String.append item "$") s = Some k) <-> s = item.
Proof.
  induction item as [|a item IH]; intros Hp s.
  - cbn. destruct s; split; intros H; try discriminate; try reflexivity.
    + exists 0%nat. reflexivity.
    + destruct H as [k H]. discriminate.
  - cbn [plain] in Hp. apply andb_true_iff in Hp. destruct Hp as [Ha Hp].
    cbn [String.append regex_here]. rewrite append_not_empty, andb_false_r.
    assert (Hdot : Ascii.eqb a "." = false).
    { destruct (Ascii.eqb a ".") eqn:E; [|reflexivity].
      apply Ascii.eqb_eq in E. subst a. discriminate. }
    rewrite Hdot. cbn [orb].
    destruct s as [|ch s].
    + split; [intros [k H]; discriminate | discriminate].
    + destruct (Ascii.eqb a ch) eqn:E.
      * apply Ascii.eqb_eq in E. subst ch.
        split.
        -- intros [k H].
           destruct (regex_here (String.append item "$") s) as [k'|] eqn:E'; [|discriminate].
           f_equal. apply (IH Hp). exists k'. exact E'.
        -- intros H. injection H as ->.
           destruct (proj2 (IH Hp item) eq_refl) as [k' Hk]. rewrite Hk.
           exists (S k'). reflexivity.
      * apply Ascii.eqb_neq in E.
        split; [intros [k H]; discriminate | intros H; injection H as -> _; contradiction].
Qed.

Lemma reference_contains_anchored (item s : string) :
  plain item = true ->
  reference_contains (String.append "^" (String.append item "$")) true s = true
  <-> s = item.
Proof.
  intros Hp. cbn [reference_contains String.append].
  rewrite <- (regex_here_plain item Hp s).
  destruct (regex_here (String.append item "$") s) as [k|].
  - split; [eauto | reflexivity].
  - split; [discriminate | intros [k H]; discriminate].
Qed.

Lemma kernel_fill_nth (n : Z) (vals : list Z) (r : nat) :
  (r < Z.to_nat n)%nat -> nth r (kernel_fill n vals) 0 = nth r vals 0.
Proof.
  intros Hr. unfold kernel_fill.
  rewrite (nth_indep _ 0 (nth 0%nat vals 0)) by (rewrite length_map, length_seq; exact Hr).
  rewrite (map_nth (fun i => nth i vals 0)), seq_nth by exact Hr. reflexivity.
Qed.

(** Row [r] of the engine object is absent exactly when the column has a
    null at row [r]. *)
Lemma nvstrings_row_null (c : StringColumn) (nvs : rows) (r : nat) :
  nvstrings c = Ok nvs -> (r < Z.to_nat (size c))%nat ->
  (nth r nvs None = None <-> row_is_null c r = true).
Proof.
  unfold nvstrings. intros H Hr.
  destruct (size c =? 0) eqn:Hz; [apply Z.eqb_eq in Hz; lia|].
  destruct (children c) as [ch|e]; [|discriminate]. cbn [bind] in H.
  destruct ch as [|o [|chars rest]]; try discriminate.
  injection H as <-.
  set (f := fun r0 : nat => if nullable c && row_is_null c r0 then None
                            else Some (string_of_bytes (string_at o chars (Z.of_nat r0)))).
  rewrite (nth_indep _ None (f 0%nat)) by (rewrite length_map, length_seq; exact Hr).
  rewrite (map_nth f), seq_nth by exact Hr. cbn [Nat.add]. unfold f.
  rewrite nullable_and_null.
  destruct (row_is_null c r); split; intros; try reflexivity; discriminate.
Qed.

(** With the reference engine and a plain item, the membership test of a
    well-formed column answers [True] exactly when a row is the item. *)
Theorem membership_of_plain_item (c : StringColumn) (item : string) (nvs : rows) :
  well_formed c -> plain item = true -> nvstrings c = Ok nvs ->
  (outcome (@__contains__ reference_engine c item) = Ok true <-> In (Some item) nvs).
Proof.
  intros Hwf Hp Hnvs.
  destruct (nvstrings_ok c Hwf) as (nvs' & Hnvs' & Hlen).
  rewrite Hnvs in Hnvs'. injection Hnvs' as <-.
  pose proof Hwf as (Hs & _).
  set (pat := String.append "^" (String.append item "$")).
  set (vals := map (row_value (fun s => Z.b2z (reference_contains pat true s))) nvs).
  set (out := build_column_of_buffer (kernel_fill (len_ c) vals) Bool8
                (if has_nulls c then mask c else None)).
  assert (Hout : outcome (@__contains__ reference_engine c item)
                 = Ok (column_contains_true out)).
  { unfold __contains__, contains. cbn [py_is_True py_is_np_nan negb Z.eqb str _column].
    rewrite Hnvs. reflexivity. }
  rewrite Hout.
  pose proof (built_output_propagates c vals Bool8 Hs) as (Hsz & _ & _ & Hnull).
  fold out in Hsz, Hnull.
  assert (Helt : forall r, (r < Z.to_nat (size c))%nat ->
            nth r (col_elements out) 0
            = row_value (fun s => Z.b2z (reference_contains pat true s)) (nth r nvs None)).
  { intros r Hr. unfold out. rewrite col_elements_of_buffer, kernel_fill_nth by exact Hr.
    unfold vals.
    exact (map_nth (row_value (fun s => Z.b2z (reference_contains pat true s)))
             nvs None r). }
  split.
  - intros H. injection H as H. unfold column_contains_true in H.
    apply existsb_exists in H. destruct H as (r & Hin & Hr).
    apply in_seq in Hin. rewrite Hsz in Hin.
    apply andb_true_iff in Hr. destruct Hr as [_ Hone]. apply Z.eqb_eq in Hone.
    rewrite Helt in Hone by lia.
    destruct (nth r nvs None) as [s|] eqn:Hrow; [|discriminate].
    cbn [row_value] in Hone.
    destruct (reference_contains pat true s) eqn:Hm; [|discriminate].
    apply (reference_contains_anchored item s Hp) in Hm. subst s.
    rewrite <- Hrow. apply nth_In. lia.
  - intros Hin. f_equal. unfold column_contains_true.
    apply existsb_exists.
    destruct (In_nth _ _ None Hin) as (r & Hr & Hrow).
    exists r. split; [apply in_seq; rewrite Hsz; lia|].
    rewrite Hnull by lia. rewrite Helt by lia. rewrite Hrow. cbn [row_value].
    pose proof (proj2 (reference_contains_anchored item item Hp) eq_refl) as Hself.
    fold pat in Hself. rewrite Hself.
    destruct (row_is_null c r) eqn:Hn; [|reflexivity].
    apply (nvstrings_row_null c nvs r Hnvs) in Hn; [|lia].
    rewrite Hrow in Hn. discriminate.
Qed.


(* ================================================================== *)
(** * Part III: further properties of the module *)
(* ================================================================== *)

(** ** [_return_or_inplace] *)

(** X1: without a parent [_return_or_inplace] raises [AttributeError]
    exactly when the call asks for an in-place update or for an expanded
    frame, and hands back the bare column otherwise.  With a parent it makes
    one call into the owner: it raises only what that call raises, and it
    returns whenever the calls of the owner return.  Whenever it returns, it
    hands back the very column it was given, as an in-place update exactly
    when [inplace] is set. *)
Theorem return_or_inplace_characterised {A : Type} (sm : StringMethods) (x : A)
  (kw : kwargs) :
  (_parent sm = PNone ->
     _return_or_inplace sm x kw
     = if kw_inplace kw || match kw_expand kw with Some b => b | None => false end
       then Raise AttributeError else Ok (RBare x)) /\
  (forall o e, owner_of (_parent sm) = Some o ->
     _return_or_inplace sm x kw = Raise e -> owner_raises o e) /\
  (forall o, owner_of (_parent sm) = Some o -> (forall e, ~ owner_raises o e) ->
     exists r, _return_or_inplace sm x kw = Ok r) /\
  (forall o e, owner_of (_parent sm) = Some o -> mimic_inplace o true = Some e ->
     kw_inplace kw = true -> _return_or_inplace sm x kw = Raise e) /\
  (forall r, _return_or_inplace sm x kw = Ok r ->
     payload r = x /\ (r = RInplace x <-> kw_inplace kw = true)).
Proof.
  unfold _return_or_inplace, owner_raises, owner_call.
  repeat match goal with |- _ /\ _ => split end.
  - intros ->. destruct (kw_inplace kw); [reflexivity|].
    destruct (kw_expand kw) as [[|]|]; reflexivity.
  - intros o e Ho Hraise.
    destruct (_parent sm) as [|p|p|p|p|p]; cbn in Ho; try discriminate;
      injection Ho as ->;
      destruct (kw_inplace kw); destruct (kw_expand kw) as [[|]|];
      repeat match type of Hraise with
             | match ?m with Some _ => _ | None => _ end = _ =>
                 let E := fresh "E" in destruct m eqn:E
             end;
      try discriminate; injection Hraise as <-; eauto.
  - intros o Ho Hnone.
    assert (Hm : forall b, mimic_inplace o b = None).
    { intros b. destruct (mimic_inplace o b) as [e|] eqn:E; [|reflexivity].
      exfalso. apply (Hnone e). left. exists b. exact E. }
    assert (He : constructor_expanddim o = None).
    { destruct (constructor_expanddim o) as [e|] eqn:E; [|reflexivity].
      exfalso. apply (Hnone e). right. left. first [exact E | reflexivity]. }
    assert (Hs : make_series o = None).
    { destruct (make_series o) as [e|] eqn:E; [|reflexivity].
      exfalso. apply (Hnone e). right. right. left. first [exact E | reflexivity]. }
    assert (Hi : as_index o = None).
    { destruct (as_index o) as [e|] eqn:E; [|reflexivity].
      exfalso. apply (Hnone e). right. right. right. first [exact E | reflexivity]. }
    destruct (_parent sm) as [|p|p|p|p|p]; cbn in Ho; try discriminate;
      injection Ho as ->;
      destruct (kw_inplace kw); destruct (kw_expand kw) as [[|]|];
      rewrite ?Hm, ?He, ?Hs, ?Hi; eexists; reflexivity.
  - intros o e Ho Hm Hin. rewrite Hin.
    destruct (_parent sm) as [|p|p|p|p|p]; cbn in Ho; try discriminate;
      injection Ho as ->; rewrite Hm; reflexivity.
  - intros r Hr.
    destruct (_parent sm) as [|p|p|p|p|p];
      destruct (kw_inplace kw); destruct (kw_expand kw) as [[|]|];
      repeat match type of Hr with
             | match ?m with Some _ => _ | None => _ end = _ => destruct m
             end;
      try discriminate; injection Hr as <-;
      (split; [reflexivity | split; intros; (reflexivity || discriminate)]).
Qed.

Lemma return_or_inplace_characterised_witness :
  _return_or_inplace (str example_column) example_slice (mkKwargs true None)
  = Raise AttributeError /\
  _return_or_inplace
    (mkStringMethods example_column
       (POther (mkOwner (fun _ => Some AttributeError) None None None)))
    example_slice (mkKwargs true None)
  = Raise AttributeError /\
  (exists r, _return_or_inplace (mkStringMethods example_column (PSeries returning))
               example_slice no_kwargs = Ok r) /\
  payload (RSeries example_slice) = example_slice.
Proof.
  destruct (return_or_inplace_characterised (str example_column) example_slice
              (mkKwargs true None)) as (Hnone & _).
  destruct (return_or_inplace_characterised
              (mkStringMethods example_column
                 (POther (mkOwner (fun _ => Some AttributeError) None None None)))
              example_slice (mkKwargs true None)) as (_ & _ & _ & Hmimic & _).
  destruct (return_or_inplace_characterised (mkStringMethods example_column (PSeries returning))
              example_slice no_kwargs) as (_ & _ & Hret & _ & Hok).
  repeat match goal with |- _ /\ _ => split end.
  - apply Hnone. reflexivity.
  - apply (Hmimic (mkOwner (fun _ => Some AttributeError) None None None) AttributeError);
      reflexivity.
  - apply (Hret returning); [reflexivity|].
    intros e [[b Hb] | [He | [He | He]]]; discriminate.
  - apply (Hok (RSeries example_slice)). reflexivity.
Defined.

(** ** Argument checks come first *)

(** X2: [replace] with [case] other than [None] or [flags] other than 0,
    [split] with [expand] other than [True], and [extract] with [flags]
    other than 0 raise [NotImplementedError] before the engine object is
    built or any kernel is launched. *)
Theorem unsupported_options_raise_first `{Engine} `{StringKernels}
  (sm : StringMethods) (pat repl : string) (delimiter : option string) (n : Z)
  (case expand : pyval) (flags : Z) (regex expand_groups : bool) (kw : kwargs) :
  (py_is_None case = false \/ flags <> 0 ->
     exists msg, replace sm pat repl n case flags regex kw
                 = ([], Raise (NotImplementedError msg))) /\
  (py_is_True expand = false ->
     exists msg, split sm delimiter n expand kw = ([], Raise (NotImplementedError msg))) /\
  (flags <> 0 ->
     exists msg, extract sm pat flags expand_groups kw
                 = ([], Raise (NotImplementedError msg))).
Proof.
  repeat match goal with |- _ /\ _ => split end.
  - intros Hopt. unfold replace.
    destruct (py_is_None case); cbn [negb]; [|eexists; reflexivity].
    destruct (flags =? 0) eqn:Hf; cbn [negb]; [|eexists; reflexivity].
    apply Z.eqb_eq in Hf. destruct Hopt as [Hc | Hfl]; [discriminate | contradiction].
  - intros Hexp. unfold split. rewrite Hexp. eexists. reflexivity.
  - intros Hfl. unfold extract.
    destruct (flags =? 0) eqn:Hf; cbn [negb]; [|eexists; reflexivity].
    apply Z.eqb_eq in Hf. contradiction.
Qed.

Lemma unsupported_options_raise_first_witness :
  (exists msg, replace (str example_column) "a" "b" (-1) (PyBool true) 0 true no_kwargs
               = ([], Raise (NotImplementedError msg))) /\
  (exists msg, split (str example_column) None (-1) (PyBool false) no_kwargs
               = ([], Raise (NotImplementedError msg))) /\
  (exists msg, extract (str example_column) "(a)" 2 true no_kwargs
               = ([], Raise (NotImplementedError msg))).
Proof.
  destruct (unsupported_options_raise_first (str example_column) "a" "b" None (-1)
              (PyBool true) (PyBool false) 0 true true no_kwargs) as (Hreplace & Hsplit & _).
  destruct (unsupported_options_raise_first (str example_column) "(a)" "b" None (-1)
              PyNone (PyBool true) 2 true true no_kwargs) as (_ & _ & Hextract).
  repeat match goal with |- _ /\ _ => split end.
  - apply Hreplace. left. reflexivity.
  - apply Hsplit. reflexivity.
  - apply Hextract. lia.
Defined.

(** ** Calls that cannot succeed *)

(** X3: [split] on an accessor without a parent, as [StringColumn.str()]
    makes it, never returns a table: it raises, whatever the column, the
    delimiter and the count are.  On a well-formed column with [expand=True]
    the kernel is launched first and [AttributeError] is raised after it.
    The keyword [expand] of [split] is a parameter of its own, so it is
    never among the other keyword arguments. *)
Theorem split_without_parent_raises (c : StringColumn) (pat : option string) (n : Z)
  (expand : pyval) (kw : kwargs) :
  kw_expand kw = None ->
  (exists e, outcome (split (str c) pat n expand kw) = Raise e) /\
  (well_formed c ->
     split (str c) pat n (PyBool true) kw = ([EvKernel "split"], Raise AttributeError)).
Proof.
  intros Hkw. split.
  - unfold split. destruct (py_is_True expand); cbn [negb]; [|eexists; reflexivity].
    destruct (nvstrings (_column (str c))) as [nvs|e] eqn:Hnvs.
    + rewrite outcome_bind_lift_ok, outcome_bind_emit, outcome_lift.
      unfold _return_or_inplace, setdefault_expand. rewrite Hkw. cbn.
      destruct (kw_inplace kw); eexists; reflexivity.
    + eexists. reflexivity.
  - intros Hwf. destruct (nvstrings_ok c Hwf) as (nvs & Hnvs & _).
    unfold split. cbn [py_is_True negb str _column]. rewrite Hnvs.
    unfold _return_or_inplace, setdefault_expand. rewrite Hkw. cbn.
    destruct (kw_inplace kw); reflexivity.
Qed.

Lemma split_without_parent_raises_witness :
  (exists e, outcome (split (str example_column) (Some ",") 1 (PyBool true) no_kwargs)
             = Raise e) /\
  split (str example_column) (Some ",") 1 (PyBool true) no_kwargs
  = ([EvKernel "split"], Raise AttributeError).
Proof.
  destruct (split_without_parent_raises example_column (Some ",") 1 (PyBool true)
              no_kwargs eq_refl) as (Hraise & Hattr).
  split; [exact Hraise | apply Hattr; wf_by_computation].
Defined.

Lemma cat_after_engine (sm : StringMethods) (others : option StringColumn)
  (sep na_rep : option string) (kw : kwargs) (nvs o data : rows) :
  nvstrings (_column sm) = Ok nvs ->
  match others with
  | Some oc => nvstrings oc = Ok o
  | None => True
  end ->
  nvstrings_cat nvs (option_map (fun _ => o) others) sep na_rep = Ok data ->
  outcome (cat sm others sep na_rep kw)
  = match _return_or_inplace sm data kw with
    | Raise e => Raise e
    | Ok (RInplace _) => Raise (TypeError "object of type 'NoneType' has no len()")
    | Ok out =>
        match payload out, others with
        | [r], None => Ok (CatScalar r)
        | _, _ => Ok (CatReturned out)
        end
    end.
Proof.
  intros Hnvs Ho Hdata. unfold cat.
  assert (Hothers : match others with
                    | Some oc => o0 <- nvstrings oc;; Ok (Some o0)
                    | None => Ok None
                    end = Ok (option_map (fun _ => o) others)).
  { destruct others as [oc|]; [rewrite Ho|]; reflexivity. }
  rewrite Hothers, outcome_bind_lift_ok, Hnvs, outcome_bind_lift_ok,
    outcome_bind_emit, Hdata, outcome_bind_lift_ok.
  destruct (_return_or_inplace sm data kw) as [out|e]; [|reflexivity].
  rewrite outcome_bind_lift_ok.
  destruct out; try reflexivity;
    destruct (payload _) as [|r [|r' l]]; destruct others; reflexivity.
Qed.

(** X4: [cat] called with [inplace=True] never returns.  When the engine
    calls succeed, it raises [AttributeError] without a parent; with a
    parent it raises what the [_mimic_inplace] of the owner raises, and when
    that call returns, [_return_or_inplace] gives [None] and [len(out)]
    raises [TypeError]. *)
Theorem cat_inplace_raises (sm : StringMethods) (others : option StringColumn)
  (sep na_rep : option string) (kw : kwargs) :
  kw_inplace kw = true ->
  (exists e, outcome (cat sm others sep na_rep kw) = Raise e) /\
  (forall nvs o data,
     nvstrings (_column sm) = Ok nvs ->
     match others with
     | Some oc => nvstrings oc = Ok o
     | None => True
     end ->
     nvstrings_cat nvs (option_map (fun _ => o) others) sep na_rep = Ok data ->
     (_parent sm = PNone ->
        outcome (cat sm others sep na_rep kw) = Raise AttributeError) /\
     (forall ow, owner_of (_parent sm) = Some ow ->
        outcome (cat sm others sep na_rep kw)
        = match mimic_inplace ow true with
          | Some e => Raise e
          | None => Raise (TypeError "object of type 'NoneType' has no len()")
          end)).
Proof.
  intros Hin. split.
  - unfold cat.
    destruct (match others with
              | Some oc => o <- nvstrings oc;; Ok (Some o)
              | None => Ok None
              end) as [onvs|e]; [|eexists; reflexivity].
    rewrite outcome_bind_lift_ok.
    destruct (nvstrings (_column sm)) as [nvs|e]; [|eexists; reflexivity].
    rewrite outcome_bind_lift_ok, outcome_bind_emit.
    destruct (nvstrings_cat nvs onvs sep na_rep) as [data|e]; [|eexists; reflexivity].
    rewrite outcome_bind_lift_ok.
    unfold _return_or_inplace, owner_call. rewrite Hin.
    destruct (_parent sm) as [|p|p|p|p|p]; try (eexists; reflexivity);
      destruct (mimic_inplace p true); eexists; reflexivity.
  - intros nvs o data Hnvs Ho Hdata.
    rewrite (cat_after_engine sm others sep na_rep kw nvs o data Hnvs Ho Hdata).
    unfold _return_or_inplace, owner_call. rewrite Hin. split.
    + intros ->. reflexivity.
    + intros ow How.
      destruct (_parent sm) as [|p|p|p|p|p]; cbn in How; try discriminate;
        injection How as ->; destruct (mimic_inplace ow true); reflexivity.
Qed.

Lemma cat_inplace_raises_witness :
  outcome (cat (mkStringMethods abc_column (PSeries returning)) (Some aaaa_column) None None
               (mkKwargs true None))
  = Raise (TypeError "object of type 'NoneType' has no len()") /\
  outcome (cat (str abc_column) (Some aaaa_column) None None (mkKwargs true None))
  = Raise AttributeError.
Proof.
  split.
  - exact (proj2 (proj2 (cat_inplace_raises
                           (mkStringMethods abc_column (PSeries returning))
                           (Some aaaa_column) None None (mkKwargs true None) eq_refl)
                    [Some "abc"] [Some "aaaa"] [Some "abcaaaa"] eq_refl eq_refl eq_refl)
             returning eq_refl).
  - exact (proj1 (proj2 (cat_inplace_raises (str abc_column) (Some aaaa_column) None None
                           (mkKwargs true None) eq_refl)
                    [Some "abc"] [Some "aaaa"] [Some "abcaaaa"] eq_refl eq_refl eq_refl)
             eq_refl).
Defined.

(** ** Keyword arguments that are not honoured *)

(** X5: the five character-class predicates do not pass their keyword
    arguments on: the result is the same whatever they are, and it is never
    an in-place update of the owner, also when [inplace=True] is passed. *)
Theorem char_predicates_ignore_kwargs `{StringKernels} (sm : StringMethods)
  (kw kw' : kwargs) :
  (isdecimal sm kw = isdecimal sm kw' /\ isalnum sm kw = isalnum sm kw' /\
   isalpha sm kw = isalpha sm kw' /\ isdigit sm kw = isdigit sm kw' /\
   isnumeric sm kw = isnumeric sm kw') /\
  (forall r x,
     isdecimal sm kw = Ok r \/ isalnum sm kw = Ok r \/ isalpha sm kw = Ok r \/
     isdigit sm kw = Ok r \/ isnumeric sm kw = Ok r ->
     r <> RInplace x).
Proof.
  split; [repeat split|].
  intros r x Hr Heq. subst r.
  unfold isdecimal, isalnum, isalpha, isdigit, isnumeric in Hr.
  assert (Hno : forall out : Column,
            _return_or_inplace sm out no_kwargs <> Ok (RInplace x)).
  { intros out. unfold _return_or_inplace, owner_call. cbn.
    destruct (_parent sm) as [|p|p|p|p|p]; try discriminate;
      repeat match goal with
             | |- context [match ?m with Some _ => _ | None => _ end] => destruct m
             end; discriminate. }
  destruct Hr as [Hr | [Hr | [Hr | [Hr | Hr]]]];
    match type of Hr with
    | bind ?k _ = _ => destruct k as [out|e]; cbn [bind] in Hr;
                       [exact (Hno out Hr) | discriminate]
    end.
Qed.

Lemma char_predicates_ignore_kwargs_witness :
  @isdigit reference_kernels (mkStringMethods example_column (PSeries returning))
    (mkKwargs true None)
  = Ok (RSeries (build_column_of_buffer [0; 0; 0] Bool8 None)) /\
  forall x,
    @isdigit reference_kernels (mkStringMethods example_column (PSeries returning))
      (mkKwargs true None)
    <> Ok (RInplace x).
Proof.
  split; [reflexivity|].
  intros x Hx.
  apply (proj2 (@char_predicates_ignore_kwargs reference_kernels
                  (mkStringMethods example_column (PSeries returning)) (mkKwargs true None) no_kwargs)
           (RInplace x) x);
    [right; right; right; left; exact Hx | reflexivity].
Defined.

(** ** The checks of [wrap] *)

Ltac no_launch Hin :=
  cbn [fst] in Hin;
  repeat match type of Hin with
         | context [if ?b then _ else _] => destruct b
         end;
  cbn in Hin; intuition discriminate.

(** X6: [wrap] launches its kernel exactly when the width is an integer,
    [expand_tabs] and [break_long_words] are not [True], and
    [replace_whitespace] and [drop_whitespace] are true; a width that is not
    an integer raises [TypeError] before any warning.  The keyword
    [break_on_hyphens] never makes the call raise: the check made for it
    looks at [break_long_words]. *)
Theorem wrap_checks `{StringKernels} (sm : StringMethods) (width : pyval)
  (expand_tabs replace_whitespace drop_whitespace break_long_words : option pyval)
  (rest : kwargs) :
  (forall boh,
     In WrapLaunched
        (fst (wrap sm width (mkWrapKwargs expand_tabs replace_whitespace drop_whitespace
                                          break_long_words boh rest)))
     <-> (exists w, width = PyInt w) /\
         py_is_True (kw_get expand_tabs PyNone) = false /\
         py_truthy (kw_get replace_whitespace (PyBool true)) = true /\
         py_truthy (kw_get drop_whitespace (PyBool true)) = true /\
         py_is_True (kw_get break_long_words PyNone) = false) /\
  (forall boh, (forall w, width <> PyInt w) ->
     exists msg,
       wrap sm width (mkWrapKwargs expand_tabs replace_whitespace drop_whitespace
                                   break_long_words boh rest)
       = ([], Raise (TypeError msg))) /\
  (forall boh boh',
     snd (wrap sm width (mkWrapKwargs expand_tabs replace_whitespace drop_whitespace
                                      break_long_words boh rest))
     = snd (wrap sm width (mkWrapKwargs expand_tabs replace_whitespace drop_whitespace
                                        break_long_words boh' rest))).
Proof.
  repeat match goal with |- _ /\ _ => split end.
  - intros boh. unfold wrap.
    cbn [kw_expand_tabs kw_replace_whitespace kw_drop_whitespace kw_break_long_words
         kw_break_on_hyphens kw_rest].
    destruct width as [| b | z | s | |]; cbn [py_integer];
      try (split; [cbn; tauto | intros ((w & Hw) & _); discriminate]).
    destruct (py_is_True (kw_get expand_tabs PyNone)) eqn:E1;
      [split; [cbn; tauto | intros (_ & H1 & _); discriminate]|].
    destruct (py_truthy (kw_get replace_whitespace (PyBool true))) eqn:E2; cbn [negb];
      [|split; [intros Hin; no_launch Hin | intros (_ & _ & H2 & _); discriminate]].
    destruct (py_truthy (kw_get drop_whitespace (PyBool true))) eqn:E3; cbn [negb];
      [|split; [intros Hin; no_launch Hin | intros (_ & _ & _ & H3 & _); discriminate]].
    destruct (py_is_True (kw_get break_long_words PyNone)) eqn:E4;
      [split; [intros Hin; no_launch Hin | intros (_ & _ & _ & _ & H4); discriminate]|].
    cbn [fst]. split.
    + intros _. repeat split; eauto.
    + intros _. rewrite !in_app_iff. right. right. right. left. reflexivity.
  - intros boh Hw. unfold wrap.
    destruct width; cbn [py_integer]; try (eexists; reflexivity).
    exfalso. apply (Hw z). reflexivity.
  - intros boh boh'. unfold wrap.
    cbn [kw_expand_tabs kw_replace_whitespace kw_drop_whitespace kw_break_long_words
         kw_break_on_hyphens kw_rest].
    destruct (py_integer width); [|reflexivity].
    destruct (py_is_True (kw_get expand_tabs PyNone)); [reflexivity|].
    destruct (negb (py_truthy (kw_get replace_whitespace (PyBool true)))); [reflexivity|].
    destruct (negb (py_truthy (kw_get drop_whitespace (PyBool true)))); [reflexivity|].
    destruct (py_is_True (kw_get break_long_words PyNone)); reflexivity.
Qed.

Lemma wrap_checks_witness :
  (exists msg,
     wrap (str example_column) (PyBool true)
          (mkWrapKwargs None None None None None no_kwargs)
     = ([], Raise (TypeError msg))) /\
  In WrapLaunched
     (fst (wrap (str example_column) (PyInt 12)
                (mkWrapKwargs None None None None (Some (PyBool true)) no_kwargs))).
Proof.
  destruct (wrap_checks (str example_column) (PyBool true) None None None None no_kwargs)
    as (_ & Htype & _).
  destruct (wrap_checks (str example_column) (PyInt 12) None None None None no_kwargs)
    as (Hlaunch & _ & _).
  split.
  - apply Htype. discriminate.
  - apply Hlaunch. repeat split; eauto.
Defined.

(** ** More on serialisation *)

(** The header and the frames of a well-formed column with children. *)
Lemma serialize_with_children (c : StringColumn) (ob cb : Column) :
  well_formed c -> base_children c = [ob; cb] ->
  exists o ch,
    children c = Ok [o; ch] /\
    Z.of_nat (List.length (col_elements o)) = size c + 1 /\
    serialize c
    = let frames := [col_elements o; col_elements ch]
                    ++ (if null_count c >? 0
                        then match mask c with Some m => [m] | None => [] end
                        else []) in
      Ok (mkHeader (null_count c)
                   [mkColumnHeader (col_dtype o) 1; mkColumnHeader (col_dtype ch) 1]
                   (Z.of_nat (List.length frames)), frames).
Proof.
  intros Hwf Hch.
  destruct (children_shape c ob cb Hwf Hch) as (o & ch & Hok & Hom & Hcm & Hlen).
  exists o, ch. split; [exact Hok|]. split; [exact Hlen|].
  unfold serialize. rewrite Hok. cbn [bind serialize_children].
  unfold column_serialize. rewrite Hom, Hcm.
  cbn [List.length app Z.of_nat Pos.of_succ_nat].
  destruct (null_count c >? 0); reflexivity.
Qed.

(** X7: the column [deserialize] rebuilds from the frames of a well-formed
    column is compact: its offset is 0, its logical children are its base
    children, and it has a mask exactly when the original has a null, the
    mask then being the mask of the original window. *)
Theorem roundtrip_is_compact (c : StringColumn) :
  well_formed c ->
  exists header frames c',
    serialize c = Ok (header, frames) /\
    deserialize header frames = Ok c' /\
    offset c' = 0 /\
    children c' = Ok (base_children c') /\
    base_mask c' = (if null_count c >? 0 then mask c else None) /\
    (nullable c' = true <-> 0 < null_count c).
Proof.
  intros Hwf. pose proof Hwf as (Hs & Ho & H).
  assert (Hnullable : forall m,
            m = (if null_count c >? 0 then mask c else None) ->
            (match m with Some _ => true | None => false end = true
             <-> 0 < null_count c)).
  { intros m ->. destruct (null_count c >? 0) eqn:Hn.
    - rewrite Z.gtb_ltb in Hn. apply Z.ltb_lt in Hn.
      destruct (mask c) eqn:Hm; [tauto|].
      unfold null_count in Hn. rewrite Hm, count_nulls_none in Hn. lia.
    - rewrite Z.gtb_ltb in Hn. apply Z.ltb_ge in Hn.
      split; [discriminate | lia]. }
  destruct (base_children c) as [|ob [|cb [|x rest]]] eqn:Hch; try contradiction.
  - assert (Hn : null_count c = 0).
    { unfold null_count, count_nulls. rewrite H. reflexivity. }
    exists (mkHeader 0 [] 0), [], (build_string_column None []).
    unfold serialize, children. rewrite Hch, Hn. cbn.
    repeat match goal with |- _ /\ _ => split end; try reflexivity.
    split; [discriminate | lia].
  - destruct (deserialize_serialize c ob cb Hwf Hch)
      as (o & ch & header & frames & Hok & Hser & Hde & Hlen).
    exists header, frames, (rebuilt c o ch).
    repeat match goal with |- _ /\ _ => split end.
    + exact Hser.
    + exact Hde.
    + reflexivity.
    + apply rebuilt_children; assumption.
    + reflexivity.
    + exact (Hnullable _ eq_refl).
Qed.

Lemma roundtrip_is_compact_witness :
  exists header frames c',
    serialize example_slice = Ok (header, frames) /\
    deserialize header frames = Ok c' /\
    offset c' = 0 /\
    children c' = Ok (base_children c') /\
    base_mask c' = (if null_count example_slice >? 0 then mask example_slice else None) /\
    (nullable c' = true <-> 0 < null_count example_slice).
Proof.
  apply (roundtrip_is_compact example_slice). wf_by_computation.
Defined.

Lemma rebuilt_mask (c : StringColumn) (o ch : Column) :
  mask (rebuilt c o ch) = (if null_count c >? 0 then mask c else None).
Proof.
  unfold mask at 1, rebuilt, build_string_column, StringColumn_init.
  cbn [base_mask offset Z.eqb].
  destruct (null_count c >? 0); [destruct (mask c)|]; reflexivity.
Qed.

(** X8: serialising the rebuilt column gives the header and the frames of
    the original again: after one round trip the serialised form no longer
    changes. *)
Theorem serialize_is_stable (c : StringColumn) :
  well_formed c ->
  exists header frames c',
    serialize c = Ok (header, frames) /\
    deserialize header frames = Ok c' /\
    serialize c' = Ok (header, frames).
Proof.
  intros Hwf. pose proof Hwf as (Hs & Ho & H).
  destruct (base_children c) as [|ob [|cb [|x rest]]] eqn:Hch; try contradiction.
  - assert (Hn : null_count c = 0).
    { unfold null_count, count_nulls. rewrite H. reflexivity. }
    exists (mkHeader 0 [] 0), [], (build_string_column None []).
    unfold serialize, children. rewrite Hch, Hn. cbn.
    repeat split; reflexivity.
  - destruct (serialize_with_children c ob cb Hwf Hch) as (o & ch & Hok & Hlen & Hser).
    destruct (deserialize_serialize c ob cb Hwf Hch)
      as (o' & ch' & header & frames & Hok' & Hser' & Hde & _).
    rewrite Hok in Hok'. injection Hok' as <- <-.
    exists header, frames, (rebuilt c o ch).
    split; [exact Hser'|]. split; [exact Hde|].
    rewrite <- Hser', Hser.
    unfold serialize.
    rewrite (rebuilt_children c o ch Hlen Hs), (rebuilt_null_count c o ch Hlen Hs),
      (rebuilt_mask c o ch).
    change (base_children (rebuilt c o ch))
      with [build_column_of_buffer (col_elements o) (col_dtype o) None;
            build_column_of_buffer (col_elements ch) (col_dtype ch) None].
    cbn [bind serialize_children]. unfold column_serialize.
    rewrite !col_elements_of_buffer.
    cbn [col_base_mask build_column_of_buffer col_dtype].
    destruct (null_count c >? 0); [destruct (mask c)|]; reflexivity.
Qed.

Lemma serialize_is_stable_witness :
  exists header frames c',
    serialize example_slice = Ok (header, frames) /\
    deserialize header frames = Ok c' /\
    serialize c' = Ok (header, frames).
Proof.
  apply (serialize_is_stable example_slice). wf_by_computation.
Defined.

(** X9: [deserialize] reads the third frame exactly when the header counts
    a null.  With nulls the third frame, and no other, becomes the mask of
    the column, the frames after it are ignored, and fewer than three frames
    raise [IndexError]; without nulls the column has no mask and the frames
    after the second are ignored. *)
Theorem deserialize_mask_frame (header : Header) (frames : list Buffer) :
  (0 < h_null_count header -> (List.length frames < 3)%nat ->
     deserialize header frames = Raise IndexError) /\
  (forall b, 0 < h_null_count header -> nth_error frames 2 = Some b ->
     deserialize header frames = deserialize header (firstn 3 frames) /\
     forall c, deserialize header frames = Ok c -> base_mask c = Some b) /\
  (h_null_count header <= 0 ->
     deserialize header frames = deserialize header (firstn 2 frames) /\
     forall c, deserialize header frames = Ok c -> base_mask c = None).
Proof.
  repeat match goal with |- _ /\ _ => split end.
  - intros Hn Hlen. unfold deserialize.
    destruct (h_null_count header >? 0) eqn:E;
      [|rewrite Z.gtb_ltb in E; apply Z.ltb_ge in E; lia].
    destruct (nth_error frames 2) eqn:Hnth; [|reflexivity].
    assert (nth_error frames 2 <> None) by congruence.
    apply nth_error_Some in H. lia.
  - intros b Hn Hb.
    assert (Hpos : (h_null_count header >? 0) = true)
      by (rewrite Z.gtb_ltb; apply Z.ltb_lt; exact Hn).
    split.
    + unfold deserialize. rewrite Hpos.
      assert (Hb3 : nth_error (firstn 3 frames) 2 = Some b).
      { destruct frames as [|f0 [|f1 [|f2 rest]]]; try discriminate. exact Hb. }
      rewrite Hb, Hb3. cbn [bind]. rewrite firstn_firstn. reflexivity.
    + intros c Hc. unfold deserialize in Hc. rewrite Hpos, Hb in Hc. cbn [bind] in Hc.
      destruct (deserialize_children _) as [ch|e]; [|discriminate].
      injection Hc as <-. reflexivity.
  - intros Hn.
    assert (Hneg : (h_null_count header >? 0) = false)
      by (rewrite Z.gtb_ltb; apply Z.ltb_ge; exact Hn).
    split.
    + unfold deserialize. rewrite Hneg. cbn [bind]. rewrite firstn_firstn. reflexivity.
    + intros c Hc. unfold deserialize in Hc. rewrite Hneg in Hc. cbn [bind] in Hc.
      destruct (deserialize_children _) as [ch|e]; [|discriminate].
      injection Hc as <-. reflexivity.
Qed.

Lemma deserialize_mask_frame_witness :
  deserialize (mkHeader 1 [mkColumnHeader Int32 1; mkColumnHeader Int8 1] 3)
              [[0; 0; 3]; [112; 105; 101]] = Raise IndexError /\
  (deserialize (mkHeader 1 [mkColumnHeader Int32 1; mkColumnHeader Int8 1] 3)
               [[0; 0; 3]; [112; 105; 101]; [2]; [7]]
   = deserialize (mkHeader 1 [mkColumnHeader Int32 1; mkColumnHeader Int8 1] 3)
                 [[0; 0; 3]; [112; 105; 101]; [2]] /\
   forall c,
     deserialize (mkHeader 1 [mkColumnHeader Int32 1; mkColumnHeader Int8 1] 3)
                 [[0; 0; 3]; [112; 105; 101]; [2]; [7]] = Ok c ->
     base_mask c = Some [2]) /\
  (deserialize (mkHeader 0 [mkColumnHeader Int32 1; mkColumnHeader Int8 1] 2)
               [[0; 0; 3]; [112; 105; 101]; [2]]
   = deserialize (mkHeader 0 [mkColumnHeader Int32 1; mkColumnHeader Int8 1] 2)
                 [[0; 0; 3]; [112; 105; 101]] /\
   forall c,
     deserialize (mkHeader 0 [mkColumnHeader Int32 1; mkColumnHeader Int8 1] 2)
                 [[0; 0; 3]; [112; 105; 101]; [2]] = Ok c ->
     base_mask c = None).
Proof.
  split; [|split].
  - apply (proj1 (deserialize_mask_frame
                    (mkHeader 1 [mkColumnHeader Int32 1; mkColumnHeader Int8 1] 3)
                    [[0; 0; 3]; [112; 105; 101]])); cbn [h_null_count List.length]; lia.
  - apply (proj1 (proj2 (deserialize_mask_frame
                    (mkHeader 1 [mkColumnHeader Int32 1; mkColumnHeader Int8 1] 3)
                    [[0; 0; 3]; [112; 105; 101]; [2]; [7]])) [2]);
      [cbn [h_null_count]; lia | reflexivity].
  - apply (proj2 (proj2 (deserialize_mask_frame
                    (mkHeader 0 [mkColumnHeader Int32 1; mkColumnHeader Int8 1] 2)
                    [[0; 0; 3]; [112; 105; 101]; [2]]))). cbn [h_null_count]. lia.
Defined.

(** ** The logical children as a partition of the chars *)

(** The offsets of the logical children of a well-formed column are
    ordered and lie between 0 and the length of the chars. *)
Lemma children_offsets_ordered (c : StringColumn) (ob cb : Column) :
  well_formed c -> base_children c = [ob; cb] ->
  exists offsets chars,
    children c = Ok [offsets; chars] /\
    forall r : nat, (r < Z.to_nat (size c))%nat ->
      0 <= nth r (col_elements offsets) 0 /\
      nth r (col_elements offsets) 0 <= nth (S r) (col_elements offsets) 0 /\
      nth (S r) (col_elements offsets) 0 <= Z.of_nat (List.length (col_elements chars)).
Proof.
  intros Hwf Hch.
  destruct (children_offsets_within c ob cb Hwf Hch) as (o & ch & Hok & Hin & _).
  destruct (children_shape c ob cb Hwf Hch) as (o' & ch' & Hok' & _ & _ & Hlen).
  rewrite Hok in Hok'. injection Hok' as <- <-.
  exists o, ch. split; [exact Hok|].
  intros r Hr.
  apply (offsets_within_bounds _ _ _ Hin r (S r)). lia.
Qed.

(** X10: the logical children of a well-formed column delimit every row
    inside the chars they show: the offsets of a row are ordered, they lie
    between 0 and the length of the chars, and the row has as many bytes as
    its offsets are apart.  No row reaches outside the window. *)
Theorem children_rows_within_chars (c : StringColumn) (ob cb : Column) :
  well_formed c -> base_children c = [ob; cb] ->
  exists offsets chars,
    children c = Ok [offsets; chars] /\
    forall r : nat, (r < Z.to_nat (size c))%nat ->
      0 <= nth r (col_elements offsets) 0 /\
      nth r (col_elements offsets) 0 <= nth (S r) (col_elements offsets) 0 /\
      nth (S r) (col_elements offsets) 0 <= Z.of_nat (List.length (col_elements chars)) /\
      Z.of_nat (List.length (string_at offsets chars (Z.of_nat r)))
      = nth (S r) (col_elements offsets) 0 - nth r (col_elements offsets) 0.
Proof.
  intros Hwf Hch.
  destruct (children_offsets_ordered c ob cb Hwf Hch) as (o & ch & Hok & Hord).
  exists o, ch. split; [exact Hok|].
  intros r Hr. destruct (Hord r Hr) as (H0 & H1 & H2).
  repeat match goal with |- _ /\ _ => split end; try assumption.
  unfold string_at, slice.
  replace (Z.to_nat (Z.of_nat r)) with r by lia.
  replace (Z.to_nat (Z.of_nat r + 1)) with (S r) by lia.
  rewrite length_firstn, length_skipn. lia.
Qed.

Lemma children_rows_within_chars_witness :
  exists offsets chars,
    children example_slice = Ok [offsets; chars] /\
    forall r : nat, (r < 2)%nat ->
      0 <= nth r (col_elements offsets) 0 /\
      nth r (col_elements offsets) 0 <= nth (S r) (col_elements offsets) 0 /\
      nth (S r) (col_elements offsets) 0 <= Z.of_nat (List.length (col_elements chars)) /\
      Z.of_nat (List.length (string_at offsets chars (Z.of_nat r)))
      = nth (S r) (col_elements offsets) 0 - nth r (col_elements offsets) 0.
Proof.
  apply (children_rows_within_chars example_slice
           (build_column_of_buffer [0; 5; 5; 8] Int32 None)
           (build_column_of_buffer example_chars Int8 None)).
  - wf_by_computation.
  - reflexivity.
Defined.

Lemma firstn_then_slice (l : list Z) (a b : nat) :
  (a <= b)%nat -> firstn a l ++ firstn (b - a) (skipn a l) = firstn b l.
Proof.
  intros Hab.
  rewrite <- (firstn_skipn a (firstn b l)), firstn_firstn, skipn_firstn_comm.
  replace (Nat.min a b) with a by lia. reflexivity.
Qed.

Lemma concat_of_slices (l : list Z) (f : nat -> Z) (n : nat) :
  f 0%nat = 0 ->
  (forall i, (i < n)%nat -> 0 <= f i <= f (S i)) ->
  concat (map (fun r => slice l (f r) (f (S r))) (seq 0 n))
  = firstn (Z.to_nat (f n)) l.
Proof.
  intros H0. induction n as [|n IH]; intros Hmono.
  - cbn. rewrite H0. reflexivity.
  - rewrite seq_S, map_app, concat_app, IH by (intros i Hi; apply Hmono; lia).
    cbn [Nat.add map concat]. rewrite app_nil_r. unfold slice.
    pose proof (Hmono n ltac:(lia)) as Hn.
    assert (Hpos : 0 <= f n).
    { clear IH. induction n as [|k IHk]; [lia|].
      pose proof (Hmono k ltac:(lia)). lia. }
    apply firstn_then_slice. lia.
Qed.

(** The first and the last offset of the logical children of a well-formed
    column with canonical base children. *)
Lemma children_ends (c : StringColumn) (ob cb : Column) :
  well_formed c -> canonical_base c -> base_children c = [ob; cb] ->
  exists offsets chars,
    children c = Ok [offsets; chars] /\
    nth 0 (col_elements offsets) 0 = 0 /\
    nth (Z.to_nat (size c)) (col_elements offsets) 0
    = Z.of_nat (List.length (col_elements chars)) /\
    col_size chars = Z.of_nat (List.length (col_elements chars)).
Proof.
  intros Hwf Hcan Hch.
  pose proof (wf_facts c ob cb Hwf Hch) as (Hs & Ho & Huo & Huc & Hwin & Hin & Hlt).
  destruct (aligned c) eqn:Hal.
  - exists ob, cb. rewrite (children_aligned c ob cb Hch Hal), Hch.
    unfold aligned in Hal. rewrite Hch in Hal.
    apply andb_true_iff in Hal. destruct Hal as [Hoff Hsz].
    apply Z.eqb_eq in Hoff, Hsz.
    unfold canonical_base in Hcan. rewrite Hch in Hcan. destruct Hcan as [Hfirst Hlast].
    pose proof Huo as (Hoo & Hos & _). pose proof Huc as (Hco & Hcs & _).
    rewrite (col_elements_unsliced ob Huo), (col_elements_unsliced cb Huc).
    repeat match goal with |- _ /\ _ => split end; try reflexivity; try assumption.
    rewrite last_is_nth in Hlast. rewrite <- Hlast. f_equal. lia.
  - exists (derived_offsets c ob), (derived_chars c ob cb).
    rewrite (children_windowed c ob cb Hwf Hch Hal).
    pose proof (derived_chars_length c ob cb Hwf Hch) as Hlen. cbv zeta in Hlen.
    pose proof (derived_offsets_nth c ob cb Hwf Hch 0) as H0.
    pose proof (derived_offsets_nth c ob cb Hwf Hch (size c)) as Hn.
    cbv zeta in H0, Hn.
    repeat match goal with |- _ /\ _ => split end; try reflexivity.
    + change (Z.to_nat 0) with 0%nat in H0. rewrite H0 by lia.
      rewrite Z.add_0_r. lia.
    + rewrite Hn by lia. rewrite Hlen. reflexivity.
    + rewrite Hlen. reflexivity.
Qed.

(** X11: for a well-formed column with canonical base children, the chars
    of the logical children are the rows laid end to end, with no byte
    before, between or after them; so [_nbytes] is the total length of the
    rows, and [sum] decodes the rows laid end to end (the empty string for
    a column without rows). *)
Theorem chars_are_the_rows `{StringKernels} (c : StringColumn) (ob cb : Column) :
  well_formed c -> canonical_base c -> base_children c = [ob; cb] ->
  exists offsets chars,
    children c = Ok [offsets; chars] /\
    let row_bytes := map (fun r => string_at offsets chars (Z.of_nat r))
                         (seq 0 (Z.to_nat (size c))) in
    col_elements chars = concat row_bytes /\
    _nbytes c = Ok (Z.of_nat (List.length (concat row_bytes))) /\
    (0 < size c -> sum c = utf8_decode (concat row_bytes)) /\
    (size c = 0 -> sum c = Ok EmptyString).
Proof.
  intros Hwf Hcan Hch.
  destruct (children_ends c ob cb Hwf Hcan Hch) as (o & ch & Hok & Hfirst & Hlast & Hsz).
  destruct (children_offsets_ordered c ob cb Hwf Hch) as (o' & ch' & Hok' & Hrows).
  rewrite Hok in Hok'. injection Hok' as <- <-.
  exists o, ch. split; [exact Hok|]. cbv zeta.
  assert (Hcat : col_elements ch
                 = concat (map (fun r => string_at o ch (Z.of_nat r))
                               (seq 0 (Z.to_nat (size c))))).
  { rewrite (map_ext _ (fun r => slice (col_elements ch)
                                   (nth r (col_elements o) 0)
                                   (nth (S r) (col_elements o) 0))).
    - rewrite (concat_of_slices (col_elements ch) (fun r => nth r (col_elements o) 0)).
      + rewrite Hlast, Nat2Z.id, firstn_all. reflexivity.
      + exact Hfirst.
      + intros i Hi. destruct (Hrows i Hi) as (H0 & H1 & _). lia.
    - intros r. unfold string_at.
      replace (Z.to_nat (Z.of_nat r)) with r by lia.
      replace (Z.to_nat (Z.of_nat r + 1)) with (S r) by lia. reflexivity. }
  pose proof Hwf as (Hs & _).
  repeat match goal with |- _ /\ _ => split end.
  - exact Hcat.
  - unfold _nbytes. destruct (size c =? 0) eqn:Hz.
    + apply Z.eqb_eq in Hz. rewrite Hz. reflexivity.
    + rewrite Hok. cbn [bind nth_error]. rewrite Hsz, Hcat at 1. reflexivity.
  - intros Hpos. unfold sum, len_.
    destruct (size c =? 0) eqn:Hz; [apply Z.eqb_eq in Hz; lia|].
    rewrite Hok. cbn [bind nth_error]. rewrite Hcat at 1. reflexivity.
  - intros Hz. unfold sum, len_. rewrite Hz. reflexivity.
Qed.

Lemma chars_are_the_rows_witness :
  exists offsets chars,
    children example_column = Ok [offsets; chars] /\
    let row_bytes := map (fun r => string_at offsets chars (Z.of_nat r)) (seq 0 3) in
    col_elements chars = concat row_bytes /\
    _nbytes example_column = Ok (Z.of_nat (List.length (concat row_bytes))) /\
    (0 < 3 -> sum example_column = utf8_decode (concat row_bytes)) /\
    (3 = 0 -> sum example_column = Ok EmptyString).
Proof.
  apply (chars_are_the_rows example_column
           (build_column_of_buffer [0; 5; 5; 8] Int32 None)
           (build_column_of_buffer example_chars Int8 None)).
  - wf_by_computation.
  - cbn. split; reflexivity.
  - reflexivity.
Defined.

(** ** Export to Arrow *)

Lemma filter_all (f : nat -> bool) (l : list nat) :
  List.length (filter f l) = List.length l -> forall x, In x l -> f x = true.
Proof.
  induction l as [|y l IH]; intros Hlen x Hin; [contradiction|].
  cbn [filter] in Hlen. pose proof (filter_length_le f l) as Hle.
  destruct (f y) eqn:Hy; cbn [List.length] in Hlen.
  - destruct Hin as [<- | Hin]; [exact Hy | apply IH; [lia | exact Hin]].
  - lia.
Qed.

(** When every row is counted as null, every row is null. *)
Lemma count_nulls_all (m : option Buffer) (n : Z) (r : nat) :
  0 <= n -> count_nulls m n = n -> (r < Z.to_nat n)%nat -> mask_row_is_null m r = true.
Proof.
  unfold count_nulls. intros Hn Hc Hr.
  apply (filter_all (mask_row_is_null m) (seq 0 (Z.to_nat n))).
  - rewrite length_seq. lia.
  - apply in_seq. lia.
Qed.

Lemma mask_if_nulls (c : StringColumn) (r : nat) :
  (r < Z.to_nat (size c))%nat ->
  mask_row_is_null (if null_count c >? 0 then mask c else None) r = row_is_null c r.
Proof.
  intros Hr. destruct (null_count c >? 0) eqn:Hn; [reflexivity|].
  assert (Hz : null_count c = 0).
  { pose proof (count_nulls_nonneg (mask c) (size c)). unfold null_count in *.
    rewrite Z.gtb_ltb in Hn. apply Z.ltb_ge in Hn. lia. }
  symmetry. apply has_nulls_false; [|exact Hr].
  unfold has_nulls. rewrite Hz. reflexivity.
Qed.

Lemma to_arrow_without_rows (c : StringColumn) :
  size c = 0 -> to_arrow c = Ok (NullArray 0 0).
Proof.
  intros Hz. unfold to_arrow, len_, null_count, count_nulls. rewrite Hz. reflexivity.
Qed.

Lemma to_arrow_all_null (c : StringColumn) :
  well_formed c -> null_count c = size c ->
  to_arrow c = Ok (NullArray (size c) (size c)).
Proof.
  intros Hwf Hall. unfold to_arrow, len_. rewrite Hall.
  destruct (size c =? 0) eqn:Hz.
  - cbn [bind]. rewrite Z.eqb_refl. reflexivity.
  - pose proof Hwf as (Hs & Ho & H). apply Z.eqb_neq in Hz.
    destruct (base_children c) as [|ob [|cb [|x rest]]] eqn:Hch; try contradiction.
    destruct (children_ok c ob cb Hwf Hch) as (o & ch & Hok).
    rewrite Hok. cbn [bind]. rewrite Z.eqb_refl. reflexivity.
Qed.

Lemma to_arrow_string_array (c : StringColumn) :
  well_formed c -> null_count c <> size c ->
  exists offsets chars,
    children c = Ok [offsets; chars] /\
    to_arrow c = Ok (StringArray (size c) (col_elements offsets) (col_elements chars)
                       (if null_count c >? 0 then mask c else None) (null_count c)).
Proof.
  intros Hwf Hsome. pose proof Hwf as (Hs & Ho & H).
  assert (Hz : size c <> 0).
  { intros Hz. apply Hsome. unfold null_count, count_nulls. rewrite Hz. reflexivity. }
  destruct (base_children c) as [|ob [|cb [|x rest]]] eqn:Hch; try contradiction.
  destruct (children_ok c ob cb Hwf Hch) as (o & ch & Hok).
  exists o, ch. split; [exact Hok|].
  unfold to_arrow, len_. rewrite Hok.
  destruct (size c =? 0) eqn:E; [apply Z.eqb_eq in E; contradiction|].
  cbn [bind].
  destruct (null_count c =? size c) eqn:E'; [apply Z.eqb_eq in E'; contradiction|].
  reflexivity.
Qed.

(** X12: [to_arrow] gives a null array, not a string array, for a column
    without rows and for a column whose rows are all null; for every other
    well-formed column it gives a string array over the elements of the
    logical children, with a validity buffer exactly when there is a
    null. *)
Theorem to_arrow_kind (c : StringColumn) :
  (size c = 0 -> to_arrow c = Ok (NullArray 0 0)) /\
  (well_formed c -> null_count c = size c ->
     to_arrow c = Ok (NullArray (size c) (size c))) /\
  (well_formed c -> null_count c <> size c ->
     exists offsets chars nbuf,
       children c = Ok [offsets; chars] /\
       to_arrow c = Ok (StringArray (size c) (col_elements offsets) (col_elements chars)
                          nbuf (null_count c)) /\
       (nbuf = None <-> null_count c = 0) /\
       (forall m, nbuf = Some m -> mask c = Some m)).
Proof.
  repeat match goal with |- _ /\ _ => split end.
  - apply to_arrow_without_rows.
  - apply to_arrow_all_null.
  - intros Hwf Hsome.
    destruct (to_arrow_string_array c Hwf Hsome) as (o & ch & Hok & Harrow).
    exists o, ch, (if null_count c >? 0 then mask c else None).
    split; [exact Hok|]. split; [exact Harrow|].
    pose proof (count_nulls_nonneg (mask c) (size c)) as Hnn. fold (null_count c) in Hnn.
    destruct (null_count c >? 0) eqn:Hn; rewrite Z.gtb_ltb in Hn.
    + apply Z.ltb_lt in Hn. split.
      * split; [|lia]. intros Hm. unfold null_count in Hn.
        rewrite Hm, count_nulls_none in Hn. lia.
      * intros m Hm. exact Hm.
    + apply Z.ltb_ge in Hn. split; [split; [lia | reflexivity] | discriminate].
Qed.

Lemma to_arrow_kind_witness :
  to_arrow zero_row_column = Ok (NullArray 0 0) /\
  to_arrow all_null_column = Ok (NullArray 2 2) /\
  to_arrow example_slice
  = Ok (StringArray 2 [0; 0; 3] [112; 105; 101] (Some [2]) 1).
Proof.
  destruct (to_arrow_kind zero_row_column) as (Hzero & _ & _).
  destruct (to_arrow_kind all_null_column) as (_ & Hall & _).
  destruct (to_arrow_kind example_slice) as (_ & _ & Hsome).
  repeat match goal with |- _ /\ _ => split end.
  - apply Hzero. reflexivity.
  - apply Hall; [wf_by_computation | reflexivity].
  - destruct Hsome as (o & ch & nbuf & Hok & Harrow & _ & Hmask);
      [wf_by_computation | cbn; discriminate |].
    injection Hok as <- <-. rewrite Harrow. do 2 f_equal.
    destruct nbuf as [m|].
    + specialize (Hmask m eq_refl). cbn in Hmask. exact (eq_sym Hmask).
    + exfalso. vm_compute in Harrow. discriminate.
Defined.

(** X13: the Arrow array [to_arrow] gives for a well-formed column holds
    the rows of the column: the same nulls at the same places and the same
    bytes in every other row. *)
Theorem to_arrow_rows (c : StringColumn) :
  well_formed c ->
  exists a nvs, to_arrow c = Ok a /\ nvstrings c = Ok nvs /\ arrow_rows a = nvs.
Proof.
  intros Hwf. pose proof Hwf as (Hs & Ho & H).
  destruct (Z.eq_dec (size c) 0) as [Hz | Hz].
  - exists (NullArray 0 0), [].
    rewrite (to_arrow_without_rows c Hz). unfold nvstrings. rewrite Hz.
    repeat split; reflexivity.
  - destruct (base_children c) as [|ob [|cb [|x rest]]] eqn:Hch; try contradiction.
    destruct (children_ok c ob cb Hwf Hch) as (o & ch & Hok).
    assert (Hnvs : nvstrings c
              = Ok (map (fun r => if row_is_null c r then None
                                  else Some (string_of_bytes (string_at o ch (Z.of_nat r))))
                        (seq 0 (Z.to_nat (size c))))).
    { unfold nvstrings. destruct (size c =? 0) eqn:E; [apply Z.eqb_eq in E; contradiction|].
      rewrite Hok. cbn [bind]. f_equal. apply map_ext. intros r.
      rewrite nullable_and_null. reflexivity. }
    destruct (Z.eq_dec (null_count c) (size c)) as [Hall | Hsome].
    + exists (NullArray (size c) (size c)). eexists.
      split; [apply to_arrow_all_null; assumption|].
      split; [exact Hnvs|].
      cbn [arrow_rows].
      rewrite <- (length_seq (Z.to_nat (size c)) 0) at 1.
      rewrite <- (map_const (A := nat)).
      apply map_ext_in. intros r Hr. apply in_seq in Hr.
      unfold row_is_null. unfold null_count in Hall.
      rewrite (count_nulls_all (mask c) (size c) r Hs Hall) by lia. reflexivity.
    + destruct (to_arrow_string_array c Hwf Hsome) as (o' & ch' & Hok' & Harrow).
      rewrite Hok in Hok'. injection Hok' as <- <-.
      eexists. eexists. split; [exact Harrow|]. split; [exact Hnvs|].
      cbn [arrow_rows]. apply map_ext_in. intros r Hr. apply in_seq in Hr.
      rewrite mask_if_nulls by lia.
      destruct (row_is_null c r); [reflexivity|].
      unfold string_at.
      replace (Z.to_nat (Z.of_nat r)) with r by lia.
      replace (Z.to_nat (Z.of_nat r + 1)) with (S r) by lia. reflexivity.
Qed.

Lemma to_arrow_rows_witness :
  exists a nvs,
    to_arrow example_slice = Ok a /\ nvstrings example_slice = Ok nvs /\
    arrow_rows a = nvs.
Proof.
  apply (to_arrow_rows example_slice). wf_by_computation.
Defined.

(** ** When the datetime format is guessed *)

Lemma run_cast_never_guesses `{Engine} (fn : castfn) (c : StringColumn)
  (format : option (option string)) (dt : dtype) (row : string) :
  ~ In (EvGuessFormat row) (trace_of (run_cast fn c format dt)).
Proof.
  unfold run_cast.
  destruct (nvstrings c) as [nvs|e]; [|intros []].
  cbv beta iota delta [dev_bind lift emit dev_ret dev_raise trace_of fst].
  destruct fn; try destruct nvs as [|r nvs]; try destruct format as [[fmt|]|];
    repeat match goal with
           | |- context [match parse_rows ?f ?l with Some _ => _ | None => _ end] =>
               destruct (parse_rows f l)
           end;
    cbn; intros Hin;
    repeat match goal with
           | H : _ \/ _ |- _ => destruct H as [H | H]
           end; try discriminate; try contradiction.
Qed.

(** X14: [as_numerical_column] guesses a datetime format only for a
    datetime type, without a [format] keyword, on a column with rows: for
    another type, with a format passed (be it [None]) or on a column without
    rows, no row is looked at and the format goes to the conversion as it
    was given. *)
Theorem format_guessed_only_when_needed `{Engine} (c : StringColumn) (dt : dtype)
  (format : option (option string)) :
  is_datetime dt = false \/ format <> None \/ size c <= 0 ->
  (forall row, ~ In (EvGuessFormat row) (trace_of (as_numerical_column c dt format))) /\
  as_numerical_column c dt format
  = (fn <~ lift (_str_to_numeric_typecast_functions dt) ;; run_cast fn c format dt).
Proof.
  intros Hcase.
  assert (Heq : as_numerical_column c dt format
                = (fn <~ lift (_str_to_numeric_typecast_functions dt) ;;
                   run_cast fn c format dt)).
  { unfold as_numerical_column.
    destruct (is_datetime dt) eqn:Hd.
    - destruct format as [f|].
      + unfold dev_bind at 1, dev_ret.
        destruct (fn <~ lift (_str_to_numeric_typecast_functions dt);;
                  run_cast fn c (Some f) dt). reflexivity.
      + destruct Hcase as [Hc | [Hc | Hc]]; [discriminate | contradiction |].
        unfold len_.
        destruct (size c >? 0) eqn:Hgt;
          [rewrite Z.gtb_ltb in Hgt; apply Z.ltb_lt in Hgt; lia|].
        unfold dev_bind at 1, dev_ret.
        destruct (fn <~ lift (_str_to_numeric_typecast_functions dt);;
                  run_cast fn c None dt). reflexivity.
    - unfold dev_bind at 1, dev_ret.
      destruct (fn <~ lift (_str_to_numeric_typecast_functions dt);;
                run_cast fn c format dt). reflexivity. }
  split; [|exact Heq].
  intros row. rewrite Heq.
  destruct (_str_to_numeric_typecast_functions dt) as [fn|e]; [|intros []].
  unfold dev_bind, lift.
  pose proof (run_cast_never_guesses fn c format dt row) as Hno.
  destruct (run_cast fn c format dt) as [t r]. exact Hno.
Qed.

Lemma format_guessed_only_when_needed_witness :
  (forall row, ~ In (EvGuessFormat row)
                    (trace_of (as_numerical_column date_column (Datetime64 "ns")
                                 (Some (Some "%Y"))))) /\
  as_numerical_column date_column (Datetime64 "ns") (Some (Some "%Y"))
  = ([EvKernel "timestamp2int"],
     Ok (build_column_of_buffer [10; 10] (Datetime64 "ns") None)).
Proof.
  destruct (format_guessed_only_when_needed date_column (Datetime64 "ns")
              (Some (Some "%Y"))) as (Hno & Heq).
  - right. left. discriminate.
  - split; [exact Hno | rewrite Heq; reflexivity].
Defined.

(** ** The cached engine object *)

Section Caches.

Context `{CategoryLib} `{BaseColumn}.

(** The base class, asked to mimic another column in place, takes the
    fields of that column, and leaves its own when not in place. *)
Hypothesis base_mimic_takes_fields :
  forall self other : StringColumn,
    base_mimic_inplace self other true = other /\
    base_mimic_inplace self other false = self.

Lemma get_nvstrings_coherent (o : ColumnObject) :
  nvstrings_coherent o -> nvstrings_coherent (snd (get_nvstrings o)).
Proof.
  intros Hco. unfold get_nvstrings.
  destruct (_nvstrings o) as [v|] eqn:Hc; [exact Hco|].
  destruct (nvstrings (fields o)) as [v|e] eqn:Hn; [|exact Hco].
  intros v' Hv'. cbn in *. injection Hv' as <-. exact Hn.
Qed.

Lemma get_nvstrings_value (o : ColumnObject) :
  nvstrings_coherent o -> fst (get_nvstrings o) = nvstrings (fields o).
Proof.
  intros Hco. unfold get_nvstrings.
  destruct (_nvstrings o) as [v|] eqn:Hc.
  - symmetry. apply Hco. exact Hc.
  - destruct (nvstrings (fields o)); reflexivity.
Qed.

Lemma get_nvstrings_fields (o : ColumnObject) :
  fields (snd (get_nvstrings o)) = fields o.
Proof.
  unfold get_nvstrings.
  destruct (_nvstrings o); [reflexivity|].
  destruct (nvstrings (fields o)); reflexivity.
Qed.

Lemma get_nvcategory_coherent (o : ColumnObject) :
  nvstrings_coherent o -> nvstrings_coherent (snd (get_nvcategory o)).
Proof.
  intros Hco. unfold get_nvcategory.
  destruct (_nvcategory o); [exact Hco|].
  pose proof (get_nvstrings_coherent o Hco) as Hco'.
  destruct (get_nvstrings o) as [[nvs|e] o']; cbn [snd] in *; [|exact Hco'].
  intros v Hv. apply Hco'. exact Hv.
Qed.

Lemma get_indices_coherent (o : ColumnObject) :
  nvstrings_coherent o -> nvstrings_coherent (snd (get_indices o)).
Proof.
  intros Hco. unfold get_indices.
  destruct (_indices o); [exact Hco|].
  pose proof (get_nvcategory_coherent o Hco) as Hco'.
  destruct (get_nvcategory o) as [[k|e] o']; cbn [snd] in *; [|exact Hco'].
  intros v Hv. apply Hco'. exact Hv.
Qed.

Lemma after_coherent (o : ColumnObject) (k : call) :
  nvstrings_coherent o ->
  (forall other, k = CallMimicInplace other true -> nvstrings_coherent other) ->
  nvstrings_coherent (after o k).
Proof.
  intros Hco Hother. destruct k as [v | v | v | | | nvc | | other inplace]; cbn [after].
  - unfold set_base_mask. destruct (base_set_base_mask (fields o) v); [|exact Hco].
    intros nvs Hn. discriminate.
  - unfold set_base_children. destruct (base_set_base_children (fields o) v); [|exact Hco].
    intros nvs Hn. discriminate.
  - unfold _set_mask. destruct (base_set_mask (fields o) v); intros nvs Hn; discriminate.
  - apply get_nvstrings_coherent. exact Hco.
  - apply get_nvcategory_coherent. exact Hco.
  - exact Hco.
  - apply get_indices_coherent. exact Hco.
  - unfold _mimic_inplace.
    destruct (base_mimic_takes_fields (fields o) (fields other)) as (Ht & Hf).
    destruct inplace; intros nvs Hn; cbn in *.
    + rewrite Ht. apply (Hother other eq_refl). exact Hn.
    + rewrite Hf. apply Hco. exact Hn.
Qed.

Lemma after_all_coherent (ks : list call) :
  forall o, nvstrings_coherent o ->
    (forall other, In (CallMimicInplace other true) ks -> nvstrings_coherent other) ->
    nvstrings_coherent (after_all o ks).
Proof.
  induction ks as [|k ks IH]; intros o Hco Hother; [exact Hco|].
  cbn [after_all fold_left]. apply IH.
  - apply after_coherent; [exact Hco|].
    intros other ->. apply (Hother other). left. reflexivity.
  - intros other Hin. apply (Hother other). right. exact Hin.
Qed.

(** X15: the cached engine object is never stale.  Start from the object
    [__init__] leaves and make any calls of the setters, of the cached
    properties and of [_mimic_inplace] (with objects whose own cache is in
    order), whether they return or raise: the property [nvstrings] then
    gives what building the engine object from the fields as they are now
    gives. *)
Theorem cached_nvstrings_never_stale (m : option Buffer) (size_arg : option Z)
  (offset_arg : Z) (children_arg : list Column) (ks : list call) :
  (forall other, In (CallMimicInplace other true) ks -> nvstrings_coherent other) ->
  let o := after_all (obj_init m size_arg offset_arg children_arg) ks in
  fst (get_nvstrings o) = nvstrings (fields o) /\
  fields (snd (get_nvstrings o)) = fields o.
Proof.
  intros Hother o.
  assert (Hco : nvstrings_coherent o).
  { apply after_all_coherent; [|exact Hother]. intros nvs Hn. discriminate. }
  split; [apply get_nvstrings_value; exact Hco | apply get_nvstrings_fields].
Qed.

Lemma get_nvstrings_caches (o : ColumnObject) :
  caches_coherent o -> caches_coherent (snd (get_nvstrings o)).
Proof.
  intros (Hn & Hk & Hi).
  split; [apply get_nvstrings_coherent; exact Hn|].
  unfold get_nvstrings.
  destruct (_nvstrings o); [split; assumption|].
  destruct (nvstrings (fields o)) eqn:Hnvs; cbn; rewrite Hnvs; split; assumption.
Qed.

Lemma get_nvcategory_value (o : ColumnObject) :
  caches_coherent o ->
  fst (get_nvcategory o) = (nvs <- nvstrings (fields o) ;; Ok (from_strings nvs)) /\
  fields (snd (get_nvcategory o)) = fields o /\
  caches_coherent (snd (get_nvcategory o)).
Proof.
  intros Hco. pose proof Hco as (Hn & Hk & Hi). unfold get_nvcategory.
  destruct (_nvcategory o) as [k|] eqn:Hc.
  - destruct (Hk k eq_refl) as (nvs & Hnvs & ->). rewrite Hnvs.
    split; [reflexivity|]. split; [reflexivity | exact Hco].
  - pose proof (get_nvstrings_value o Hn) as Hv.
    pose proof (get_nvstrings_fields o) as Hf.
    pose proof (get_nvstrings_caches o Hco) as (Hn' & Hk' & Hi').
    destruct (get_nvstrings o) as [[nvs|e] o']; cbn [fst snd] in *; rewrite <- Hv.
    + split; [reflexivity|]. split; [exact Hf|].
      split; [exact Hn'|]. split; [|exact Hi'].
      intros k Hsome. cbn in Hsome. injection Hsome as <-. exists nvs.
      split; [|reflexivity]. cbn. rewrite Hf. symmetry. exact Hv.
    + split; [reflexivity|]. split; [exact Hf|].
      split; [exact Hn'|]. split; [exact Hk' | exact Hi'].
Qed.

Lemma get_indices_value (o : ColumnObject) :
  caches_coherent o ->
  fst (get_indices o)
  = (nvs <- nvstrings (fields o) ;; Ok (category_values (from_strings nvs))) /\
  fields (snd (get_indices o)) = fields o /\
  caches_coherent (snd (get_indices o)).
Proof.
  intros Hco. pose proof Hco as (Hn & Hk & Hi). unfold get_indices.
  destruct (_indices o) as [i|] eqn:Hc.
  - destruct (Hi i eq_refl) as (nvs & Hnvs & ->). rewrite Hnvs.
    split; [reflexivity|]. split; [reflexivity | exact Hco].
  - destruct (get_nvcategory_value o Hco) as (Hv & Hf & (Hn' & Hk' & Hi')).
    destruct (get_nvcategory o) as [[k|e] o']; cbn [fst snd] in *.
    + destruct (nvstrings (fields o)) as [nvs|e] eqn:Hnvs; [|discriminate].
      cbn [bind] in Hv. injection Hv as ->.
      split; [reflexivity|]. split; [exact Hf|].
      split; [exact Hn'|]. split; [exact Hk'|].
      intros i Hsome. cbn in Hsome. injection Hsome as <-. exists nvs.
      split; [|reflexivity]. cbn. rewrite Hf. exact Hnvs.
    + destruct (nvstrings (fields o)) as [nvs|e'] eqn:Hnvs; [discriminate|].
      cbn [bind] in Hv. injection Hv as ->.
      split; [reflexivity|]. split; [exact Hf|].
      split; [exact Hn'|]. split; [exact Hk' | exact Hi'].
Qed.

Ltac empty_caches :=
  split; [intros x Hx; discriminate|];
  split; intros x Hx; discriminate.

Lemma after_caches (o : ColumnObject) (k : call) :
  caches_coherent o -> keeps_category k = true ->
  (forall other, k = CallMimicInplace other true -> caches_coherent other) ->
  caches_coherent (after o k).
Proof.
  intros Hco Hkeep Hother.
  destruct k as [v | v | v | | | nvc | | other inplace]; cbn [after].
  - unfold set_base_mask. destruct (base_set_base_mask (fields o) v); [|exact Hco].
    empty_caches.
  - unfold set_base_children. destruct (base_set_base_children (fields o) v); [|exact Hco].
    empty_caches.
  - unfold _set_mask. destruct (base_set_mask (fields o) v); empty_caches.
  - apply get_nvstrings_caches. exact Hco.
  - apply get_nvcategory_value. exact Hco.
  - discriminate.
  - apply get_indices_value. exact Hco.
  - unfold _mimic_inplace.
    destruct (base_mimic_takes_fields (fields o) (fields other)) as (Ht & Hf).
    destruct inplace.
    + destruct (Hother other eq_refl) as (Hn & Hk & Hi).
      split; [|split]; cbn; rewrite Ht; assumption.
    + destruct Hco as (Hn & Hk & Hi).
      split; [|split]; cbn; rewrite Hf; assumption.
Qed.

Lemma after_all_caches (ks : list call) :
  forall o, caches_coherent o -> forallb keeps_category ks = true ->
    (forall other, In (CallMimicInplace other true) ks -> caches_coherent other) ->
    caches_coherent (after_all o ks).
Proof.
  induction ks as [|k ks IH]; intros o Hco Hkeep Hother; [exact Hco|].
  cbn [forallb] in Hkeep. apply andb_true_iff in Hkeep. destruct Hkeep as [Hk Hks].
  cbn [after_all fold_left]. apply IH.
  - apply after_caches; [exact Hco | exact Hk |].
    intros other ->. apply (Hother other). left. reflexivity.
  - exact Hks.
  - intros other Hin. apply (Hother other). right. exact Hin.
Qed.

(** X16: as long as the setter of [nvcategory] is not used, the cached
    category and indices are never stale either: after any calls of the
    other setters, of the cached properties and of [_mimic_inplace] (with
    objects whose caches are in order), [nvcategory] is the category of the
    rows of the fields as they are now and [indices] holds its values, or
    both raise what building the engine object raises. *)
Theorem cached_indices_never_stale (m : option Buffer) (size_arg : option Z)
  (offset_arg : Z) (children_arg : list Column) (ks : list call) :
  forallb keeps_category ks = true ->
  (forall other, In (CallMimicInplace other true) ks -> caches_coherent other) ->
  let o := after_all (obj_init m size_arg offset_arg children_arg) ks in
  fst (get_nvcategory o) = (nvs <- nvstrings (fields o) ;; Ok (from_strings nvs)) /\
  fst (get_indices o)
  = (nvs <- nvstrings (fields o) ;; Ok (category_values (from_strings nvs))).
Proof.
  intros Hkeep Hother o.
  assert (Hco : caches_coherent o).
  { apply after_all_caches; [|exact Hkeep | exact Hother]. empty_caches. }
  split.
  - apply get_nvcategory_value. exact Hco.
  - apply get_indices_value. exact Hco.
Qed.

End Caches.

Lemma cached_nvstrings_never_stale_witness :
  let o := after_all (obj_init None None 0 [])
             [CallNvstrings; CallSetBaseChildren example_children;
              CallSetBaseMask (Some [5]); CallNvcategory; CallIndices;
              CallMimicInplace (obj_init (Some [5]) None 1 example_children) true;
              CallNvstrings] in
  fst (get_nvstrings o) = Ok [None; Some "pie"] /\
  fields (snd (get_nvstrings o)) = fields o.
Proof.
  apply (@cached_nvstrings_never_stale reference_categories reference_base
           (fun _ _ => conj eq_refl eq_refl) None None 0 []
           [CallNvstrings; CallSetBaseChildren example_children;
            CallSetBaseMask (Some [5]); CallNvcategory; CallIndices;
            CallMimicInplace (obj_init (Some [5]) None 1 example_children) true;
            CallNvstrings]).
  intros other Hin nvs Hn.
  cbn in Hin.
  repeat match goal with
         | H : _ \/ _ |- _ => destruct H as [H | H]
         end; try discriminate; try contradiction.
  injection Hin as <-. discriminate.
Defined.

Lemma cached_indices_never_stale_witness :
  let o := after_all (obj_init None None 0 [])
             [CallIndices; CallSetBaseChildren example_children;
              CallSetBaseMask (Some [5]); CallNvcategory;
              CallMimicInplace (obj_init (Some [5]) None 1 example_children) true;
              CallIndices] in
  fst (get_nvcategory o) = Ok [None; Some "pie"] /\
  fst (get_indices o) = Ok [0; 1].
Proof.
  apply (@cached_indices_never_stale reference_categories reference_base
           (fun _ _ => conj eq_refl eq_refl) None None 0 []
           [CallIndices; CallSetBaseChildren example_children;
            CallSetBaseMask (Some [5]); CallNvcategory;
            CallMimicInplace (obj_init (Some [5]) None 1 example_children) true;
            CallIndices]).
  - reflexivity.
  - intros other Hin. cbn in Hin.
    repeat match goal with
           | H : _ \/ _ |- _ => destruct H as [H | H]
           end; try discriminate; try contradiction.
    injection Hin as <-.
    split; [intros x Hx; discriminate|]; split; intros x Hx; discriminate.
Defined.

(** ** Membership with any engine *)

(** X17: on a well-formed column [item in col] returns, whatever the
    engine, and is [True] exactly when the engine finds the regular
    expression [^item$] in a row that is not null: the item is read as a
    pattern anchored at both ends, and a null row is never a member. *)
Theorem membership_is_anchored_search `{Engine} (c : StringColumn) (item : string)
  (nvs : rows) :
  well_formed c -> nvstrings c = Ok nvs ->
  exists b : bool,
    outcome (__contains__ c item) = Ok b /\
    (b = true <->
     exists s, In (Some s) nvs /\
               nvs_contains (String.append "^" (String.append item "$")) true s = true).
Proof.
  intros Hwf Hnvs.
  destruct (nvstrings_ok c Hwf) as (nvs' & Hnvs' & Hlen).
  rewrite Hnvs in Hnvs'. injection Hnvs' as <-.
  pose proof Hwf as (Hs & _).
  set (pat := String.append "^" (String.append item "$")).
  set (vals := map (row_value (fun s => Z.b2z (nvs_contains pat true s))) nvs).
  set (out := build_column_of_buffer (kernel_fill (len_ c) vals) Bool8
                (if has_nulls c then mask c else None)).
  exists (column_contains_true out). split.
  { unfold __contains__, contains. cbn [py_is_True py_is_np_nan negb Z.eqb str _column].
    rewrite Hnvs. reflexivity. }
  pose proof (built_output_propagates c vals Bool8 Hs) as (Hsz & _ & _ & Hnull).
  fold out in Hsz, Hnull.
  assert (Helt : forall r, (r < Z.to_nat (size c))%nat ->
            nth r (col_elements out) 0
            = row_value (fun s => Z.b2z (nvs_contains pat true s)) (nth r nvs None)).
  { intros r Hr. unfold out. rewrite col_elements_of_buffer, kernel_fill_nth by exact Hr.
    unfold vals.
    exact (map_nth (row_value (fun s => Z.b2z (nvs_contains pat true s))) nvs None r). }
  split.
  - intros Hb. unfold column_contains_true in Hb.
    apply existsb_exists in Hb. destruct Hb as (r & Hin & Hr).
    apply in_seq in Hin. rewrite Hsz in Hin.
    apply andb_true_iff in Hr. destruct Hr as [_ Hone]. apply Z.eqb_eq in Hone.
    rewrite Helt in Hone by lia.
    destruct (nth r nvs None) as [s|] eqn:Hrow; [|discriminate].
    cbn [row_value] in Hone.
    destruct (nvs_contains pat true s) eqn:Hm; [|discriminate].
    exists s. split; [|exact Hm].
    rewrite <- Hrow. apply nth_In. lia.
  - intros (s & Hin & Hm). unfold column_contains_true.
    apply existsb_exists.
    destruct (In_nth _ _ None Hin) as (r & Hr & Hrow).
    exists r. split; [apply in_seq; rewrite Hsz; lia|].
    rewrite Hnull by lia. rewrite Helt by lia. rewrite Hrow. cbn [row_value].
    rewrite Hm.
    destruct (row_is_null c r) eqn:Hn; [|reflexivity].
    apply (nvstrings_row_null c nvs r Hnvs) in Hn; [|lia].
    rewrite Hrow in Hn. discriminate.
Qed.

Lemma membership_is_anchored_search_witness :
  exists b : bool,
    outcome (@__contains__ reference_engine example_column "pie") = Ok b /\
    (b = true <->
     exists s, In (Some s) [Some "apple"; None; Some "pie"] /\
               @nvs_contains reference_engine "^pie$" true s = true).
Proof.
  apply (@membership_is_anchored_search reference_engine example_column "pie"
           [Some "apple"; None; Some "pie"]).
  - wf_by_computation.
  - reflexivity.
Defined.
